(** * openvpn3-tui: the session-list and statistics parsers, the byte
    formatter, the profile store, the path completer, the theme file and
    the interactive state machine, embedded and verified.

    Go strings are byte sequences: they are modelled as [list ascii], with
    [go "..."] turning a literal into one.  Go's [int] is modelled as [Z],
    a search result [-1] as [None]. *)

From Stdlib Require Import ZArith Ascii String List Lia Bool.
From stdpp Require Import base list strings gmap.

Local Open Scope Z_scope.

Definition go (s : string) : list ascii := list_ascii_of_string s.
Arguments go s%_string.

(** ** Go's [strings] package, as far as the program uses it *)
Module strings.

(** [strings.HasPrefix]. *)
Fixpoint HasPrefix (s pre : list ascii) {struct pre} : bool :=
  match pre, s with
  | [], _ => true
  | p :: pre', c :: s' => Ascii.eqb c p && HasPrefix s' pre'
  | _ :: _, [] => false
  end.

(** [strings.HasSuffix]: [len(s) >= len(suffix) && s[len(s)-len(suffix):] == suffix]. *)
Definition HasSuffix (s suf : list ascii) : bool :=
  (length suf <=? length s)%nat
  && HasPrefix (drop (length s - length suf) s) suf.

(** [strings.TrimSuffix]. *)
Definition TrimSuffix (s suf : list ascii) : list ascii :=
  if HasSuffix s suf then take (length s - length suf) s else s.

(** [strings.Index]: the first position where [substr] occurs. *)
Fixpoint Index (s substr : list ascii) : option nat :=
  if HasPrefix s substr then Some 0%nat
  else match s with
       | [] => None
       | _ :: s' => S <$> Index s' substr
       end.

(** [strings.LastIndex]: the last position where [substr] occurs. *)
Fixpoint LastIndex (s substr : list ascii) : option nat :=
  match s with
  | [] => if HasPrefix [] substr then Some 0%nat else None
  | _ :: s' =>
      match LastIndex s' substr with
      | Some i => Some (S i)
      | None => if HasPrefix s substr then Some 0%nat else None
      end
  end.

(** [strings.Contains]. *)
Definition Contains (s substr : list ascii) : bool :=
  match Index s substr with Some _ => true | None => false end.

(** [strings.TrimLeft] with a cutset of one ASCII byte (the program only
    calls it with the cutset [" "]): leading bytes equal to it are dropped. *)
Fixpoint TrimLeftByte (s : list ascii) (c : ascii) : list ascii :=
  match s with
  | x :: s' => if Ascii.eqb x c then TrimLeftByte s' c else s
  | [] => []
  end.

(** The UTF-8 encodings of the runes for which [unicode.IsSpace] holds:
    the six ASCII ones, U+0085, U+00A0, U+1680, U+2000..U+200A, U+2028,
    U+2029, U+202F, U+205F and U+3000.  Go decodes only shortest-form
    encodings, and an invalid byte decodes to U+FFFD of width 1, which is
    no space: a string starts with a space rune exactly when it starts with
    one of these byte sequences. *)
Definition spaceEncodings : list (list ascii) :=
  map (map ascii_of_nat)
    ([ [9]; [10]; [11]; [12]; [13]; [32];
       [194; 133]; [194; 160]; [225; 154; 128] ]
     ++ map (fun k => [226; 128; 128 + k]) (seq 0 11)
     ++ [ [226; 128; 168]; [226; 128; 169]; [226; 128; 175];
          [226; 129; 159]; [227; 128; 128] ])%nat.

(** Width in bytes of the space rune [s] starts with; [0] when it starts
    with none. *)
Definition spaceWidth (encs : list (list ascii)) (s : list ascii) : nat :=
  match find (HasPrefix s) encs with
  | Some e => length e
  | None => 0%nat
  end.

(** Drop space runes from the front; [skip] counts the bytes of the rune
    being dropped that are still to go. *)
Fixpoint dropSpaces (encs : list (list ascii)) (skip : nat) (s : list ascii)
  : list ascii :=
  match s with
  | [] => []
  | _ :: s' =>
      match skip with
      | S k => dropSpaces encs k s'
      | O => match spaceWidth encs s with
             | O => s
             | S k => dropSpaces encs k s'
             end
      end
  end.

(** [strings.TrimSpace]: leading, then trailing space runes are removed
    (the trailing ones are found on the reversed string). *)
Definition TrimSpace (s : list ascii) : list ascii :=
  let s1 := dropSpaces spaceEncodings 0 s in
  rev (dropSpaces (map (@rev ascii) spaceEncodings) 0 (rev s1)).

(** [strings.ReplaceAll] for a one-byte [old] and a one-byte [new] (the
    program replaces ["."] by [" "]): every byte equal to [old] becomes
    [new]. *)
Definition ReplaceAllByte (s : list ascii) (old new : ascii) : list ascii :=
  map (fun c => if Ascii.eqb c old then new else c) s.

(** The field that ends where a space rune or the end of the string is
    met; [cur] holds its bytes, reversed. *)
Definition flush (cur : list ascii) : list (list ascii) :=
  match cur with
  | [] => []
  | _ => [rev cur]
  end.

(** The loop of [strings.Fields]: [skip] counts the bytes of the space rune
    being passed that are still to go, [cur] is the field being read. *)
Fixpoint fieldsLoop (skip : nat) (cur : list ascii) (s : list ascii)
  : list (list ascii) :=
  match s with
  | [] => flush cur
  | c :: s' =>
      match skip with
      | S k => fieldsLoop k cur s'
      | O => match spaceWidth spaceEncodings s with
             | O => fieldsLoop 0 (c :: cur) s'
             | S k => flush cur ++ fieldsLoop k [] s'
             end
      end
  end.

(** [strings.Fields]: the maximal runs of bytes between space runes. *)
Definition Fields (s : list ascii) : list (list ascii) := fieldsLoop 0 [] s.

(** [strings.SplitN(s, sep, 2)] for a separator that is not empty: the
    string itself when [sep] does not occur, else what stands before its
    first occurrence and what stands after it. *)
Definition SplitN2 (s sep : list ascii) : list (list ascii) :=
  match Index s sep with
  | Some m => [take m s; drop (m + length sep) s]
  | None => [s]
  end.

(** [strings.Trim] with a cutset of one ASCII byte: the bytes equal to it
    are dropped at the end and at the front. *)
Definition TrimByte (s : list ascii) (c : ascii) : list ascii :=
  TrimLeftByte (rev (TrimLeftByte (rev s) c)) c.

(** [strings.ToLower] on a string of ASCII bytes, where the capital
    letters become small ones and nothing else changes.  Strings with
    other bytes go through the Unicode tables, which are not embedded:
    they are outside this model ([None]). *)
Definition isASCII (c : ascii) : bool := (nat_of_ascii c <? 128)%nat.

Definition lowerByte (c : ascii) : ascii :=
  if (65 <=? nat_of_ascii c)%nat && (nat_of_ascii c <=? 90)%nat
  then ascii_of_nat (nat_of_ascii c + 32)
  else c.

Definition ToLower (s : list ascii) : option (list ascii) :=
  if forallb isASCII s then Some (map lowerByte s) else None.

End strings.

(** ** Go's [fmt] package: [Sscanf] with ["%d"], [Sprintf] with ["%d"] and ["%.2f"] *)
Module fmt.

Definition isDigit (c : ascii) : bool :=
  (48 <=? nat_of_ascii c)%nat && (nat_of_ascii c <=? 57)%nat.

Definition digitVal (c : ascii) : Z := Z.of_nat (nat_of_ascii c) - 48.

Definition digitChar (d : Z) : ascii := ascii_of_nat (Z.to_nat (48 + d)).

Definition minInt64 : Z := - 2 ^ 63.
Definition maxInt64 : Z := 2 ^ 63 - 1.

(** The scanner's [SkipSpace] under [Sscanf] (where a newline is not
    space): space runes are skipped, a newline among them is an error. *)
Fixpoint SkipSpace (skip : nat) (s : list ascii) : option (list ascii) :=
  match s with
  | [] => Some []
  | c :: s' =>
      match skip with
      | S k => SkipSpace k s'
      | O =>
          if Ascii.eqb c "010" then None
          else match strings.spaceWidth strings.spaceEncodings s with
               | O => Some s
               | S k => SkipSpace k s'
               end
      end
  end.

Fixpoint takeDigits (s : list ascii) : list ascii :=
  match s with
  | c :: s' => if isDigit c then c :: takeDigits s' else []
  | [] => []
  end.

(** [strconv.ParseInt] on a run of decimal digits, before the range check. *)
Definition parseDigits (ds : list ascii) : Z :=
  fold_left (fun acc c => 10 * acc + digitVal c) ds 0.

(** The scanner's [accept] of one sign: whether it was a minus, and what
    is left to read. *)
Definition acceptSign (s : list ascii) : bool * list ascii :=
  match s with
  | c :: r =>
      if Ascii.eqb c "+" then (false, r)
      else if Ascii.eqb c "-" then (true, r)
      else (false, s)
  | [] => (false, s)
  end.

(** [fmt.Sscanf(s, "%d", &v)] with [v] an [int64]: [Some n] when [n] is
    stored, [None] when the scan fails and [v] is left as it was.  Leading
    space is skipped, one sign is accepted, at least one digit is needed,
    what follows the digits is not read, and a value outside [int64] is an
    error. *)
Definition SscanfInt64 (s : list ascii) : option Z :=
  match SkipSpace 0 s with
  | None => None
  | Some s1 =>
      let '(neg, s2) := acceptSign s1 in
      match takeDigits s2 with
      | [] => None
      | ds =>
          let v := if neg : bool then - parseDigits ds else parseDigits ds in
          if (minInt64 <=? v) && (v <=? maxInt64) then Some v else None
      end
  end.

(** Decimal digits of a non-negative number, most significant first. *)
Fixpoint digitsOf (fuel : nat) (n : Z) : list ascii :=
  match fuel with
  | O => []
  | S f =>
      if n <? 10 then [digitChar n]
      else digitsOf f (n / 10) ++ [digitChar (n mod 10)]
  end.

Definition formatUint (n : Z) : list ascii :=
  digitsOf (S (Z.to_nat (Z.log2 n))) n.

(** [fmt.Sprintf("%d", n)]. *)
Definition Sprintf_d (n : Z) : list ascii :=
  if n <? 0 then "-"%char :: formatUint (- n) else formatUint n.

(** Nearest integer to [num / den] ([den > 0]), a tie going to the even one. *)
Definition roundHalfEven (num den : Z) : Z :=
  let q := num / den in
  let r := num mod den in
  if 2 * r <? den then q
  else if den <? 2 * r then q + 1
  else if Z.even q then q else q + 1.

(** A float64 that came from an integer and was divided by powers of two:
    the value [mant / 2 ^ shift], held exactly. *)
Record float64 := { mant : Z; shift : Z }.

(** The conversion [float64(n)] of an [int64]: exact below [2 ^ 53], else
    rounded to 53 significant bits, ties to even. *)
Definition float64_of_int (n : Z) : float64 :=
  let a := Z.abs n in
  if a <? 2 ^ 53 then {| mant := n; shift := 0 |}
  else
    let e := Z.log2 a - 52 in
    {| mant := Z.sgn n * (roundHalfEven a (2 ^ e) * 2 ^ e); shift := 0 |}.

(** Division by the constant [2 ^ k], exact in float64 for these values. *)
Definition div_pow2 (x : float64) (k : Z) : float64 :=
  {| mant := mant x; shift := shift x + k |}.

(** [fmt.Sprintf("%.2f", x)] for [x >= 0]: the exact decimal expansion of
    [x] rounded to two places, a tie going to the even digit. *)
Definition Sprintf_2f (x : float64) : list ascii :=
  let cents := roundHalfEven (100 * mant x) (2 ^ shift x) in
  formatUint (cents / 100)
    ++ "."%char :: digitChar (cents mod 100 / 10)
    :: digitChar (cents mod 10) :: [].

End fmt.

(** ** internal/openvpn/client.go *)
Module openvpn.

Record Session := {
  Path : list ascii;
  ConfigName : list ascii;
  Created : list ascii;
  Owner : list ascii;
  Status : list ascii;
  Device : list ascii;
  ConnectedTo : list ascii
}.

Definition emptySession : Session :=
  {| Path := []; ConfigName := []; Created := []; Owner := [];
     Status := []; Device := []; ConnectedTo := [] |}.

Record SessionStats := {
  BytesIn : list ascii;
  BytesOut : list ascii;
  PacketsIn : list ascii;
  PacketsOut : list ascii;
  TunnelIP : list ascii;
  TunnelIPv6 : list ascii;
  Connected : list ascii
}.

Definition isUpper (c : ascii) : bool :=
  (65 <=? nat_of_ascii c)%nat && (nat_of_ascii c <=? 90)%nat.

(** The test of [extractValue]'s loop body at index [i]: a space that is
    not the first byte, followed after the spaces by a capital letter and
    a colon at an index in [1, 20) of the trimmed rest. *)
Definition newFieldAt (rest : list ascii) (i : nat) : bool :=
  match rest !! i with
  | Some c =>
      Ascii.eqb c " " && (0 <? i)%nat
      && (let trimmed := strings.TrimLeftByte (drop i rest) " " in
          match trimmed with
          | t0 :: _ =>
              isUpper t0
              && match strings.Index trimmed (go ":") with
                 | Some colonIdx => (0 <? colonIdx)%nat && (colonIdx <? 20)%nat
                 | None => false
                 end
          | [] => false
          end)
  | None => false
  end.

(** The loop [for i := 0; i < len(rest)-1; i++]: [n] iterations are left,
    the value is [rest[:i]] at the first hit and [rest] when none is found. *)
Fixpoint valueLoop (rest : list ascii) (i n : nat) : list ascii :=
  match n with
  | O => rest
  | S n' => if newFieldAt rest i then take i rest else valueLoop rest (S i) n'
  end.

Definition extractValue (line key : list ascii) : list ascii :=
  match strings.Index line key with
  | None => []
  | Some idx =>
      let rest := drop (idx + length key) line in
      let value := valueLoop rest 0 (length rest - 1) in
      strings.TrimSpace value
  end.

(** Lines 87-96 of [parseSessionsList]: what is stored as the config name
    for the extracted value [configName]. *)
Definition cleanConfigName (configName : list ascii) : list ascii :=
  let configName :=
    match strings.Index configName (go "(Config not available)") with
    | Some idx => strings.TrimSpace (take idx configName)
    | None => configName
    end in
  let configName :=
    match strings.LastIndex configName (go "/") with
    | Some lastSlash => drop (lastSlash + 1) configName
    | None => configName
    end in
  strings.TrimSuffix configName (go ".ovpn").

Definition setPath (s : Session) (v : list ascii) : Session :=
  {| Path := v; ConfigName := ConfigName s; Created := Created s;
     Owner := Owner s; Status := Status s; Device := Device s;
     ConnectedTo := ConnectedTo s |}.
Definition setConfigName (s : Session) (v : list ascii) : Session :=
  {| Path := Path s; ConfigName := v; Created := Created s;
     Owner := Owner s; Status := Status s; Device := Device s;
     ConnectedTo := ConnectedTo s |}.
Definition setCreated (s : Session) (v : list ascii) : Session :=
  {| Path := Path s; ConfigName := ConfigName s; Created := v;
     Owner := Owner s; Status := Status s; Device := Device s;
     ConnectedTo := ConnectedTo s |}.
Definition setOwner (s : Session) (v : list ascii) : Session :=
  {| Path := Path s; ConfigName := ConfigName s; Created := Created s;
     Owner := v; Status := Status s; Device := Device s;
     ConnectedTo := ConnectedTo s |}.
Definition setStatus (s : Session) (v : list ascii) : Session :=
  {| Path := Path s; ConfigName := ConfigName s; Created := Created s;
     Owner := Owner s; Status := v; Device := Device s;
     ConnectedTo := ConnectedTo s |}.
Definition setDevice (s : Session) (v : list ascii) : Session :=
  {| Path := Path s; ConfigName := ConfigName s; Created := Created s;
     Owner := Owner s; Status := Status s; Device := v;
     ConnectedTo := ConnectedTo s |}.
Definition setConnectedTo (s : Session) (v : list ascii) : Session :=
  {| Path := Path s; ConfigName := ConfigName s; Created := Created s;
     Owner := Owner s; Status := Status s; Device := Device s;
     ConnectedTo := v |}.

(** One field of the [else if current != nil] branch: when the line holds
    [key], the field is set from the value extracted for it. *)
Definition field (line key : list ascii)
    (set : Session -> list ascii -> Session)
    (post : list ascii -> list ascii) (cur : Session) : Session :=
  if strings.Contains line key then set cur (post (extractValue line key))
  else cur.

(** The body of the scanning loop, on the state [(sessions, current)]. *)
Definition parseLine (st : list Session * option Session) (line : list ascii)
  : list Session * option Session :=
  let '(sessions, current) := st in
  if strings.HasPrefix (strings.TrimSpace line) (go "---") then st
  else if strings.Contains line (go "Path:") then
    let sessions :=
      match current with
      | Some cur => sessions ++ [cur]
      | None => sessions
      end in
    (sessions, Some (setPath emptySession (extractValue line (go "Path:"))))
  else
    match current with
    | Some cur =>
        let cur := field line (go "Created:") setCreated id cur in
        let cur := field line (go "Owner:") setOwner id cur in
        let cur := field line (go "Device:") setDevice id cur in
        let cur := field line (go "Config name:") setConfigName cleanConfigName cur in
        let cur := field line (go "Connected to:") setConnectedTo id cur in
        let cur := field line (go "Status:") setStatus id cur in
        (sessions, Some cur)
    | None => st
    end.

(** [bufio.Scanner] with the default line splitter and buffer: the input is
    cut at each newline, one carriage return before it is dropped, a last
    line without newline counts when it is not empty, and the scan stops at
    a line that does not fit the 64 KiB buffer ([acc] is the line being
    read, reversed). *)
Definition maxLine : N := 65535%N.

Definition fits (acc : list ascii) : bool :=
  (N.of_nat (length acc) <=? maxLine)%N.

Definition dropCR (revLine : list ascii) : list ascii :=
  match revLine with
  | c :: r => if Ascii.eqb c "013" then rev r else rev revLine
  | [] => []
  end.

Fixpoint scanLines (acc : list ascii) (input : list ascii) : list (list ascii) :=
  match input with
  | [] => match acc with
          | [] => []
          | _ => if fits acc then [dropCR acc] else []
          end
  | c :: input' =>
      if Ascii.eqb c "010" then
        if fits acc then dropCR acc :: scanLines [] input'
        else []
      else scanLines (c :: acc) input'
  end.

Definition parseLines (lines : list (list ascii)) : list Session :=
  let '(sessions, current) := fold_left parseLine lines ([], None) in
  match current with
  | Some cur => sessions ++ [cur]
  | None => sessions
  end.

Definition parseSessionsList (output : list ascii) : list Session :=
  parseLines (scanLines [] output).

Definition KB : Z := 1024.
Definition MB : Z := KB * 1024.
Definition GB : Z := MB * 1024.

Definition formatBytes (bytesStr : list ascii) : list ascii :=
  let bytes := match fmt.SscanfInt64 bytesStr with
               | Some v => v
               | None => 0
               end in
  if GB <=? bytes then
    fmt.Sprintf_2f (fmt.div_pow2 (fmt.float64_of_int bytes) 30) ++ go " GB"
  else if MB <=? bytes then
    fmt.Sprintf_2f (fmt.div_pow2 (fmt.float64_of_int bytes) 20) ++ go " MB"
  else if KB <=? bytes then
    fmt.Sprintf_2f (fmt.div_pow2 (fmt.float64_of_int bytes) 10) ++ go " KB"
  else fmt.Sprintf_d bytes ++ go " B".

Definition emptyStats : SessionStats :=
  {| BytesIn := []; BytesOut := []; PacketsIn := []; PacketsOut := [];
     TunnelIP := []; TunnelIPv6 := []; Connected := [] |}.

Definition setBytesIn (s : SessionStats) (v : list ascii) : SessionStats :=
  {| BytesIn := v; BytesOut := BytesOut s; PacketsIn := PacketsIn s;
     PacketsOut := PacketsOut s; TunnelIP := TunnelIP s;
     TunnelIPv6 := TunnelIPv6 s; Connected := Connected s |}.
Definition setBytesOut (s : SessionStats) (v : list ascii) : SessionStats :=
  {| BytesIn := BytesIn s; BytesOut := v; PacketsIn := PacketsIn s;
     PacketsOut := PacketsOut s; TunnelIP := TunnelIP s;
     TunnelIPv6 := TunnelIPv6 s; Connected := Connected s |}.
Definition setPacketsIn (s : SessionStats) (v : list ascii) : SessionStats :=
  {| BytesIn := BytesIn s; BytesOut := BytesOut s; PacketsIn := v;
     PacketsOut := PacketsOut s; TunnelIP := TunnelIP s;
     TunnelIPv6 := TunnelIPv6 s; Connected := Connected s |}.
Definition setPacketsOut (s : SessionStats) (v : list ascii) : SessionStats :=
  {| BytesIn := BytesIn s; BytesOut := BytesOut s; PacketsIn := PacketsIn s;
     PacketsOut := v; TunnelIP := TunnelIP s;
     TunnelIPv6 := TunnelIPv6 s; Connected := Connected s |}.
Definition setTunnelIP (s : SessionStats) (v : list ascii) : SessionStats :=
  {| BytesIn := BytesIn s; BytesOut := BytesOut s; PacketsIn := PacketsIn s;
     PacketsOut := PacketsOut s; TunnelIP := v;
     TunnelIPv6 := TunnelIPv6 s; Connected := Connected s |}.
Definition setTunnelIPv6 (s : SessionStats) (v : list ascii) : SessionStats :=
  {| BytesIn := BytesIn s; BytesOut := BytesOut s; PacketsIn := PacketsIn s;
     PacketsOut := PacketsOut s; TunnelIP := TunnelIP s;
     TunnelIPv6 := v; Connected := Connected s |}.

(** The body of the scanning loop of [parseSessionStats]: the dots of the
    trimmed line become spaces, the first field is the key and the last
    one the value. *)
Definition statsLine (stats : SessionStats) (text : list ascii) : SessionStats :=
  let line := strings.TrimSpace text in
  let line := strings.ReplaceAllByte line "." " " in
  let fields := strings.Fields line in
  if (length fields <? 2)%nat then stats
  else
    match fields with
    | key :: _ =>
        let value := List.last fields [] in
        if bool_decide (key = go "BYTES_IN") then
          setBytesIn stats (formatBytes value)
        else if bool_decide (key = go "BYTES_OUT") then
          setBytesOut stats (formatBytes value)
        else if bool_decide (key = go "PACKETS_IN") then
          setPacketsIn stats value
        else if bool_decide (key = go "PACKETS_OUT") then
          setPacketsOut stats value
        else if bool_decide (key = go "TUN_BYTES_IN") then
          setTunnelIP stats (formatBytes value ++ go " (TUN in)")
        else if bool_decide (key = go "TUN_BYTES_OUT") then
          setTunnelIPv6 stats (formatBytes value ++ go " (TUN out)")
        else stats
    | [] => stats
    end.

Definition parseSessionStats (output : list ascii) : SessionStats :=
  fold_left statsLine (scanLines [] output) emptyStats.

End openvpn.

(** ** internal/config: the profile store *)
Module config.

Record Profile := { Name : list ascii; Path : list ascii }.

Record Config := { Profiles : list Profile }.

Definition AddProfile (c : Config) (name path : list ascii) : Config :=
  {| Profiles := Profiles c ++ [ {| Name := name; Path := path |} ] |}.

(** [c.Profiles = append(c.Profiles[:index], c.Profiles[index+1:]...)]
    under the bounds guard. *)
Definition RemoveProfile (c : Config) (index : Z) : Config :=
  if (0 <=? index) && (index <? Z.of_nat (length (Profiles c))) then
    {| Profiles := take (Z.to_nat index) (Profiles c)
                   ++ drop (Z.to_nat (index + 1)) (Profiles c) |}
  else c.

(** The loop of [ValidateProfiles] from index [i] on; [stat p] tells
    whether [os.Stat(p)] succeeds. *)
Fixpoint validateFrom (stat : list ascii -> bool) (i : Z) (ps : list Profile)
    (valid : gmap Z bool) : gmap Z bool :=
  match ps with
  | [] => valid
  | p :: ps' => validateFrom stat (i + 1) ps' (<[i := stat (Path p)]> valid)
  end.

Definition ValidateProfiles (stat : list ascii -> bool) (c : Config)
  : gmap Z bool :=
  validateFrom stat 0 (Profiles c) ∅.

End config.

(** ** internal/ui: the interactive state machine *)
Module ui.

Inductive View := ViewProfiles | ViewSessions.

Inductive InputMode := InputNone | InputProfilePath | InputProfileName.

#[global] Instance InputMode_eq_dec : EqDecision InputMode.
Proof. solve_decision. Defined.

(** completer.go: the suggestion list and the selection. *)
Record PathCompleter := {
  suggestions : list (list ascii);
  selectedIndex : Z;
  maxSuggestions : Z
}.

(** The text-input widget of the UI library, as far as the program reads
    and writes it. *)
Record TextInput := {
  Value : list ascii;
  Placeholder : list ascii;
  CharLimit : Z;
  Width : Z;
  Focused : bool
}.

(** The spinner and the styles are values of the UI library that only the
    renderer reads; they are left out of the state. *)
Record Model := {
  config : config.Config;
  sessions : list openvpn.Session;
  currentView : View;
  profileCursor : Z;
  sessionCursor : Z;
  profileValid : gmap Z bool;
  selectedStats : option openvpn.SessionStats;
  loading : bool;
  loadingMsg : list ascii;
  inputMode : InputMode;
  textInput : TextInput;
  newProfile : config.Profile;
  completer : PathCompleter;
  statusMsg : list ascii;
  errorMsg : list ascii;
  width : Z;
  height : Z
}.


Definition set_config (m : Model) (v : config.Config) : Model :=
  {| config := v; sessions := sessions m; currentView := currentView m;
     profileCursor := profileCursor m; sessionCursor := sessionCursor m;
     profileValid := profileValid m; selectedStats := selectedStats m;
     loading := loading m; loadingMsg := loadingMsg m;
     inputMode := inputMode m; textInput := textInput m;
     newProfile := newProfile m; completer := completer m;
     statusMsg := statusMsg m; errorMsg := errorMsg m; width := width m;
     height := height m |}.

Definition set_sessions (m : Model) (v : list openvpn.Session) : Model :=
  {| config := config m; sessions := v; currentView := currentView m;
     profileCursor := profileCursor m; sessionCursor := sessionCursor m;
     profileValid := profileValid m; selectedStats := selectedStats m;
     loading := loading m; loadingMsg := loadingMsg m;
     inputMode := inputMode m; textInput := textInput m;
     newProfile := newProfile m; completer := completer m;
     statusMsg := statusMsg m; errorMsg := errorMsg m; width := width m;
     height := height m |}.

Definition set_currentView (m : Model) (v : View) : Model :=
  {| config := config m; sessions := sessions m; currentView := v;
     profileCursor := profileCursor m; sessionCursor := sessionCursor m;
     profileValid := profileValid m; selectedStats := selectedStats m;
     loading := loading m; loadingMsg := loadingMsg m;
     inputMode := inputMode m; textInput := textInput m;
     newProfile := newProfile m; completer := completer m;
     statusMsg := statusMsg m; errorMsg := errorMsg m; width := width m;
     height := height m |}.

Definition set_profileCursor (m : Model) (v : Z) : Model :=
  {| config := config m; sessions := sessions m;
     currentView := currentView m; profileCursor := v;
     sessionCursor := sessionCursor m; profileValid := profileValid m;
     selectedStats := selectedStats m; loading := loading m;
     loadingMsg := loadingMsg m; inputMode := inputMode m;
     textInput := textInput m; newProfile := newProfile m;
     completer := completer m; statusMsg := statusMsg m;
     errorMsg := errorMsg m; width := width m; height := height m |}.

Definition set_sessionCursor (m : Model) (v : Z) : Model :=
  {| config := config m; sessions := sessions m;
     currentView := currentView m; profileCursor := profileCursor m;
     sessionCursor := v; profileValid := profileValid m;
     selectedStats := selectedStats m; loading := loading m;
     loadingMsg := loadingMsg m; inputMode := inputMode m;
     textInput := textInput m; newProfile := newProfile m;
     completer := completer m; statusMsg := statusMsg m;
     errorMsg := errorMsg m; width := width m; height := height m |}.

Definition set_profileValid (m : Model) (v : gmap Z bool) : Model :=
  {| config := config m; sessions := sessions m;
     currentView := currentView m; profileCursor := profileCursor m;
     sessionCursor := sessionCursor m; profileValid := v;
     selectedStats := selectedStats m; loading := loading m;
     loadingMsg := loadingMsg m; inputMode := inputMode m;
     textInput := textInput m; newProfile := newProfile m;
     completer := completer m; statusMsg := statusMsg m;
     errorMsg := errorMsg m; width := width m; height := height m |}.

Definition set_selectedStats (m : Model) (v : option openvpn.SessionStats) : Model :=
  {| config := config m; sessions := sessions m;
     currentView := currentView m; profileCursor := profileCursor m;
     sessionCursor := sessionCursor m; profileValid := profileValid m;
     selectedStats := v; loading := loading m; loadingMsg := loadingMsg m;
     inputMode := inputMode m; textInput := textInput m;
     newProfile := newProfile m; completer := completer m;
     statusMsg := statusMsg m; errorMsg := errorMsg m; width := width m;
     height := height m |}.

Definition set_loading (m : Model) (v : bool) : Model :=
  {| config := config m; sessions := sessions m;
     currentView := currentView m; profileCursor := profileCursor m;
     sessionCursor := sessionCursor m; profileValid := profileValid m;
     selectedStats := selectedStats m; loading := v;
     loadingMsg := loadingMsg m; inputMode := inputMode m;
     textInput := textInput m; newProfile := newProfile m;
     completer := completer m; statusMsg := statusMsg m;
     errorMsg := errorMsg m; width := width m; height := height m |}.

Definition set_loadingMsg (m : Model) (v : list ascii) : Model :=
  {| config := config m; sessions := sessions m;
     currentView := currentView m; profileCursor := profileCursor m;
     sessionCursor := sessionCursor m; profileValid := profileValid m;
     selectedStats := selectedStats m; loading := loading m;
     loadingMsg := v; inputMode := inputMode m; textInput := textInput m;
     newProfile := newProfile m; completer := completer m;
     statusMsg := statusMsg m; errorMsg := errorMsg m; width := width m;
     height := height m |}.

Definition set_inputMode (m : Model) (v : InputMode) : Model :=
  {| config := config m; sessions := sessions m;
     currentView := currentView m; profileCursor := profileCursor m;
     sessionCursor := sessionCursor m; profileValid := profileValid m;
     selectedStats := selectedStats m; loading := loading m;
     loadingMsg := loadingMsg m; inputMode := v; textInput := textInput m;
     newProfile := newProfile m; completer := completer m;
     statusMsg := statusMsg m; errorMsg := errorMsg m; width := width m;
     height := height m |}.

Definition set_textInput (m : Model) (v : TextInput) : Model :=
  {| config := config m; sessions := sessions m;
     currentView := currentView m; profileCursor := profileCursor m;
     sessionCursor := sessionCursor m; profileValid := profileValid m;
     selectedStats := selectedStats m; loading := loading m;
     loadingMsg := loadingMsg m; inputMode := inputMode m; textInput := v;
     newProfile := newProfile m; completer := completer m;
     statusMsg := statusMsg m; errorMsg := errorMsg m; width := width m;
     height := height m |}.

Definition set_newProfile (m : Model) (v : config.Profile) : Model :=
  {| config := config m; sessions := sessions m;
     currentView := currentView m; profileCursor := profileCursor m;
     sessionCursor := sessionCursor m; profileValid := profileValid m;
     selectedStats := selectedStats m; loading := loading m;
     loadingMsg := loadingMsg m; inputMode := inputMode m;
     textInput := textInput m; newProfile := v; completer := completer m;
     statusMsg := statusMsg m; errorMsg := errorMsg m; width := width m;
     height := height m |}.

Definition set_completer (m : Model) (v : PathCompleter) : Model :=
  {| config := config m; sessions := sessions m;
     currentView := currentView m; profileCursor := profileCursor m;
     sessionCursor := sessionCursor m; profileValid := profileValid m;
     selectedStats := selectedStats m; loading := loading m;
     loadingMsg := loadingMsg m; inputMode := inputMode m;
     textInput := textInput m; newProfile := newProfile m; completer := v;
     statusMsg := statusMsg m; errorMsg := errorMsg m; width := width m;
     height := height m |}.

Definition set_statusMsg (m : Model) (v : list ascii) : Model :=
  {| config := config m; sessions := sessions m;
     currentView := currentView m; profileCursor := profileCursor m;
     sessionCursor := sessionCursor m; profileValid := profileValid m;
     selectedStats := selectedStats m; loading := loading m;
     loadingMsg := loadingMsg m; inputMode := inputMode m;
     textInput := textInput m; newProfile := newProfile m;
     completer := completer m; statusMsg := v; errorMsg := errorMsg m;
     width := width m; height := height m |}.

Definition set_errorMsg (m : Model) (v : list ascii) : Model :=
  {| config := config m; sessions := sessions m;
     currentView := currentView m; profileCursor := profileCursor m;
     sessionCursor := sessionCursor m; profileValid := profileValid m;
     selectedStats := selectedStats m; loading := loading m;
     loadingMsg := loadingMsg m; inputMode := inputMode m;
     textInput := textInput m; newProfile := newProfile m;
     completer := completer m; statusMsg := statusMsg m; errorMsg := v;
     width := width m; height := height m |}.

Definition set_width (m : Model) (v : Z) : Model :=
  {| config := config m; sessions := sessions m;
     currentView := currentView m; profileCursor := profileCursor m;
     sessionCursor := sessionCursor m; profileValid := profileValid m;
     selectedStats := selectedStats m; loading := loading m;
     loadingMsg := loadingMsg m; inputMode := inputMode m;
     textInput := textInput m; newProfile := newProfile m;
     completer := completer m; statusMsg := statusMsg m;
     errorMsg := errorMsg m; width := v; height := height m |}.

Definition set_height (m : Model) (v : Z) : Model :=
  {| config := config m; sessions := sessions m;
     currentView := currentView m; profileCursor := profileCursor m;
     sessionCursor := sessionCursor m; profileValid := profileValid m;
     selectedStats := selectedStats m; loading := loading m;
     loadingMsg := loadingMsg m; inputMode := inputMode m;
     textInput := textInput m; newProfile := newProfile m;
     completer := completer m; statusMsg := statusMsg m;
     errorMsg := errorMsg m; width := width m; height := v |}.

(** A Go [error]: [None] is [nil], [Some e] an error whose text is [e]. *)
Definition error := option (list ascii).

(** The messages [Update] receives. *)
Inductive Msg :=
| SpinnerTickMsg
| KeyMsg (key : list ascii)
| WindowSizeMsg (Width Height : Z)
| sessionRefreshMsg (sessions : list openvpn.Session) (err : error)
| statsRefreshMsg (stats : option openvpn.SessionStats) (err : error)
| connectMsg (err : error)
| disconnectMsg (err : error)
| ThemeChangedMsg
| OtherMsg.

(** The commands [Update] hands back to the runtime; a batch is a list,
    [nil] the empty list. *)
Inductive Cmd :=
| Quit
| SpinnerTick
| SpinnerNext
| Blink
| TextInputCmd
| refreshSessions
| fetchStats (path : list ascii)
| connect (configPath : list ascii)
| disconnect (sessionPath : list ascii)
| WatchTheme.

(** What one step reads from outside the state: the result of writing the
    config file, which files exist, the home directory, the directory
    listing behind the completer, and the text widget's own code. *)
Record World := {
  Save : config.Config -> error;
  Stat : list ascii -> bool;
  UserHomeDir : option (list ascii);
  getSuggestions : list ascii -> list (list ascii);
  SetValue : TextInput -> list ascii -> TextInput;
  textInputUpdate : TextInput -> list ascii -> TextInput
}.

(** Indexing a slice with an [int]: [None] is the run-time panic. *)
Definition at_index {A} (l : list A) (i : Z) : option A :=
  if i <? 0 then None else l !! Z.to_nat i.

Definition len {A} (l : list A) : Z := Z.of_nat (length l).

(** Reading [map[int]bool]: a missing key reads as [false]. *)
Definition valid_at (valid : gmap Z bool) (i : Z) : bool :=
  default false (valid !! i).

Definition clearMessages (m : Model) : Model :=
  set_errorMsg (set_statusMsg m []) [].

Definition moveCursorUp (m : Model) : Model :=
  let m :=
    match currentView m with
    | ViewProfiles =>
        if 0 <? profileCursor m
        then set_profileCursor m (profileCursor m - 1) else m
    | ViewSessions =>
        if 0 <? sessionCursor m
        then set_sessionCursor m (sessionCursor m - 1) else m
    end in
  set_selectedStats m None.

Definition moveCursorDown (m : Model) : Model :=
  let m :=
    match currentView m with
    | ViewProfiles =>
        if profileCursor m <? len (config.Profiles (config m)) - 1
        then set_profileCursor m (profileCursor m + 1) else m
    | ViewSessions =>
        if sessionCursor m <? len (sessions m) - 1
        then set_sessionCursor m (sessionCursor m + 1) else m
    end in
  set_selectedStats m None.

Fixpoint anyConfigName (profileName : list ascii) (ss : list openvpn.Session)
  : bool :=
  match ss with
  | session :: ss' =>
      if bool_decide (openvpn.ConfigName session = profileName) then true
      else anyConfigName profileName ss'
  | [] => false
  end.

Definition isProfileConnected (m : Model) (profilePath : list ascii) : bool :=
  let profileName :=
    match strings.LastIndex profilePath (go "/") with
    | Some lastSlash => drop (lastSlash + 1) profilePath
    | None => profilePath
    end in
  let profileName := strings.TrimSuffix profileName (go ".ovpn") in
  anyConfigName profileName (sessions m).

Definition handleEnter (m : Model) : option (Model * list Cmd) :=
  let m := clearMessages m in
  match currentView m with
  | ViewProfiles =>
      if len (config.Profiles (config m)) =? 0 then Some (m, [])
      else if negb (valid_at (profileValid m) (profileCursor m)) then
        Some (set_errorMsg m (go "Config file not found"), [])
      else
        profile ← at_index (config.Profiles (config m)) (profileCursor m);
        if isProfileConnected m (config.Path profile) then
          Some (set_errorMsg m
                  (go "'" ++ config.Name profile ++ go "' is already connected"),
                [])
        else
          let m := set_statusMsg m
                     (go "Connecting to " ++ config.Name profile ++ go "...") in
          let m := set_loading m true in
          let m := set_loadingMsg m (go "Connecting...") in
          Some (m, [SpinnerTick; connect (config.Path profile)])
  | ViewSessions =>
      if 0 <? len (sessions m) then
        session ← at_index (sessions m) (sessionCursor m);
        let m := set_loading m true in
        let m := set_loadingMsg m (go "Fetching stats...") in
        Some (m, [SpinnerTick; fetchStats (openvpn.Path session)])
      else Some (m, [])
  end.

Definition handleDelete (w : World) (m : Model) : option (Model * list Cmd) :=
  let m := clearMessages m in
  match currentView m with
  | ViewProfiles =>
      if 0 <? len (config.Profiles (config m)) then
        profile ← at_index (config.Profiles (config m)) (profileCursor m);
        let name := config.Name profile in
        let m := set_config m (config.RemoveProfile (config m) (profileCursor m)) in
        let m :=
          match Save w (config m) with
          | Some err => set_errorMsg m (go "Failed to save config: " ++ err)
          | None => set_statusMsg m (go "Removed profile: " ++ name)
          end in
        let m := set_profileValid m (config.ValidateProfiles (Stat w) (config m)) in
        let m :=
          if len (config.Profiles (config m)) <=? profileCursor m
          then set_profileCursor m
                 (Z.max 0 (len (config.Profiles (config m)) - 1))
          else m in
        Some (m, [])
      else Some (m, [])
  | ViewSessions =>
      if 0 <? len (sessions m) then
        session ← at_index (sessions m) (sessionCursor m);
        let m := set_statusMsg m (go "Disconnecting...") in
        Some (m, [disconnect (openvpn.Path session)])
      else Some (m, [])
  end.

Definition startAddProfile (w : World) (m : Model) : Model * list Cmd :=
  let m := set_inputMode m InputProfilePath in
  let ti := SetValue w (textInput m) [] in
  let ti := {| Value := Value ti; Placeholder := go "Enter path to .ovpn file";
               CharLimit := CharLimit ti; Width := Width ti; Focused := true |} in
  let m := set_textInput m ti in
  let m := clearMessages m in
  (m, [Blink]).

(** *** completer.go, the selection part *)
Definition completer_Update (w : World) (c : PathCompleter) (input : list ascii)
  : PathCompleter :=
  {| suggestions := getSuggestions w input; selectedIndex := -1;
     maxSuggestions := maxSuggestions c |}.

Definition HasSuggestions (c : PathCompleter) : bool :=
  0 <? len (suggestions c).

Definition SelectNext (c : PathCompleter) : PathCompleter :=
  if len (suggestions c) =? 0 then c
  else
    let i := selectedIndex c + 1 in
    {| suggestions := suggestions c;
       selectedIndex := if len (suggestions c) <=? i then 0 else i;
       maxSuggestions := maxSuggestions c |}.

Definition SelectPrev (c : PathCompleter) : PathCompleter :=
  if len (suggestions c) =? 0 then c
  else
    let i := selectedIndex c - 1 in
    {| suggestions := suggestions c;
       selectedIndex := if i <? 0 then len (suggestions c) - 1 else i;
       maxSuggestions := maxSuggestions c |}.

Definition GetSelected (c : PathCompleter) : list ascii :=
  if (0 <=? selectedIndex c) && (selectedIndex c <? len (suggestions c))
  then default [] (at_index (suggestions c) (selectedIndex c))
  else [].

Definition Clear (c : PathCompleter) : PathCompleter :=
  {| suggestions := []; selectedIndex := -1;
     maxSuggestions := maxSuggestions c |}.

Definition NewPathCompleter : PathCompleter :=
  {| suggestions := []; selectedIndex := -1; maxSuggestions := 5 |}.

Definition key_is (key : list ascii) (name : string) : bool :=
  bool_decide (key = go name).

Definition emptyProfile : config.Profile :=
  {| config.Name := []; config.Path := [] |}.

Definition setPlaceholder (ti : TextInput) (p : list ascii) : TextInput :=
  {| Value := Value ti; Placeholder := p; CharLimit := CharLimit ti;
     Width := Width ti; Focused := Focused ti |}.

(** The tab and shift+tab cases of [handleInputMode], [sel] being
    [SelectNext] or [SelectPrev]. *)
Definition complete (w : World) (sel : PathCompleter -> PathCompleter)
    (m : Model) : Model :=
  if bool_decide (inputMode m = InputProfilePath) && HasSuggestions (completer m)
  then
    let m := set_completer m (sel (completer m)) in
    let selected := GetSelected (completer m) in
    if bool_decide (selected = []) then m
    else
      let m := set_textInput m (SetValue w (textInput m) selected) in
      set_completer m (completer_Update w (completer m) selected)
  else m.

(** The code after the switch of [handleInputMode]: the key goes to the
    text widget. *)
Definition typeKey (w : World) (m : Model) (key : list ascii)
  : Model * list Cmd :=
  let m := set_textInput m (textInputUpdate w (textInput m) key) in
  let m :=
    if bool_decide (inputMode m = InputProfilePath)
    then set_completer m (completer_Update w (completer m) (Value (textInput m)))
    else m in
  (m, [TextInputCmd]).

Definition handleInputMode (w : World) (m : Model) (key : list ascii)
  : Model * list Cmd :=
  if key_is key "esc" then
    let m := set_inputMode m InputNone in
    let m := set_newProfile m emptyProfile in
    (set_completer m (Clear (completer m)), [])
  else if key_is key "tab" then (complete w SelectNext m, [])
  else if key_is key "shift+tab" then (complete w SelectPrev m, [])
  else if key_is key "enter" then
    let value := strings.TrimSpace (Value (textInput m)) in
    if bool_decide (value = []) then (m, [])
    else
      match inputMode m with
      | InputProfilePath =>
          let expandedPath :=
            if strings.HasPrefix value (go "~") then
              match UserHomeDir w with
              | Some home => home ++ drop 1 value
              | None => value
              end
            else value in
          let m := set_newProfile m
                     {| config.Name := config.Name (newProfile m);
                        config.Path := expandedPath |} in
          let m := set_inputMode m InputProfileName in
          let m := set_textInput m
                     (setPlaceholder (SetValue w (textInput m) [])
                        (go "Enter a friendly name")) in
          (set_completer m (Clear (completer m)), [])
      | InputProfileName =>
          let m := set_newProfile m
                     {| config.Name := value;
                        config.Path := config.Path (newProfile m) |} in
          let m := set_config m
                     (config.AddProfile (config m) (config.Name (newProfile m))
                        (config.Path (newProfile m))) in
          let m :=
            match Save w (config m) with
            | Some err => set_errorMsg m (go "Failed to save config: " ++ err)
            | None =>
                set_statusMsg m
                  (go "Added profile: " ++ config.Name (newProfile m))
            end in
          let m := set_profileValid m
                     (config.ValidateProfiles (Stat w) (config m)) in
          let m := set_inputMode m InputNone in
          let m := set_newProfile m emptyProfile in
          (set_completer m (Clear (completer m)), [])
      | InputNone => typeKey w m key
      end
  else typeKey w m key.

(** [fmt.Sprintf] of a prefix and an error with [%v]. *)
Definition failed (what : string) (err : list ascii) : list ascii :=
  go what ++ err.

Definition Update (w : World) (m : Model) (msg : Msg)
  : option (Model * list Cmd) :=
  match msg with
  | SpinnerTickMsg => Some (m, [SpinnerNext])
  | KeyMsg key =>
      if negb (bool_decide (inputMode m = InputNone)) then
        Some (handleInputMode w m key)
      else if key_is key "q" || key_is key "ctrl+c" then Some (m, [Quit])
      else if key_is key "tab" then
        let m :=
          match currentView m with
          | ViewProfiles => set_currentView m ViewSessions
          | ViewSessions => set_currentView m ViewProfiles
          end in
        Some (clearMessages m, [])
      else if key_is key "up" || key_is key "k" then Some (moveCursorUp m, [])
      else if key_is key "down" || key_is key "j" then Some (moveCursorDown m, [])
      else if key_is key "enter" then handleEnter m
      else if key_is key "a" then
        match currentView m with
        | ViewProfiles => Some (startAddProfile w m)
        | ViewSessions => Some (m, [])
        end
      else if key_is key "d" || key_is key "delete" then handleDelete w m
      else if key_is key "r" then
        let m := clearMessages m in
        let m := set_loading m true in
        let m := set_loadingMsg m (go "Refreshing sessions...") in
        Some (m, [SpinnerTick; refreshSessions])
      else if key_is key "s" then
        match currentView m with
        | ViewSessions =>
            if 0 <? len (sessions m) then
              session ← at_index (sessions m) (sessionCursor m);
              let m := set_loading m true in
              let m := set_loadingMsg m (go "Fetching stats...") in
              Some (m, [SpinnerTick; fetchStats (openvpn.Path session)])
            else Some (m, [])
        | ViewProfiles => Some (m, [])
        end
      else Some (m, [])
  | WindowSizeMsg Width Height =>
      Some (set_height (set_width m Width) Height, [])
  | sessionRefreshMsg msg_sessions err =>
      let m := set_loading m false in
      match err with
      | Some e =>
          Some (set_errorMsg m (failed "Failed to fetch sessions: " e), [])
      | None =>
          let m := set_sessions m msg_sessions in
          let m :=
            if len (sessions m) <=? sessionCursor m
            then set_sessionCursor m (Z.max 0 (len (sessions m) - 1))
            else m in
          Some (m, [])
      end
  | statsRefreshMsg stats err =>
      let m := set_loading m false in
      match err with
      | Some e => Some (set_errorMsg m (failed "Failed to fetch stats: " e), [])
      | None => Some (set_selectedStats m stats, [])
      end
  | connectMsg err =>
      let m := set_loading m false in
      match err with
      | Some e => Some (set_errorMsg m (failed "Connection failed: " e), [])
      | None =>
          let m := set_statusMsg m (go "Connected successfully!") in
          let m := set_loading m true in
          let m := set_loadingMsg m (go "Refreshing sessions...") in
          Some (m, [SpinnerTick; refreshSessions])
      end
  | disconnectMsg err =>
      let m := set_loading m false in
      match err with
      | Some e => Some (set_errorMsg m (failed "Disconnect failed: " e), [])
      | None =>
          let m := set_statusMsg m (go "Disconnected successfully!") in
          let m := set_selectedStats m None in
          let m := set_loading m true in
          let m := set_loadingMsg m (go "Refreshing sessions...") in
          Some (m, [SpinnerTick; refreshSessions])
      end
  | ThemeChangedMsg => Some (m, [WatchTheme])
  | OtherMsg => Some (m, [])
  end.

Definition NewModel (w : World) (cfg : config.Config) : Model :=
  {| config := cfg;
     sessions := [];
     currentView := ViewProfiles;
     profileCursor := 0;
     sessionCursor := 0;
     profileValid := config.ValidateProfiles (Stat w) cfg;
     selectedStats := None;
     loading := true;
     loadingMsg := go "Fetching sessions...";
     inputMode := InputNone;
     textInput := {| Value := [];
                     Placeholder := go "Enter path to .ovpn file (start with ~ or /)";
                     CharLimit := 256; Width := 60; Focused := false |};
     newProfile := emptyProfile;
     completer := NewPathCompleter;
     statusMsg := [];
     errorMsg := [];
     width := 0;
     height := 0 |}.

(** [Init]: the commands of the first batch. *)
Definition Init : list Cmd := [SpinnerTick; refreshSessions; WatchTheme].



(** Running the machine on a sequence of events, each with the outside
    world it meets; the scheduled commands are dropped. *)
Fixpoint run (m : Model) (events : list (World * Msg)) : option Model :=
  match events with
  | [] => Some m
  | (w, msg) :: events' =>
      '(m', _) ← Update w m msg;
      run m' events'
  end.

(** completer.go, [CompactPath]: the home directory at the front of a path
    is shown as [~]. *)
Definition CompactPath (w : World) (path : list ascii) : list ascii :=
  match UserHomeDir w with
  | None => path
  | Some home =>
      if strings.HasPrefix path home then go "~" ++ drop (length home) path
      else path
  end.

(** The text [renderStats] builds before the box style is put around it. *)
Definition renderStats_text (stats : openvpn.SessionStats) : list ascii :=
  go "Tunnel IP:   " ++ openvpn.TunnelIP stats ++ ["010"%char]
  ++ (if bool_decide (openvpn.TunnelIPv6 stats = []) then []
      else go "Tunnel IPv6: " ++ openvpn.TunnelIPv6 stats ++ ["010"%char])
  ++ go "Bytes In:    " ++ openvpn.BytesIn stats ++ ["010"%char]
  ++ go "Bytes Out:   " ++ openvpn.BytesOut stats ++ ["010"%char]
  ++ go "Packets In:  " ++ openvpn.PacketsIn stats ++ ["010"%char]
  ++ go "Packets Out: " ++ openvpn.PacketsOut stats ++ ["010"%char]
  ++ (if bool_decide (openvpn.Connected stats = []) then []
      else go "Connected:   " ++ openvpn.Connected stats).

(** *** The theme file *)

(** A [lipgloss.Color] is a string. *)
Record Theme := {
  Accent : list ascii;
  Foreground : list ascii;
  Background : list ascii;
  SelectionForeground : list ascii;
  SelectionBackground : list ascii;
  Success : list ascii;
  Warning : list ascii;
  Error : list ascii;
  Muted : list ascii
}.

Definition DefaultTheme : Theme :=
  {| Accent := go "#7C3AED";
     Foreground := go "#d8dee9";
     Background := go "#2e3440";
     SelectionForeground := go "#FFFFFF";
     SelectionBackground := go "#7C3AED";
     Success := go "#a3be8c";
     Warning := go "#ebcb8b";
     Error := go "#bf616a";
     Muted := go "#6B7280" |}.

(** One turn of the scanning loop of [loadThemeFromFile], up to the
    assignment: [None] where the loop continues with the next line, else
    the key and the value that are stored. *)
Definition themeSetting (text : list ascii) : option (list ascii * list ascii) :=
  let line := strings.TrimSpace text in
  if bool_decide (line = []) || strings.HasPrefix line (go "#") then None
  else
    match strings.SplitN2 line (go "=") with
    | [k; v] =>
        let key := strings.TrimSpace k in
        let value := strings.TrimSpace v in
        let value := strings.TrimByte value "034" in
        Some (key, value)
    | _ => None
    end.

Definition themeLine (colors : gmap (list ascii) (list ascii)) (text : list ascii)
  : gmap (list ascii) (list ascii) :=
  match themeSetting text with
  | Some (key, value) => <[key := value]> colors
  | None => colors
  end.

(** [if v, ok := colors[key]; ok { field = v }]. *)
Definition colorOr (colors : gmap (list ascii) (list ascii)) (key : string)
    (field : list ascii) : list ascii :=
  match colors !! go key with
  | Some v => v
  | None => field
  end.

(** [loadThemeFromFile], [file] being the content of the file at the path,
    [None] when it cannot be opened. *)
Definition loadThemeFromFile (file : option (list ascii)) : Theme :=
  match file with
  | None => DefaultTheme
  | Some content =>
      let theme := DefaultTheme in
      let colors := fold_left themeLine (openvpn.scanLines [] content) ∅ in
      {| Accent := colorOr colors "accent" (Accent theme);
         Foreground := colorOr colors "foreground" (Foreground theme);
         Background := colorOr colors "background" (Background theme);
         SelectionForeground :=
           colorOr colors "selection_foreground" (SelectionForeground theme);
         SelectionBackground :=
           colorOr colors "selection_background" (SelectionBackground theme);
         Success := colorOr colors "success" (Success theme);
         Warning := colorOr colors "warning" (Warning theme);
         Error := colorOr colors "error" (Error theme);
         Muted := colorOr colors "muted" (Muted theme) |}
  end.

(** *** The style of a session's status *)

(** The three styles [renderSessions] chooses from for the status text. *)
Inductive StatusStyle := StyleConnected | StylePaused | StyleDisconnected.

(** The switch of [renderSessions] (lines 640-647): which style renders
    [status]. *)
Definition statusStyle (status : list ascii) : option StatusStyle :=
  lower ← strings.ToLower status;
  Some (if strings.Contains lower (go "connected") then StyleConnected
        else if strings.Contains lower (go "paused") then StylePaused
        else StyleDisconnected).

End ui.

(** ** Vocabulary of the statements *)

(** A cursor is within a list of [n] entries, or [0] when the list is empty. *)
Definition in_range (cursor n : Z) : Prop :=
  0 <= cursor < n \/ (n = 0 /\ cursor = 0).

Definition cursors_ok (m : ui.Model) : Prop :=
  in_range (ui.profileCursor m) (ui.len (config.Profiles (ui.config m)))
  /\ in_range (ui.sessionCursor m) (ui.len (ui.sessions m)).





(** The final path segment of [path]: what follows the last "/", the
    whole path when it holds none. *)
Definition final_segment (path seg : list ascii) : Prop :=
  exists dir,
    path = dir ++ seg
    /\ ("/"%char ∉ seg)
    /\ (dir = [] \/ exists d, dir = d ++ go "/").

(** [name] is [seg] with a trailing [suf] removed. *)
Definition without_suffix (suf seg name : list ascii) : Prop :=
  seg = name ++ suf \/ (~ suf `suffix_of` seg /\ name = seg).

(** Some session's config name is the profile path reduced to its final
    segment, a trailing ".ovpn" removed. *)
Definition connected_match (ss : list openvpn.Session) (path : list ascii) : Prop :=
  exists session seg name,
    session ∈ ss
    /\ final_segment path seg
    /\ without_suffix (go ".ovpn") seg name
    /\ openvpn.ConfigName session = name.

(** The code's reduction of a path, named for the statements. *)
Definition after_last_slash (path : list ascii) : list ascii :=
  match strings.LastIndex path (go "/") with
  | Some lastSlash => drop (lastSlash + 1) path
  | None => path
  end.



(** The availability warning of the session listing. *)
Definition notAvailable : list ascii := go "(Config not available)".

(** [sub] occurs in [s] at index [i], and nowhere before. *)
Definition first_occurrence (sub s : list ascii) (i : nat) : Prop :=
  sub `prefix_of` drop i s
  /\ forall j, (j < i)%nat -> ~ sub `prefix_of` drop j s.

Definition occurs (sub s : list ascii) : Prop :=
  exists i, sub `prefix_of` drop i s.

(** The config name stored for the raw value [raw]: the raw value cut
    before the first availability warning and trimmed of surrounding space
    when the warning occurs, the raw value itself when it does not; then
    reduced to the segment after the last "/", a trailing ".ovpn" removed. *)
Definition stored_config_name (raw stored : list ascii) : Prop :=
  exists body seg,
    ((exists i, first_occurrence notAvailable raw i
                /\ body = strings.TrimSpace (take i raw))
     \/ (~ occurs notAvailable raw /\ body = raw))
    /\ final_segment body seg
    /\ without_suffix (go ".ovpn") seg stored.

(** The config name when only a trailing availability warning is stripped:
    the warning removed as a suffix, surrounding space trimmed, the segment
    after the last "/", a trailing ".ovpn" removed. *)
Definition suffix_stripped_config_name (raw : list ascii) : list ascii :=
  strings.TrimSuffix
    (after_last_slash (strings.TrimSpace (strings.TrimSuffix raw notAvailable)))
    (go ".ovpn").

Definition newline : list ascii := ["010"%char].

Definition stale_line : list ascii :=
  go "Config name: /etc/vpn/work.ovpn (Config not available) - stale".

(** A run of white space: space runes, one after the other. *)
Inductive space_run : list ascii -> Prop :=
| space_run_nil : space_run []
| space_run_cons (e ws : list ascii) :
    e ∈ strings.spaceEncodings -> space_run ws -> space_run (e ++ ws).

(** [s] begins, after optional white space, with a decimal integer: an
    optional sign and at least one digit. *)
Definition begins_with_integer (s : list ascii) : Prop :=
  exists ws sign ds rest,
    s = ws ++ sign ++ ds ++ rest
    /\ space_run ws
    /\ (sign = [] \/ sign = go "+" \/ sign = go "-")
    /\ ds <> []
    /\ Forall (fun c => fmt.isDigit c = true) ds.

(** The units of the formatter, smallest first. *)
Definition units : list (Z * list ascii) :=
  [ (1, go "B"); (1024, go "KB"); (1024 ^ 2, go "MB"); (1024 ^ 3, go "GB") ].

(** [unit] is the largest unit that does not exceed [n] (the byte for
    [n = 0]). *)
Definition largest_unit (n unit : Z) (name : list ascii) : Prop :=
  (unit, name) ∈ units
  /\ (unit <= n \/ unit = 1)
  /\ forall u nm, (u, nm) ∈ units -> u <= n -> u <= unit.

(** [c] hundredths written with two decimal places. *)
Definition two_places (c : Z) : list ascii :=
  fmt.Sprintf_d (c / 100)
  ++ go "." ++ fmt.Sprintf_d (c mod 100 / 10) ++ fmt.Sprintf_d (c mod 10).

(** [c] hundredths of [unit] is [n] bytes to the nearest hundredth; from
    [2 ^ 53] on the byte count itself is first rounded to a float64, which
    moves it by at most 512. *)
Definition nearest_hundredths (n unit c : Z) : Prop :=
  2 * Z.abs (100 * n - c * unit)
  <= unit + 200 * (if n <? 2 ^ 53 then 0 else 512).

(** [c] is the integer nearest to [num / den], the even one of the two
    when [num / den] lies half way between them. *)
Definition nearest_even (num den c : Z) : Prop :=
  2 * Z.abs (num - c * den) <= den
  /\ (2 * Z.abs (num - c * den) = den -> Z.even c = true).

(** [F] is the byte count [n] as a float64 holds it: [n] itself below
    [2 ^ 53]; from there on a float64 has 53 significant bits, so it is
    the multiple of [2 ^ (log2 n - 52)] nearest to [n], the even multiple
    on a tie. *)
Definition rounded_to_float64 (n F : Z) : Prop :=
  if n <? 2 ^ 53 then F = n
  else exists k,
      F = k * 2 ^ (Z.log2 n - 52)
      /\ nearest_even n (2 ^ (Z.log2 n - 52)) k.

(** A separator line of the session listing, and a line that opens a
    session block. *)
Definition isSeparator (line : list ascii) : bool :=
  strings.HasPrefix (strings.TrimSpace line) (go "---").

Definition startsSession (line : list ascii) : bool :=
  negb (isSeparator line) && strings.Contains line (go "Path:").

(** The sessions a state of the scanning loop stands for. *)
Definition collected (st : list openvpn.Session * option openvpn.Session)
  : list openvpn.Session :=
  st.1 ++ match st.2 with Some cur => [cur] | None => [] end.

(** The text whose lines are [ls], each ended by a newline. *)
Definition text_of (ls : list (list ascii)) : list ascii :=
  concat (map (fun l => l ++ newline) ls).

(** A line the scanner hands on: it holds no newline and, with at most
    65535 bytes, fits the scanner's buffer together with its newline. *)
Definition fits_scanner (l : list ascii) : Prop :=
  ("010"%char ∉ l) /\ (N.of_nat (length l) <= 65535)%N.

(** The line as the scanner hands it on: without one carriage return at
    its end. *)
Definition scanned (l : list ascii) : list ascii := openvpn.dropCR (rev l).

(** A byte of a statistics key or of a count: a digit, a capital letter or
    an underscore. *)
Definition wordByte (c : ascii) : bool :=
  fmt.isDigit c || openvpn.isUpper c || Ascii.eqb c "_".

(** A row of the statistics listing: indentation, the key, a run of dots,
    the value. *)
Definition stats_row (indent : nat) (key : string) (dots : nat)
    (value : list ascii) : list ascii :=
  replicate indent " "%char ++ go key ++ replicate dots "."%char ++ value.

(** A field that is empty or a formatted byte count followed by [tag]. *)
Definition tagged (tag : list ascii) (s : list ascii) : Prop :=
  s = [] \/ exists v, s = openvpn.formatBytes v ++ tag.

(** What [parseSessionStats] can have put into the statistics. *)
Definition stats_shape (s : openvpn.SessionStats) : Prop :=
  openvpn.Connected s = []
  /\ tagged (go " (TUN in)") (openvpn.TunnelIP s)
  /\ tagged (go " (TUN out)") (openvpn.TunnelIPv6 s)
  /\ tagged [] (openvpn.BytesIn s)
  /\ tagged [] (openvpn.BytesOut s).

(** The settings of a theme file, in the order of its lines, and the value
    the last one for [key] gives (or [field] when there is none). *)
Definition settings (content : list ascii) : list (list ascii * list ascii) :=
  omap ui.themeSetting (openvpn.scanLines [] content).

Definition last_setting (key : string) (field : list ascii)
    (ss : list (list ascii * list ascii)) : list ascii :=
  match last (filter (fun kv => kv.1 = go key) ss) with
  | Some kv => kv.2
  | None => field
  end.

(** A printable ASCII byte that is no space. *)
Definition graphicByte (c : ascii) : bool :=
  (33 <=? nat_of_ascii c)%nat && (nat_of_ascii c <=? 126)%nat.

(** The double quote. *)
Definition quote : ascii := "034"%char.

(** A line of the theme file that sets [key] to the quoted [value], with
    any amount of blanks around. *)
Definition theme_row (indent : nat) (key : list ascii) (a b : nat)
    (value : list ascii) (trail : nat) : list ascii :=
  replicate indent " "%char ++ key ++ replicate a " "%char ++ go "="
  ++ replicate b " "%char ++ quote :: value ++ [quote]
  ++ replicate trail " "%char.

(** Two states agree on everything but the add-profile dialogue (input
    mode, text widget, pending profile, completer) and the messages. *)
Definition same_data (m m' : ui.Model) : Prop :=
  ui.config m' = ui.config m
  /\ ui.profileValid m' = ui.profileValid m
  /\ ui.sessions m' = ui.sessions m
  /\ ui.currentView m' = ui.currentView m
  /\ ui.profileCursor m' = ui.profileCursor m
  /\ ui.sessionCursor m' = ui.sessionCursor m
  /\ ui.selectedStats m' = ui.selectedStats m
  /\ ui.loading m' = ui.loading m.

(** The key events of a typing sequence. *)
Definition keys (typed : list (ui.World * list ascii)) : list (ui.World * ui.Msg) :=
  map (fun e => (e.1, ui.KeyMsg e.2)) typed.

(** The completer of a world never offers the empty string. *)
Definition offers_paths (w : ui.World) : Prop :=
  forall input, [] ∉ ui.getSuggestions w input.

(** The validity map has an entry for exactly the indices of the profile list. *)
Definition covers_profiles (m : ui.Model) : Prop :=
  forall i : Z,
    is_Some (ui.profileValid m !! i)
    <-> 0 <= i < ui.len (config.Profiles (ui.config m)).

(** The error a task result carries, if any. *)
Definition task_error (msg : ui.Msg) : option (list ascii) :=
  match msg with
  | ui.sessionRefreshMsg _ err | ui.statsRefreshMsg _ err
  | ui.connectMsg err | ui.disconnectMsg err => err
  | _ => None
  end.

(** The cursor of the list on screen, and the length of that list. *)
Definition activeCursor (m : ui.Model) : Z :=
  match ui.currentView m with
  | ui.ViewProfiles => ui.profileCursor m
  | ui.ViewSessions => ui.sessionCursor m
  end.

Definition activeLen (m : ui.Model) : Z :=
  match ui.currentView m with
  | ui.ViewProfiles => ui.len (config.Profiles (ui.config m))
  | ui.ViewSessions => ui.len (ui.sessions m)
  end.

(** No suggestion is highlighted, and none is the empty string. *)
Definition completer_idle (c : ui.PathCompleter) : Prop :=
  ui.selectedIndex c = -1 /\ ([] ∉ ui.suggestions c).

(** ** Sample worlds and states *)

Definition plainSetValue (ti : ui.TextInput) (v : list ascii) : ui.TextInput :=
  {| ui.Value := v; ui.Placeholder := ui.Placeholder ti;
     ui.CharLimit := ui.CharLimit ti; ui.Width := ui.Width ti;
     ui.Focused := ui.Focused ti |}.

(** Typing a key appends it to the value. *)
Definition plainTyping (ti : ui.TextInput) (key : list ascii) : ui.TextInput :=
  plainSetValue ti (ui.Value ti ++ key).

(** Every file exists and every save succeeds. *)
Definition world_ok : ui.World :=
  {| ui.Save := fun _ => None;
     ui.Stat := fun _ => true;
     ui.UserHomeDir := Some (go "/home/u");
     ui.getSuggestions := fun _ => [];
     ui.SetValue := plainSetValue;
     ui.textInputUpdate := plainTyping |}.

(** No profile file exists. *)
Definition world_missing : ui.World :=
  {| ui.Save := fun _ => None;
     ui.Stat := fun _ => false;
     ui.UserHomeDir := Some (go "/home/u");
     ui.getSuggestions := fun _ => [];
     ui.SetValue := plainSetValue;
     ui.textInputUpdate := plainTyping |}.

Definition work_profile : config.Profile :=
  {| config.Name := go "Work"; config.Path := go "/home/u/Work.ovpn" |}.

Definition home_profile : config.Profile :=
  {| config.Name := go "Home"; config.Path := go "/home/u/Home.ovpn" |}.

Definition one_profile : config.Config := {| config.Profiles := [work_profile] |}.

Definition no_profiles : config.Config := {| config.Profiles := [] |}.

Definition work_session : openvpn.Session :=
  openvpn.setConfigName
    (openvpn.setPath openvpn.emptySession (go "/net/openvpn/v3/sessions/1"))
    (go "Work").

Definition home_session : openvpn.Session :=
  openvpn.setConfigName
    (openvpn.setPath openvpn.emptySession (go "/net/openvpn/v3/sessions/2"))
    (go "Home").

(** The state after two sessions were listed, the view switched to the
    sessions and the cursor moved down to the second one. *)
Definition two_sessions_cursor_last : ui.Model :=
  ui.set_selectedStats
    (ui.set_sessionCursor
       (ui.set_currentView
          (ui.set_sessions
             (ui.set_loading (ui.NewModel world_ok one_profile) false)
             [work_session; home_session])
          ui.ViewSessions)
       1)
    None.

(** The initial state with one profile, and the states of the add-profile
    flow reached from it: the path "~/vpn/work.ovpn" typed, then confirmed
    and the name "Office" typed. *)
Definition start_state : ui.Model := ui.NewModel world_ok one_profile.

Definition typing_path : ui.Model :=
  default start_state
    (ui.run start_state
       [ (world_ok, ui.KeyMsg (go "a"));
         (world_ok, ui.KeyMsg (go "~/vpn/work.ovpn")) ]).

Definition typing_name : ui.Model :=
  default start_state
    (ui.run typing_path
       [ (world_ok, ui.KeyMsg (go "enter"));
         (world_ok, ui.KeyMsg (go "Office")) ]).

(** A world in which writing the config file fails. *)
Definition world_readonly : ui.World :=
  {| ui.Save := fun _ => Some (go "permission denied");
     ui.Stat := fun _ => true;
     ui.UserHomeDir := Some (go "/home/u");
     ui.getSuggestions := fun _ => [];
     ui.SetValue := plainSetValue;
     ui.textInputUpdate := plainTyping |}.

Definition two_profiles : config.Config :=
  {| config.Profiles := [work_profile; home_profile] |}.

(** Two profiles, the cursor on the second one. *)
Definition two_profiles_cursor_last : ui.Model :=
  ui.set_profileCursor (ui.NewModel world_ok two_profiles) 1.

(** A world whose directory listing offers two completions of every input. *)
Definition world_listing : ui.World :=
  {| ui.Save := fun _ => None;
     ui.Stat := fun _ => true;
     ui.UserHomeDir := Some (go "/home/u");
     ui.getSuggestions := fun input => [input ++ go "vpn/"; input ++ go "work.ovpn"];
     ui.SetValue := plainSetValue;
     ui.textInputUpdate := plainTyping |}.

(** The state after moving down and deleting the only profile, the files
    being gone by then. *)
Definition after_delete : ui.Model :=
  default start_state
    (ui.run start_state
       [ (world_ok, ui.KeyMsg (go "j")); (world_missing, ui.KeyMsg (go "d")) ]).

(** The dialogue with "/etc/" typed where the directory has entries. *)
Definition typing_listed : ui.Model :=
  default start_state
    (ui.run start_state
       [ (world_ok, ui.KeyMsg (go "a")); (world_listing, ui.KeyMsg (go "/etc/")) ]).

(** A statistics listing as [openvpn3 session-stats] prints it. *)
Definition sample_stats : list ascii :=
  go "Connection statistics:" ++ newline
  ++ go "     BYTES_IN....................5942" ++ newline
  ++ go "     BYTES_OUT...................1971" ++ newline
  ++ go "     PACKETS_IN....................29" ++ newline
  ++ go "     PACKETS_OUT...................31" ++ newline
  ++ go "     TUN_BYTES_IN................2048" ++ newline.

(** A theme file: a comment, a quoted and an unquoted setting, a line
    without equals sign, a second setting of the first key. *)
Definition sample_theme : list ascii :=
  go "# colors" ++ newline
  ++ go "accent = " ++ [quote] ++ go "#ff0000" ++ [quote] ++ newline
  ++ go "  muted=#123456  " ++ newline
  ++ go "junk line" ++ newline
  ++ go "accent = #00ff00" ++ newline.

(** ** The embedding on concrete inputs *)

Definition sample_listing : list ascii :=
  go "-----------------------------------------------------------------------------"
  ++ newline
  ++ go "        Path: /net/openvpn/v3/sessions/1" ++ newline
  ++ go "     Created: 2024-01-01 10:00:00                       PID: 1234" ++ newline
  ++ go "       Owner: alice                                  Device: tun0" ++ newline
  ++ go " Config name: /home/u/Work.ovpn  (Config not available)" ++ newline
  ++ go "Connected to: udp:192.0.2.1:1194" ++ newline
  ++ go "      Status: Connection, Client connected" ++ newline
  ++ go "-----------------------------------------------------------------------------"
  ++ newline.

Example parseSessionsList_sample :
  openvpn.parseSessionsList sample_listing
  = [ {| openvpn.Path := go "/net/openvpn/v3/sessions/1";
         openvpn.ConfigName := go "Work";
         openvpn.Created := go "2024-01-01 10:00:00";
         openvpn.Owner := go "alice";
         openvpn.Status := go "Connection, Client connected";
         openvpn.Device := go "tun0";
         openvpn.ConnectedTo := go "udp:192.0.2.1:1194" |} ].
Proof. vm_compute. reflexivity. Qed.

Example TrimSpace_sample :
  strings.TrimSpace (go "  a b" ++ map ascii_of_nat [9; 194; 160; 13]%nat) = go "a b".
Proof. vm_compute. reflexivity. Qed.

Example formatBytes_samples :
  map openvpn.formatBytes
    [go "1536"; go "1152"; go "1030"; go "-5"; go "  +77abc"; go "x";
     newline ++ go "5"; go "9223372036854775807"]
  = [go "1.50 KB"; go "1.12 KB"; go "1.01 KB"; go "-5 B"; go "77 B"; go "0 B";
     go "0 B"; go "8589934592.00 GB"].
Proof. vm_compute. reflexivity. Qed.

Example isProfileConnected_sample :
  ui.isProfileConnected
    (ui.set_sessions (ui.NewModel world_ok one_profile)
       (openvpn.parseSessionsList sample_listing))
    (go "/home/u/Work.ovpn") = true.
Proof. vm_compute. reflexivity. Qed.

(** ** Facts about the string functions *)

Lemma HasPrefix_spec (s p : list ascii) :
  strings.HasPrefix s p = true <-> p `prefix_of` s.
Proof.
  revert s. induction p as [| c p IH]; intros s; cbn.
  - split; [intros _; apply prefix_nil | done].
  - destruct s as [| x s]; cbn.
    + split; [done | intros H; by apply prefix_nil_not in H].
    + rewrite andb_true_iff, Ascii.eqb_eq, IH. split.
      * intros [-> H]. by apply prefix_cons.
      * intros H. split.
        -- symmetry. by apply prefix_cons_inv_1 in H.
        -- by apply prefix_cons_inv_2 in H.
Qed.

Lemma HasPrefix_app (p t : list ascii) : strings.HasPrefix (p ++ t) p = true.
Proof. apply HasPrefix_spec. by apply prefix_app_r. Qed.

Lemma HasSuffix_spec (s suf : list ascii) :
  strings.HasSuffix s suf = true <-> suf `suffix_of` s.
Proof.
  unfold strings.HasSuffix. rewrite andb_true_iff, Nat.leb_le, HasPrefix_spec.
  split.
  - intros [Hlen [k Hk]].
    assert (k = []) as ->.
    { apply (f_equal length) in Hk. rewrite length_drop, length_app in Hk.
      destruct k; [done | cbn in Hk; lia]. }
    rewrite app_nil_r in Hk. rewrite <- Hk. apply suffix_drop.
  - intros [k ->]. rewrite length_app. split; [lia |].
    replace (length k + length suf - length suf)%nat with (length k) by lia.
    rewrite drop_app_length. done.
Qed.

Lemma TrimSuffix_app (r suf : list ascii) : strings.TrimSuffix (r ++ suf) suf = r.
Proof.
  unfold strings.TrimSuffix.
  rewrite (proj2 (HasSuffix_spec (r ++ suf) suf)) by (by exists r).
  rewrite length_app.
  replace (length r + length suf - length suf)%nat with (length r) by lia.
  by rewrite take_app_length.
Qed.

Lemma TrimSuffix_none (s suf : list ascii) :
  ~ suf `suffix_of` s -> strings.TrimSuffix s suf = s.
Proof.
  intros H. unfold strings.TrimSuffix.
  destruct (strings.HasSuffix s suf) eqn:E; [| done].
  by apply HasSuffix_spec in E.
Qed.

Lemma TrimSuffix_without (suf seg : list ascii) :
  without_suffix suf seg (strings.TrimSuffix seg suf).
Proof.
  unfold without_suffix.
  destruct (strings.HasSuffix seg suf) eqn:E.
  - apply HasSuffix_spec in E. destruct E as [k ->]. left. by rewrite TrimSuffix_app.
  - right. assert (~ suf `suffix_of` seg) as Hn.
    { intros H. apply HasSuffix_spec in H. congruence. }
    split; [done | by apply TrimSuffix_none].
Qed.

Lemma without_suffix_unique (suf seg n1 n2 : list ascii) :
  without_suffix suf seg n1 -> without_suffix suf seg n2 -> n1 = n2.
Proof.
  intros [E1 | [N1 ->]] [E2 | [N2 ->]]; try done.
  - subst seg. by apply app_inv_tail in E2.
  - exfalso. apply N2. by exists n1.
  - exfalso. apply N1. by exists n2.
Qed.

(** The last occurrence of one byte. *)
Lemma LastIndex_byte (s : list ascii) (c : ascii) :
  match strings.LastIndex s [c] with
  | Some i => exists pre post, s = pre ++ c :: post /\ length pre = i /\ c ∉ post
  | None => c ∉ s
  end.
Proof.
  induction s as [| x s IH]; cbn.
  - apply not_elem_of_nil.
  - destruct (strings.LastIndex s [c]) as [i |].
    + destruct IH as (pre & post & -> & <- & Hpost).
      by exists (x :: pre), post.
    + destruct (Ascii.eqb_spec x c) as [-> | Hne]; cbn.
      * by exists [], s.
      * rewrite not_elem_of_cons. done.
Qed.

Lemma last_occurrence_unique {A} (c : A) (pre1 post1 pre2 post2 : list A) :
  pre1 ++ c :: post1 = pre2 ++ c :: post2 ->
  c ∉ post1 -> c ∉ post2 -> post1 = post2.
Proof.
  revert pre2. induction pre1 as [| x pre1 IH]; intros [| y pre2] H H1 H2; cbn in H.
  - by simplify_eq.
  - simplify_eq. exfalso. apply H1. set_solver.
  - simplify_eq. exfalso. apply H2. set_solver.
  - simplify_eq. eauto.
Qed.

Lemma after_last_slash_final (path : list ascii) :
  final_segment path (after_last_slash path).
Proof.
  unfold final_segment, after_last_slash.
  pose proof (LastIndex_byte path "/") as H. change [("/")%char] with (go "/") in H.
  destruct (strings.LastIndex path (go "/")) as [i |].
  - destruct H as (pre & post & -> & <- & Hpost).
    exists (pre ++ go "/"). rewrite <- app_assoc. cbn.
    replace (length pre + 1)%nat with (length (pre ++ ["/"%char])) by (rewrite length_app; cbn; lia).
    rewrite (cons_middle _ pre post), app_assoc, drop_app_length.
    split; [by rewrite <- app_assoc |]. split; [done |]. right. by exists pre.
  - exists []. auto.
Qed.

Lemma final_segment_unique (path seg1 seg2 : list ascii) :
  final_segment path seg1 -> final_segment path seg2 -> seg1 = seg2.
Proof.
  intros (d1 & E1 & N1 & D1) (d2 & E2 & N2 & D2).
  destruct D1 as [-> | [p1 ->]], D2 as [-> | [p2 ->]]; cbn in *.
  - congruence.
  - exfalso. apply N1. rewrite <- E1, E2, !elem_of_app. left. right. by left.
  - exfalso. apply N2. rewrite <- E2, E1, !elem_of_app. left. right. by left.
  - rewrite <- !app_assoc in *. cbn in *.
    eapply last_occurrence_unique; [| done | done]. by rewrite <- E1, <- E2.
Qed.

Lemma HasPrefix_byte (s : list ascii) (c : ascii) (j : nat) :
  strings.HasPrefix (drop j s) [c] = true <-> s !! j = Some c.
Proof.
  replace (s !! j) with (drop j s !! 0%nat)
    by (rewrite lookup_drop; f_equal; lia).
  destruct (drop j s) as [| x t]; cbn; [done |].
  rewrite andb_true_r, Ascii.eqb_eq. split; congruence.
Qed.

(** [Index] finds the first occurrence. *)
Lemma Index_spec (s sub : list ascii) :
  match strings.Index s sub with
  | Some i =>
      strings.HasPrefix (drop i s) sub = true
      /\ forall j, (j < i)%nat -> strings.HasPrefix (drop j s) sub = false
  | None => forall j, strings.HasPrefix (drop j s) sub = false
  end.
Proof.
  induction s as [| x s IH].
  - cbn. destruct (strings.HasPrefix [] sub) eqn:E.
    + split; [done | lia].
    + intros j. by rewrite drop_nil.
  - cbn [strings.Index]. destruct (strings.HasPrefix (x :: s) sub) eqn:E.
    + split; [done | lia].
    + destruct (strings.Index s sub) as [i |]; cbn.
      * destruct IH as [H1 H2]. split; [done |].
        intros [| j] Hj; [done |]. cbn. apply H2. lia.
      * intros [| j]; [done |]. cbn. apply IH.
Qed.

Lemma first_occurrence_Index (sub s : list ascii) (i : nat) :
  first_occurrence sub s i -> strings.Index s sub = Some i.
Proof.
  intros [Hat Hbefore]. pose proof (Index_spec s sub) as HI.
  destruct (strings.Index s sub) as [k |].
  - destruct HI as [Hk Hmin]. f_equal.
    destruct (Nat.lt_trichotomy k i) as [Hlt | [-> | Hgt]]; [| done |].
    + exfalso. apply (Hbefore k Hlt). by apply HasPrefix_spec.
    + exfalso. apply HasPrefix_spec in Hat. rewrite Hmin in Hat by done. done.
  - apply HasPrefix_spec in Hat. rewrite HI in Hat. done.
Qed.



Lemma spaceWidth_pos (encs : list (list ascii)) (s : list ascii) (k : nat) :
  strings.spaceWidth encs s = S k ->
  exists e t, e ∈ encs /\ s = e ++ t /\ length e = S k.
Proof.
  unfold strings.spaceWidth.
  destruct (find (strings.HasPrefix s) encs) as [e |] eqn:E; [| done].
  intros Hlen. apply find_some in E as [Hin Hp].
  apply HasPrefix_spec in Hp as [t ->].
  exists e, t. split; [by apply list_elem_of_In | done].
Qed.

Lemma dropSpaces_skip (encs : list (list ascii)) (p t : list ascii) :
  strings.dropSpaces encs (length p) (p ++ t) = strings.dropSpaces encs 0 t.
Proof. induction p as [| x p IH]; [done | apply IH]. Qed.

(** What [dropSpaces] returns is a suffix of its argument that starts with
    no space rune. *)
Lemma dropSpaces_spec (encs : list (list ascii)) (s : list ascii) :
  strings.dropSpaces encs 0 s `suffix_of` s
  /\ strings.spaceWidth encs (strings.dropSpaces encs 0 s) = 0%nat.
Proof.
  remember (length s) as n eqn:Hn. revert s Hn.
  induction n as [n IH] using lt_wf_ind. intros s Hn.
  destruct s as [| c s'].
  - cbn. split; [done |]. unfold strings.spaceWidth.
    destruct (find (strings.HasPrefix []) encs) as [e |] eqn:E; [| done].
    apply find_some in E as [_ He]. by destruct e.
  - cbn [strings.dropSpaces].
    destruct (strings.spaceWidth encs (c :: s')) as [| k] eqn:E; [done |].
    apply spaceWidth_pos in E as (e & t & He & Hs & Hlen).
    destruct e as [| x e]; [done |]. cbn in Hs, Hlen. simplify_eq.
    rewrite dropSpaces_skip.
    destruct (IH (length t)) with (s := t) as [Hsuf Hw];
      [cbn; rewrite length_app; lia | done |].
    split; [| done].
    apply suffix_cons_r, suffix_app_r. done.
Qed.

Lemma dropSpaces_id (encs : list (list ascii)) (s : list ascii) :
  strings.spaceWidth encs s = 0%nat -> strings.dropSpaces encs 0 s = s.
Proof. destruct s as [| c s']; cbn; [done |]. by intros ->. Qed.

Lemma spaceWidth_prefix (encs : list (list ascii)) (u r : list ascii) :
  Forall (fun e => e <> []) encs ->
  u `prefix_of` r ->
  strings.spaceWidth encs r = 0%nat -> strings.spaceWidth encs u = 0%nat.
Proof.
  intros Hne Hpre Hr. unfold strings.spaceWidth in *.
  destruct (find (strings.HasPrefix u) encs) as [e |] eqn:E; [| done].
  apply find_some in E as [Hin He]. exfalso.
  apply HasPrefix_spec in He.
  assert (strings.HasPrefix r e = true) as Hre.
  { apply HasPrefix_spec. by etrans. }
  destruct (find (strings.HasPrefix r) encs) as [e' |] eqn:E'.
  - apply find_some in E' as [Hin' _].
    rewrite Forall_forall in Hne. apply list_elem_of_In, Hne in Hin'.
    by destruct e'.
  - eapply find_none in E'; [| exact Hin]. congruence.
Qed.

Lemma spaceEncodings_nonempty :
  Forall (fun e : list ascii => e <> []) strings.spaceEncodings.
Proof. unfold strings.spaceEncodings. cbn. repeat constructor; discriminate. Qed.

Lemma TrimSpace_idempotent (s : list ascii) :
  strings.TrimSpace (strings.TrimSpace s) = strings.TrimSpace s.
Proof.
  unfold strings.TrimSpace.
  set (encs := strings.spaceEncodings).
  set (rencs := map (@rev ascii) encs).
  destruct (dropSpaces_spec encs s) as [_ Hr].
  set (r := strings.dropSpaces encs 0 s) in *.
  destruct (dropSpaces_spec rencs (rev r)) as [Hsuf Hw].
  set (t := strings.dropSpaces rencs 0 (rev r)) in *.
  assert (rev t `prefix_of` r) as Hpre.
  { destruct Hsuf as [k Hk]. exists (rev k).
    rewrite <- (rev_involutive r), Hk. apply rev_app_distr. }
  rewrite (dropSpaces_id encs (rev t)).
  - rewrite rev_involutive. by rewrite (dropSpaces_id rencs t).
  - eapply spaceWidth_prefix; [apply spaceEncodings_nonempty | exact Hpre | exact Hr].
Qed.

(** ** The session-list parser *)








Lemma cleanConfigName_stored (raw : list ascii) :
  stored_config_name raw (openvpn.cleanConfigName raw).
Proof.
  unfold openvpn.cleanConfigName, stored_config_name.
  fold notAvailable.
  pose proof (Index_spec raw notAvailable) as HI.
  destruct (strings.Index raw notAvailable) as [i |].
  - destruct HI as [Hat Hbefore].
    exists (strings.TrimSpace (take i raw)), (after_last_slash (strings.TrimSpace (take i raw))).
    split; [| split; [apply after_last_slash_final | apply TrimSuffix_without]].
    left. exists i. split; [| done]. split.
    + by apply HasPrefix_spec.
    + intros j Hj Hp. apply HasPrefix_spec in Hp. rewrite Hbefore in Hp by done. done.
  - exists raw, (after_last_slash raw).
    split; [| split; [apply after_last_slash_final | apply TrimSuffix_without]].
    right. split; [| done].
    intros [i Hp]. apply HasPrefix_spec in Hp. rewrite HI in Hp. done.
Qed.

Lemma cleanConfigName_trailing (body : list ascii) :
  first_occurrence notAvailable (body ++ notAvailable) (length body) ->
  openvpn.cleanConfigName (body ++ notAvailable)
  = suffix_stripped_config_name (body ++ notAvailable).
Proof.
  intros H. unfold openvpn.cleanConfigName, suffix_stripped_config_name.
  fold notAvailable. rewrite (first_occurrence_Index _ _ _ H).
  rewrite take_app_length, TrimSuffix_app. reflexivity.
Qed.

Lemma extractValue_trimmed (line key : list ascii) :
  strings.TrimSpace (openvpn.extractValue line key) = openvpn.extractValue line key.
Proof.
  unfold openvpn.extractValue. destruct (strings.Index line key); [| done].
  apply TrimSpace_idempotent.
Qed.

Lemma Index_first_occurrence (sub s : list ascii) (i : nat) :
  strings.Index s sub = Some i -> first_occurrence sub s i.
Proof.
  intros E. pose proof (Index_spec s sub) as HI. rewrite E in HI.
  destruct HI as [Hat Hbefore]. split.
  - by apply HasPrefix_spec.
  - intros j Hj Hp. apply HasPrefix_spec in Hp. rewrite Hbefore in Hp by done. done.
Qed.

Lemma cleanConfigName_suffix_only (raw : list ascii) :
  strings.TrimSpace raw = raw ->
  (forall i, first_occurrence notAvailable raw i ->
             (i + length notAvailable)%nat = length raw) ->
  openvpn.cleanConfigName raw = suffix_stripped_config_name raw.
Proof.
  intros Htrim Hend.
  destruct (strings.Index raw notAvailable) as [i |] eqn:E.
  - pose proof (Index_first_occurrence _ _ _ E) as Hfirst.
    pose proof (Hend i Hfirst) as Hlen.
    destruct Hfirst as [[k Hk] Hbefore].
    assert (k = []) as ->.
    { apply (f_equal length) in Hk. rewrite length_drop, length_app in Hk.
      destruct k as [| a k]; [done |].
      change (length (a :: k)) with (S (length k)) in Hk. lia. }
    rewrite app_nil_r in Hk.
    assert (raw = take i raw ++ notAvailable) as Hraw.
    { by rewrite <- Hk, take_drop. }
    assert (length (take i raw) = i) as Hi.
    { rewrite length_take. lia. }
    rewrite Hraw. apply cleanConfigName_trailing.
    rewrite <- Hraw, Hi. by apply Index_first_occurrence.
  - unfold openvpn.cleanConfigName, suffix_stripped_config_name.
    fold notAvailable. rewrite E. fold (after_last_slash raw).
    rewrite (TrimSuffix_none raw notAvailable), Htrim; [done |].
    intros [k Hk]. pose proof (Index_spec raw notAvailable) as HI.
    rewrite E in HI. specialize (HI (length k)).
    rewrite Hk, drop_app_length in HI.
    pose proof (HasPrefix_app notAvailable []) as Hp.
    rewrite app_nil_r in Hp. congruence.
Qed.

Lemma field_keeps_ConfigName (line key : list ascii)
    (set : openvpn.Session -> list ascii -> openvpn.Session)
    (post : list ascii -> list ascii) (cur : openvpn.Session) :
  (forall s v, openvpn.ConfigName (set s v) = openvpn.ConfigName s) ->
  openvpn.ConfigName (openvpn.field line key set post cur) = openvpn.ConfigName cur.
Proof.
  intros H. unfold openvpn.field. destruct (strings.Contains line key); [apply H | done].
Qed.

(** What the code stores: for a line of a session block that holds
    "Config name:" (no separator line, no "Path:"), the stored config name
    is the raw extracted value cut before the first "(Config not available)"
    and then trimmed of surrounding space when that warning occurs (the raw
    value itself when it does not), reduced to the segment after the last
    "/", a trailing ".ovpn" removed.  When the warning occurs nowhere but at
    the very end of the raw value (or not at all), this is the raw value
    with the trailing warning stripped, trimmed, reduced and cut likewise. *)
Theorem config_name_postprocessing
    (sessions : list openvpn.Session) (cur : openvpn.Session) (line : list ascii) :
  strings.HasPrefix (strings.TrimSpace line) (go "---") = false ->
  strings.Contains line (go "Path:") = false ->
  strings.Contains line (go "Config name:") = true ->
  exists cur',
    openvpn.parseLine (sessions, Some cur) line = (sessions, Some cur')
    /\ openvpn.ConfigName cur'
       = openvpn.cleanConfigName (openvpn.extractValue line (go "Config name:"))
    /\ stored_config_name (openvpn.extractValue line (go "Config name:"))
         (openvpn.ConfigName cur')
    /\ ((forall i,
            first_occurrence notAvailable
              (openvpn.extractValue line (go "Config name:")) i ->
            (i + length notAvailable)%nat
            = length (openvpn.extractValue line (go "Config name:"))) ->
        openvpn.ConfigName cur'
        = suffix_stripped_config_name
            (openvpn.extractValue line (go "Config name:"))).
Proof.
  intros Hsep Hpath Hname. unfold openvpn.parseLine. rewrite Hsep, Hpath.
  eexists. split; [reflexivity |].
  rewrite !field_keeps_ConfigName by done.
  match goal with
  | |- context [openvpn.ConfigName ?c] =>
      assert (openvpn.ConfigName c
              = openvpn.cleanConfigName
                  (openvpn.extractValue line (go "Config name:"))) as ->
  end.
  { unfold openvpn.field at 1. by rewrite Hname. }
  split; [done |]. split; [apply cleanConfigName_stored |].
  intros Hend. apply cleanConfigName_suffix_only; [| done].
  apply extractValue_trimmed.
Qed.

Lemma config_name_postprocessing_witness :
  exists cur',
    openvpn.parseLine ([], Some openvpn.emptySession) stale_line = ([], Some cur')
    /\ openvpn.ConfigName cur'
       = openvpn.cleanConfigName (openvpn.extractValue stale_line (go "Config name:"))
    /\ stored_config_name (openvpn.extractValue stale_line (go "Config name:"))
         (openvpn.ConfigName cur')
    /\ ((forall i,
            first_occurrence notAvailable
              (openvpn.extractValue stale_line (go "Config name:")) i ->
            (i + length notAvailable)%nat
            = length (openvpn.extractValue stale_line (go "Config name:"))) ->
        openvpn.ConfigName cur'
        = suffix_stripped_config_name
            (openvpn.extractValue stale_line (go "Config name:"))).
Proof.
  apply (config_name_postprocessing [] openvpn.emptySession stale_line);
    vm_compute; reflexivity.
Defined.

(** C8: the stored config name is not always the raw value with a trailing
    "(Config not available)" stripped, trimmed, reduced to the segment after
    the last "/" and cut of a trailing ".ovpn".  For the listing line
    "Config name: /etc/vpn/work.ovpn (Config not available) - stale" the raw
    value is "/etc/vpn/work.ovpn (Config not available) - stale", in which
    the warning is no suffix: stripping a trailing warning leaves
    "work.ovpn (Config not available) - stale", while the code, which cuts
    at the first occurrence of the warning where its comment announces the
    removal of a suffix, stores "work". *)
Lemma warning_inside_value_cuts_there :
  openvpn.extractValue stale_line (go "Config name:")
  = go "/etc/vpn/work.ovpn (Config not available) - stale"
  /\ map openvpn.ConfigName
       (openvpn.parseSessionsList
          (go "Path: /net/openvpn/v3/sessions/1" ++ newline ++ stale_line ++ newline))
     = [go "work"]
  /\ suffix_stripped_config_name (go "/etc/vpn/work.ovpn (Config not available) - stale")
     = go "work.ovpn (Config not available) - stale".
Proof. repeat split; vm_compute; reflexivity. Qed.

(** ** The byte formatter *)

Lemma SkipSpace_skip (p t : list ascii) :
  fmt.SkipSpace (length p) (p ++ t) = fmt.SkipSpace 0 t.
Proof. induction p as [| x p IH]; [done | apply IH]. Qed.

Lemma SkipSpace_spec (s s1 : list ascii) :
  fmt.SkipSpace 0 s = Some s1 -> exists ws, space_run ws /\ s = ws ++ s1.
Proof.
  remember (length s) as n eqn:Hn. revert s s1 Hn.
  induction n as [n IH] using lt_wf_ind. intros s s1 Hn H.
  destruct s as [| c s'].
  - cbn in H. simplify_eq. exists []. split; [constructor | done].
  - cbn [fmt.SkipSpace] in H.
    destruct (Ascii.eqb c "010"); [done |].
    destruct (strings.spaceWidth strings.spaceEncodings (c :: s')) as [| k] eqn:E.
    + simplify_eq. exists []. split; [constructor | done].
    + apply spaceWidth_pos in E as (e & t & He & Hs & Hlen).
      destruct e as [| x e]; [done |]. cbn in Hs, Hlen. simplify_eq.
      rewrite SkipSpace_skip in H.
      destruct (IH (length t)) with (s := t) (s1 := s1) as (ws & Hws & ->);
        [cbn; rewrite length_app; lia | done | done |].
      exists ((x :: e) ++ ws). split; [by constructor |].
      by rewrite <- app_assoc.
Qed.

Lemma takeDigits_spec (s : list ascii) :
  exists rest,
    s = fmt.takeDigits s ++ rest
    /\ Forall (fun c => fmt.isDigit c = true) (fmt.takeDigits s).
Proof.
  induction s as [| c s (rest & E & H)]; cbn.
  - by exists [].
  - destruct (fmt.isDigit c) eqn:Hc.
    + exists rest. cbn. split; [by rewrite <- E | by constructor].
    + by exists (c :: s).
Qed.

Lemma acceptSign_spec (s : list ascii) :
  exists sign,
    s = sign ++ (fmt.acceptSign s).2
    /\ (sign = [] \/ sign = go "+" \/ sign = go "-").
Proof.
  destruct s as [| c r]; cbn.
  - exists []. auto.
  - destruct (Ascii.eqb_spec c "+") as [-> | ?].
    + exists (go "+"). auto.
    + destruct (Ascii.eqb_spec c "-") as [-> | ?].
      * exists (go "-"). auto.
      * exists []. auto.
Qed.

Lemma SscanfInt64_begins (s : list ascii) (v : Z) :
  fmt.SscanfInt64 s = Some v -> begins_with_integer s.
Proof.
  unfold fmt.SscanfInt64.
  destruct (fmt.SkipSpace 0 s) as [s1 |] eqn:Hs; [| done].
  apply SkipSpace_spec in Hs as (ws & Hws & ->).
  destruct (acceptSign_spec s1) as (sign & E1 & Hsign).
  destruct (fmt.acceptSign s1) as [neg s2]. cbn in E1.
  destruct (takeDigits_spec s2) as (rest & E & Hd).
  destruct (fmt.takeDigits s2) as [| d ds] eqn:Hds; [done |].
  intros _. exists ws, sign, (d :: ds), rest.
  split; [by rewrite <- E, <- E1 |]. done.
Qed.

(** C10: an input that does not begin, after optional white space, with a
    decimal integer (an optional sign and at least one digit) is formatted
    as "0 B": the scan fails, the byte count stays zero, and no error is
    reported. *)
Theorem formatBytes_unparsable (s : list ascii) :
  ~ begins_with_integer s -> openvpn.formatBytes s = go "0 B".
Proof.
  intros Hno. unfold openvpn.formatBytes.
  destruct (fmt.SscanfInt64 s) as [v |] eqn:E.
  - exfalso. apply Hno. by apply SscanfInt64_begins in E.
  - reflexivity.
Qed.

Ltac no_space_rune He E :=
  unfold strings.spaceEncodings in He; cbn in He;
  repeat (apply elem_of_cons in He as [-> | He]; [discriminate E |]);
  by apply elem_of_nil in He.

Lemma formatBytes_unparsable_witness :
  openvpn.formatBytes (go "n/a") = go "0 B".
Proof.
  apply (formatBytes_unparsable (go "n/a")).
  intros (ws & sign & ds & rest & E & Hws & Hsign & Hne & Hd).
  destruct Hws as [| e ws He Hws].
  - destruct Hsign as [-> | [-> | ->]]; [| discriminate E ..].
    destruct Hd as [| d ds Hdigit _]; [done |].
    cbn in E. simplify_eq.
  - rewrite <- app_assoc in E. no_space_rune He E.
Defined.

Lemma digit_roundtrip (d : Z) :
  0 <= d < 10 ->
  fmt.digitVal (fmt.digitChar d) = d /\ fmt.isDigit (fmt.digitChar d) = true.
Proof.
  intros H.
  assert (d = 0 \/ d = 1 \/ d = 2 \/ d = 3 \/ d = 4 \/ d = 5 \/ d = 6 \/ d = 7
          \/ d = 8 \/ d = 9) as Hd by lia.
  repeat (destruct Hd as [-> | Hd]; [split; reflexivity |]).
  subst. split; reflexivity.
Qed.

Lemma parseDigits_snoc (l : list ascii) (c : ascii) :
  fmt.parseDigits (l ++ [c]) = 10 * fmt.parseDigits l + fmt.digitVal c.
Proof. unfold fmt.parseDigits. by rewrite fold_left_app. Qed.

Lemma digitsOf_spec (fuel : nat) (n : Z) :
  0 <= n < 2 ^ Z.of_nat fuel ->
  fmt.parseDigits (fmt.digitsOf fuel n) = n
  /\ Forall (fun c => fmt.isDigit c = true) (fmt.digitsOf fuel n).
Proof.
  revert n. induction fuel as [| f IH]; intros n Hn.
  - cbn in *. split; [unfold fmt.parseDigits; cbn; lia | constructor].
  - cbn [fmt.digitsOf]. destruct (Z.ltb_spec n 10) as [Hlt | Hge].
    + destruct (digit_roundtrip n) as [Hv Hd]; [lia |].
      split; [unfold fmt.parseDigits; cbn; lia | by repeat constructor].
    + assert (0 <= n / 10 < 2 ^ Z.of_nat f) as Hq.
      { rewrite Nat2Z.inj_succ, Z.pow_succ_r in Hn by lia.
        split; [apply Z.div_pos; lia |].
        apply Z.div_lt_upper_bound; lia. }
      destruct (IH _ Hq) as [Hp Hf].
      destruct (digit_roundtrip (n mod 10)) as [Hv Hd].
      { apply Z.mod_pos_bound. lia. }
      split.
      * rewrite parseDigits_snoc, Hp, Hv. symmetry. apply Z.div_mod. lia.
      * apply Forall_app. split; [done | by repeat constructor].
Qed.

Lemma digitsOf_nonempty (fuel : nat) (n : Z) : fmt.digitsOf (S fuel) n <> [].
Proof.
  cbn. destruct (n <? 10); [done |].
  intros H. apply app_eq_nil in H as [_ H]. done.
Qed.

Lemma formatUint_spec (n : Z) :
  0 <= n ->
  fmt.parseDigits (fmt.formatUint n) = n
  /\ Forall (fun c => fmt.isDigit c = true) (fmt.formatUint n)
  /\ fmt.formatUint n <> [].
Proof.
  intros Hn. unfold fmt.formatUint.
  split; [| split]; [apply digitsOf_spec | apply digitsOf_spec | apply digitsOf_nonempty].
  all: rewrite Nat2Z.inj_succ, Z2Nat.id by apply Z.log2_nonneg;
    destruct (Z.eq_dec n 0) as [-> | Hne]; [cbn; lia |];
    pose proof (Z.log2_spec n); lia.
Qed.

Lemma digit_not_space (c : ascii) (s : list ascii) :
  fmt.isDigit c = true ->
  fmt.SkipSpace 0 (c :: s) = Some (c :: s) /\ fmt.acceptSign (c :: s) = (false, c :: s).
Proof.
  destruct c as [[] [] [] [] [] [] [] []]; intros H; try discriminate H;
    split; reflexivity.
Qed.

Lemma takeDigits_all (ds : list ascii) :
  Forall (fun c => fmt.isDigit c = true) ds -> fmt.takeDigits ds = ds.
Proof.
  induction 1 as [| c ds Hc _ IH]; cbn; [done |]. by rewrite Hc, IH.
Qed.

Lemma Sscanf_Sprintf (n : Z) :
  0 <= n <= fmt.maxInt64 -> fmt.SscanfInt64 (fmt.Sprintf_d n) = Some n.
Proof.
  intros Hn. unfold fmt.Sprintf_d.
  destruct (Z.ltb_spec n 0) as [Hneg | _]; [lia |].
  destruct (formatUint_spec n) as (Hp & Hd & Hne); [lia |].
  unfold fmt.SscanfInt64.
  destruct (fmt.formatUint n) as [| c ds] eqn:E; [done |].
  destruct (digit_not_space c ds) as [-> ->]; [by inversion Hd |].
  rewrite (takeDigits_all (c :: ds)) by done. rewrite Hp.
  unfold fmt.maxInt64, fmt.minInt64 in *.
  destruct (Z.leb_spec (- 2 ^ 63) n); [| lia].
  destruct (Z.leb_spec n (2 ^ 63 - 1)); [done | lia].
Qed.

Lemma roundHalfEven_nearest (num den : Z) :
  0 < den -> 2 * Z.abs (num - fmt.roundHalfEven num den * den) <= den.
Proof.
  intros Hden. unfold fmt.roundHalfEven.
  pose proof (Z.div_mod num den) as Hdm.
  pose proof (Z.mod_pos_bound num den Hden) as Hr.
  destruct (Z.ltb_spec (2 * (num mod den)) den);
    [| destruct (Z.ltb_spec den (2 * (num mod den)));
       [| destruct (Z.even (num / den))]]; nia.
Qed.

Lemma Sprintf_d_digit (d : Z) : 0 <= d < 10 -> fmt.Sprintf_d d = [fmt.digitChar d].
Proof.
  intros H. unfold fmt.Sprintf_d, fmt.formatUint.
  destruct (Z.ltb_spec d 0); [lia |]. cbn [fmt.digitsOf].
  by destruct (Z.ltb_spec d 10); [| lia].
Qed.

Lemma Sprintf_2f_two_places (m k : Z) :
  0 <= m -> 0 <= k ->
  fmt.Sprintf_2f {| fmt.mant := m; fmt.shift := k |}
  = two_places (fmt.roundHalfEven (100 * m) (2 ^ k)).
Proof.
  intros Hm Hk. unfold fmt.Sprintf_2f, two_places. cbn [fmt.mant fmt.shift].
  set (c := fmt.roundHalfEven (100 * m) (2 ^ k)).
  assert (0 <= c) as Hc.
  { unfold c, fmt.roundHalfEven.
    assert (0 < 2 ^ k) by (apply Z.pow_pos_nonneg; lia).
    assert (0 <= 100 * m / 2 ^ k) by (apply Z.div_pos; lia).
    repeat match goal with |- context [if ?b then _ else _] => destruct b end; lia. }
  assert (0 <= c / 100) by (apply Z.div_pos; lia).
  pose proof (Z.mod_pos_bound c 100 ltac:(lia)).
  pose proof (Z.mod_pos_bound c 10 ltac:(lia)).
  assert (0 <= c mod 100 / 10 < 10).
  { split; [apply Z.div_pos; lia | apply Z.div_lt_upper_bound; lia]. }
  rewrite (Sprintf_d_digit (c mod 100 / 10)), (Sprintf_d_digit (c mod 10)) by lia.
  unfold fmt.Sprintf_d. destruct (Z.ltb_spec (c / 100) 0); [lia | done].
Qed.

Lemma float64_of_int_near (n : Z) :
  0 <= n <= fmt.maxInt64 ->
  exists F,
    fmt.float64_of_int n = {| fmt.mant := F; fmt.shift := 0 |}
    /\ 0 <= F
    /\ Z.abs (n - F) <= (if n <? 2 ^ 53 then 0 else 512).
Proof.
  intros Hn. unfold fmt.float64_of_int, fmt.maxInt64 in *.
  rewrite Z.abs_eq by lia.
  destruct (Z.ltb_spec n (2 ^ 53)) as [Hlt | Hge].
  - exists n. split; [done |]. lia.
  - eexists. split; [reflexivity |].
    assert (53 <= Z.log2 n).
    { change 53 with (Z.log2 (2 ^ 53)). by apply Z.log2_le_mono. }
    assert (Z.log2 n < 63).
    { apply Z.log2_lt_pow2; lia. }
    set (e := Z.log2 n - 52).
    assert (2 <= 2 ^ e <= 1024) as He.
    { split.
      - change 2 with (2 ^ 1) at 1. apply Z.pow_le_mono_r; lia.
      - change 1024 with (2 ^ 10). apply Z.pow_le_mono_r; lia. }
    pose proof (roundHalfEven_nearest n (2 ^ e) ltac:(lia)) as Hr.
    assert (0 <= fmt.roundHalfEven n (2 ^ e)).
    { unfold fmt.roundHalfEven.
      assert (0 <= n / 2 ^ e) by (apply Z.div_pos; lia).
      repeat match goal with |- context [if ?b then _ else _] => destruct b end; lia. }
    replace (Z.sgn n) with 1 by lia.
    split; [nia | lia].
Qed.

Lemma units_elem (u : Z) (nm : list ascii) :
  (u, nm) ∈ units ->
  (u = 1 /\ nm = go "B") \/ (u = 1024 /\ nm = go "KB")
  \/ (u = 1024 ^ 2 /\ nm = go "MB") \/ (u = 1024 ^ 3 /\ nm = go "GB").
Proof.
  unfold units. intros H.
  repeat (apply elem_of_cons in H as [H | H]; [simplify_eq; auto 6 |]).
  by apply elem_of_nil in H.
Qed.

Lemma scaled_format (n k : Z) :
  0 <= n <= fmt.maxInt64 -> 0 <= k ->
  exists c,
    nearest_hundredths n (2 ^ k) c
    /\ fmt.Sprintf_2f (fmt.div_pow2 (fmt.float64_of_int n) k) = two_places c.
Proof.
  intros Hn Hk.
  destruct (float64_of_int_near n Hn) as (F & -> & HF & Herr).
  unfold fmt.div_pow2. cbn [fmt.mant fmt.shift]. rewrite Z.add_0_l.
  eexists. split; [| by apply Sprintf_2f_two_places].
  unfold nearest_hundredths.
  assert (0 < 2 ^ k) by (apply Z.pow_pos_nonneg; lia).
  pose proof (roundHalfEven_nearest (100 * F) (2 ^ k) ltac:(lia)) as Hr.
  destruct (n <? 2 ^ 53); lia.
Qed.

Lemma roundHalfEven_nearest_even (num den : Z) :
  0 < den -> nearest_even num den (fmt.roundHalfEven num den).
Proof.
  intros Hden. split; [by apply roundHalfEven_nearest |].
  unfold fmt.roundHalfEven.
  pose proof (Z.div_mod num den) as Hdm.
  pose proof (Z.mod_pos_bound num den Hden) as Hr.
  destruct (Z.ltb_spec (2 * (num mod den)) den);
    [| destruct (Z.ltb_spec den (2 * (num mod den)));
       [| destruct (Z.even (num / den)) eqn:He]]; intros Htie; try nia.
  - done.
  - rewrite Z.even_add, He. reflexivity.
Qed.

Lemma nearest_even_unique (num den c1 c2 : Z) :
  0 < den -> nearest_even num den c1 -> nearest_even num den c2 -> c1 = c2.
Proof.
  intros Hden [H1 T1] [H2 T2].
  assert (c1 = c2 \/ c2 = c1 + 1 \/ c1 = c2 + 1) as [? | [-> | ->]] by nia; [done | |].
  - assert (Z.even c1 = true) as E1 by (apply T1; nia).
    assert (Z.even (c1 + 1) = true) as E2 by (apply T2; nia).
    rewrite Z.even_add, E1 in E2. discriminate.
  - assert (Z.even c2 = true) as E2 by (apply T2; nia).
    assert (Z.even (c2 + 1) = true) as E1 by (apply T1; nia).
    rewrite Z.even_add, E2 in E1. discriminate.
Qed.

Lemma float64_of_int_rounded (n : Z) :
  0 <= n <= fmt.maxInt64 ->
  exists F,
    fmt.float64_of_int n = {| fmt.mant := F; fmt.shift := 0 |}
    /\ 0 <= F
    /\ rounded_to_float64 n F.
Proof.
  intros Hn. unfold fmt.float64_of_int, rounded_to_float64, fmt.maxInt64 in *.
  rewrite Z.abs_eq by lia.
  destruct (Z.ltb_spec n (2 ^ 53)) as [Hlt | Hge].
  - exists n. split; [done |]. lia.
  - eexists. split; [reflexivity |].
    assert (53 <= Z.log2 n).
    { change 53 with (Z.log2 (2 ^ 53)). by apply Z.log2_le_mono. }
    set (e := Z.log2 n - 52).
    assert (0 < 2 ^ e) as He by (apply Z.pow_pos_nonneg; lia).
    assert (0 <= fmt.roundHalfEven n (2 ^ e)).
    { unfold fmt.roundHalfEven.
      assert (0 <= n / 2 ^ e) by (apply Z.div_pos; lia).
      repeat match goal with |- context [if ?b then _ else _] => destruct b end; lia. }
    replace (Z.sgn n) with 1 by lia.
    split; [nia |].
    exists (fmt.roundHalfEven n (2 ^ e)). split; [lia |].
    by apply roundHalfEven_nearest_even.
Qed.

Lemma rounded_to_float64_unique (n F1 F2 : Z) :
  0 <= n -> rounded_to_float64 n F1 -> rounded_to_float64 n F2 -> F1 = F2.
Proof.
  intros Hn. unfold rounded_to_float64.
  destruct (Z.ltb_spec n (2 ^ 53)); [congruence |].
  intros (k1 & -> & H1) (k2 & -> & H2). f_equal.
  eapply nearest_even_unique; [| done | done].
  apply Z.pow_pos_nonneg; [lia |].
  assert (53 <= Z.log2 n); [| lia].
  change 53 with (Z.log2 (2 ^ 53)). by apply Z.log2_le_mono.
Qed.

Lemma scaled_format_exact (n k : Z) :
  0 <= n <= fmt.maxInt64 -> 0 <= k ->
  exists F c,
    rounded_to_float64 n F
    /\ nearest_even (100 * F) (2 ^ k) c
    /\ nearest_hundredths n (2 ^ k) c
    /\ fmt.Sprintf_2f (fmt.div_pow2 (fmt.float64_of_int n) k) = two_places c.
Proof.
  intros Hn Hk.
  destruct (float64_of_int_rounded n Hn) as (F & HF & Hpos & Hround).
  destruct (float64_of_int_near n Hn) as (F' & HF' & _ & Herr).
  assert (F' = F) as -> by (rewrite HF in HF'; by simplify_eq).
  rewrite HF. unfold fmt.div_pow2. cbn [fmt.mant fmt.shift]. rewrite Z.add_0_l.
  assert (0 < 2 ^ k) by (apply Z.pow_pos_nonneg; lia).
  exists F, (fmt.roundHalfEven (100 * F) (2 ^ k)).
  split; [done |]. split; [by apply roundHalfEven_nearest_even |].
  split; [| by apply Sprintf_2f_two_places].
  unfold nearest_hundredths.
  pose proof (roundHalfEven_nearest (100 * F) (2 ^ k) ltac:(lia)) as Hr.
  destruct (n <? 2 ^ 53); lia.
Qed.

Lemma Sscanf_overflow (n : Z) :
  2 ^ 63 <= n -> fmt.SscanfInt64 (fmt.Sprintf_d n) = None.
Proof.
  intros Hn. unfold fmt.Sprintf_d.
  destruct (Z.ltb_spec n 0) as [Hneg | _]; [lia |].
  destruct (formatUint_spec n) as (Hp & Hd & Hne); [lia |].
  unfold fmt.SscanfInt64.
  destruct (fmt.formatUint n) as [| c ds] eqn:E; [done |].
  destruct (digit_not_space c ds) as [-> ->]; [by inversion Hd |].
  rewrite (takeDigits_all (c :: ds)) by done. rewrite Hp.
  unfold fmt.maxInt64, fmt.minInt64.
  destruct (Z.leb_spec n (2 ^ 63 - 1)); [lia |]. by rewrite andb_false_r.
Qed.

(** C7 (amended): for every non-negative byte count up to the largest
    int64, written in decimal, the formatter picks the largest of the units
    B, KB, MB, GB (powers of 1024) that does not exceed it; below 1024 it
    writes the count itself and " B", else the count in that unit with two
    decimal places: the hundredths are the integer nearest to a hundred
    times the count over the unit, the even one on a tie, the count being
    first rounded to a float64 (which changes it from [2 ^ 53] on only,
    to the nearest value of 53 significant bits, the even one on a tie).
    These conditions fix the output.  It maps 0 to "0 B", 1023 to
    "1023 B", 1024 to "1.00 KB", 1048576 to "1.00 MB" and 1073741824 to
    "1.00 GB".  A count of [2 ^ 63] or more is rendered as "0 B". *)
Theorem formatBytes_units :
  (forall n : Z,
      0 <= n <= fmt.maxInt64 ->
      exists unit name,
        largest_unit n unit name
        /\ ((unit = 1
             /\ openvpn.formatBytes (fmt.Sprintf_d n) = fmt.Sprintf_d n ++ go " B")
            \/ (unit <> 1
                /\ exists F c,
                    rounded_to_float64 n F
                    /\ nearest_even (100 * F) unit c
                    /\ nearest_hundredths n unit c
                    /\ openvpn.formatBytes (fmt.Sprintf_d n)
                       = two_places c ++ go " " ++ name
                    /\ forall F' c',
                         rounded_to_float64 n F' ->
                         nearest_even (100 * F') unit c' -> F' = F /\ c' = c)))
  /\ (forall n : Z,
        2 ^ 63 <= n -> openvpn.formatBytes (fmt.Sprintf_d n) = go "0 B")
  /\ map openvpn.formatBytes
       [go "0"; go "1023"; go "1024"; go "1048576"; go "1073741824"]
     = [go "0 B"; go "1023 B"; go "1.00 KB"; go "1.00 MB"; go "1.00 GB"].
Proof.
  split; [| split; [| vm_compute; reflexivity]].
  2:{ intros n Hn. unfold openvpn.formatBytes. by rewrite Sscanf_overflow. }
  intros n Hn. unfold openvpn.formatBytes. rewrite Sscanf_Sprintf by done.
  change openvpn.GB with (2 ^ 30). change openvpn.MB with (2 ^ 20).
  change openvpn.KB with (2 ^ 10).
  assert (Hunit : forall unit name,
             (unit, name) ∈ units -> (unit <= n \/ unit = 1) ->
             (forall u, u <= n -> (u = 1 \/ u = 1024 \/ u = 1024 ^ 2 \/ u = 1024 ^ 3) -> u <= unit) ->
             largest_unit n unit name).
  { intros unit name Hin Hle Hmax. split; [done |]. split; [done |].
    intros u nm Hu Hun. apply Hmax; [done |].
    apply units_elem in Hu. lia. }
  assert (Hscaled : forall k,
             0 <= k ->
             exists F c,
               rounded_to_float64 n F
               /\ nearest_even (100 * F) (2 ^ k) c
               /\ nearest_hundredths n (2 ^ k) c
               /\ fmt.Sprintf_2f (fmt.div_pow2 (fmt.float64_of_int n) k) = two_places c
               /\ forall F' c',
                    rounded_to_float64 n F' ->
                    nearest_even (100 * F') (2 ^ k) c' -> F' = F /\ c' = c).
  { intros k Hk. destruct (scaled_format_exact n k Hn Hk) as (F & c & HF & Hc & Hh & Hs).
    exists F, c. do 4 (split; [done |]). intros F' c' HF' Hc'.
    assert (F' = F) as -> by (apply (rounded_to_float64_unique n); [lia | done | done]).
    split; [done |]. apply (nearest_even_unique (100 * F) (2 ^ k)); [| done | done].
    apply Z.pow_pos_nonneg; lia. }
  destruct (Z.leb_spec (2 ^ 30) n) as [HG | HG];
    [| destruct (Z.leb_spec (2 ^ 20) n) as [HM | HM];
       [| destruct (Z.leb_spec (2 ^ 10) n) as [HK | HK]]].
  - exists (1024 ^ 3), (go "GB"). split.
    + apply Hunit; [apply list_elem_of_In; cbn; auto 6 | lia | lia].
    + right. split; [lia |].
      destruct (Hscaled 30 ltac:(lia)) as (F & c & HF & Hc & Hh & -> & Hu).
      by exists F, c.
  - exists (1024 ^ 2), (go "MB"). split.
    + apply Hunit; [apply list_elem_of_In; cbn; auto 6 | lia | lia].
    + right. split; [lia |].
      destruct (Hscaled 20 ltac:(lia)) as (F & c & HF & Hc & Hh & -> & Hu).
      by exists F, c.
  - exists 1024, (go "KB"). split.
    + apply Hunit; [apply list_elem_of_In; cbn; auto 6 | lia | lia].
    + right. split; [lia |].
      destruct (Hscaled 10 ltac:(lia)) as (F & c & HF & Hc & Hh & -> & Hu).
      by exists F, c.
  - exists 1, (go "B"). split.
    + apply Hunit; [apply list_elem_of_In; cbn; auto 6 | lia | lia].
    + left. done.
Qed.

Lemma formatBytes_units_witness :
  exists unit name,
    largest_unit 1152 unit name
    /\ ((unit = 1
         /\ openvpn.formatBytes (fmt.Sprintf_d 1152) = fmt.Sprintf_d 1152 ++ go " B")
        \/ (unit <> 1
            /\ exists F c,
                rounded_to_float64 1152 F
                /\ nearest_even (100 * F) unit c
                /\ nearest_hundredths 1152 unit c
                /\ openvpn.formatBytes (fmt.Sprintf_d 1152)
                   = two_places c ++ go " " ++ name
                /\ forall F' c',
                     rounded_to_float64 1152 F' ->
                     nearest_even (100 * F') unit c' -> F' = F /\ c' = c)).
Proof.
  apply (proj1 formatBytes_units 1152). unfold fmt.maxInt64. lia.
Defined.

(** C7 (as stated) fails beyond int64: the scan of 2 ^ 63 overflows, the
    byte count stays zero and the result is "0 B", no count in GB. *)
Lemma formatBytes_beyond_int64 :
  fmt.Sprintf_d (2 ^ 63) = go "9223372036854775808"
  /\ openvpn.formatBytes (go "9223372036854775808") = go "0 B"
  /\ 1024 ^ 3 <= 2 ^ 63.
Proof. split; [| split]; [vm_compute; reflexivity .. | lia]. Qed.

(** A tie goes to the even hundredth: 1152 bytes are 1.125 KB, written
    "1.12 KB"; 113 hundredths are as near, and are excluded. *)
Example formatBytes_tie :
  openvpn.formatBytes (go "1152") = go "1.12 KB"
  /\ nearest_even (100 * 1152) 1024 112
  /\ nearest_hundredths 1152 1024 113
  /\ ~ nearest_even (100 * 1152) 1024 113.
Proof.
  split; [vm_compute; reflexivity |].
  unfold nearest_even, nearest_hundredths.
  split; [split; [lia | intros _; reflexivity] |].
  split; [change (1152 <? 2 ^ 53) with true; lia |].
  intros [_ H]. specialize (H ltac:(lia)). discriminate H.
Qed.

(** ** The profile store *)

(** C9: [RemoveProfile] with an index out of bounds (negative, or at least
    the length) leaves the profile list as it is; with an index in bounds it
    removes exactly the entry at that index and keeps the others in order. *)
Theorem RemoveProfile_spec (c : config.Config) (index : Z) :
  (index < 0 \/ ui.len (config.Profiles c) <= index ->
   config.RemoveProfile c index = c)
  /\ (0 <= index < ui.len (config.Profiles c) ->
      exists pre p post,
        config.Profiles c = pre ++ p :: post
        /\ ui.len pre = index
        /\ config.Profiles (config.RemoveProfile c index) = pre ++ post).
Proof.
  unfold config.RemoveProfile, ui.len. split.
  - intros Hout.
    destruct (Z.leb_spec 0 index), (Z.ltb_spec index (Z.of_nat (length (config.Profiles c))));
      cbn; try reflexivity; lia.
  - intros Hin.
    destruct (Z.leb_spec 0 index), (Z.ltb_spec index (Z.of_nat (length (config.Profiles c))));
      try lia; cbn.
    destruct (lookup_lt_is_Some_2 (config.Profiles c) (Z.to_nat index)) as [p Hp]; [lia |].
    exists (take (Z.to_nat index) (config.Profiles c)), p,
           (drop (S (Z.to_nat index)) (config.Profiles c)).
    split; [| split].
    + by rewrite (take_drop_middle _ _ _ Hp).
    + rewrite length_take. lia.
    + by replace (Z.to_nat (index + 1)) with (S (Z.to_nat index)) by lia.
Qed.

Lemma RemoveProfile_spec_witness :
  config.RemoveProfile {| config.Profiles := [work_profile; home_profile] |} 2
  = {| config.Profiles := [work_profile; home_profile] |}
  /\ exists pre p post,
      [work_profile; home_profile] = pre ++ p :: post
      /\ ui.len pre = 0
      /\ config.Profiles
           (config.RemoveProfile {| config.Profiles := [work_profile; home_profile] |} 0)
         = pre ++ post.
Proof.
  split.
  - apply (RemoveProfile_spec {| config.Profiles := [work_profile; home_profile] |} 2).
    right. unfold ui.len. simpl. lia.
  - apply (RemoveProfile_spec {| config.Profiles := [work_profile; home_profile] |} 0).
    unfold ui.len. simpl. lia.
Defined.

Lemma RemoveProfile_len (c : config.Config) (i : Z) :
  0 <= i < ui.len (config.Profiles c) ->
  ui.len (config.Profiles (config.RemoveProfile c i)) = ui.len (config.Profiles c) - 1.
Proof.
  intros Hi. unfold config.RemoveProfile, ui.len in *.
  destruct (Z.leb_spec 0 i); [| lia].
  destruct (Z.ltb_spec i (Z.of_nat (length (config.Profiles c)))); [| lia].
  cbn. rewrite length_app, length_take, length_drop. lia.
Qed.

(** ** The state machine: matching profiles and sessions *)

Lemma anyConfigName_spec (name : list ascii) (ss : list openvpn.Session) :
  ui.anyConfigName name ss = true
  <-> exists session, session ∈ ss /\ openvpn.ConfigName session = name.
Proof.
  induction ss as [| s ss IH]; cbn.
  - split; [done | intros (x & Hx & _); by apply elem_of_nil in Hx].
  - case_bool_decide as Hd.
    + split; [intros _ | done]. exists s. split; [left | done].
    + rewrite IH. split.
      * intros (x & Hx & E). exists x. split; [by right | done].
      * intros (x & Hx & E). apply elem_of_cons in Hx as [-> | Hx]; [done |].
        by exists x.
Qed.

Lemma isProfileConnected_iff (m : ui.Model) (path : list ascii) :
  ui.isProfileConnected m path = true <-> connected_match (ui.sessions m) path.
Proof.
  unfold ui.isProfileConnected. fold (after_last_slash path).
  rewrite anyConfigName_spec. unfold connected_match. split.
  - intros (s & Hs & E). exists s, (after_last_slash path), (strings.TrimSuffix (after_last_slash path) (go ".ovpn")).
    split; [done |]. split; [apply after_last_slash_final |].
    split; [apply TrimSuffix_without | done].
  - intros (s & seg & name & Hs & Hseg & Hname & E). exists s. split; [done |].
    rewrite E.
    rewrite (final_segment_unique _ _ _ Hseg (after_last_slash_final path)) in Hname.
    eapply without_suffix_unique; [done | apply TrimSuffix_without].
Qed.

(** C5: a profile is reported as connected exactly when some session's
    config name equals the profile path reduced to its final path segment
    with a trailing ".ovpn" removed; so the path "/home/u/Work.ovpn" is
    connected exactly when some session has the config name "Work". *)
Theorem connected_match_symmetry (m : ui.Model) (path : list ascii) :
  (ui.isProfileConnected m path = true <-> connected_match (ui.sessions m) path)
  /\ (ui.isProfileConnected m (go "/home/u/Work.ovpn") = true
      <-> exists session,
           session ∈ ui.sessions m /\ openvpn.ConfigName session = go "Work").
Proof.
  split; [apply isProfileConnected_iff |].
  change (ui.isProfileConnected m (go "/home/u/Work.ovpn"))
    with (ui.anyConfigName (go "Work") (ui.sessions m)).
  apply anyConfigName_spec.
Qed.

(** ** The state machine: cursors *)

Lemma at_index_in_range {A} (l : list A) (i : Z) :
  0 <= i < ui.len l -> exists x, ui.at_index l i = Some x.
Proof.
  intros Hi. unfold ui.at_index, ui.len in *.
  destruct (Z.ltb_spec i 0) as [Hneg | _]; [lia |].
  apply lookup_lt_is_Some_2. lia.
Qed.

Lemma in_range_nonempty (c n : Z) : in_range c n -> 0 < n -> 0 <= c < n.
Proof. intros [H | [H _]] Hn; lia. Qed.

Lemma len_nonneg {A} (l : list A) : 0 <= ui.len l.
Proof. unfold ui.len. lia. Qed.

Lemma in_range_clamp (c n : Z) :
  0 <= n -> 0 <= c -> in_range (if n <=? c then Z.max 0 (n - 1) else c) n.
Proof.
  intros Hn Hc. unfold in_range.
  destruct (Z.leb_spec n c); lia.
Qed.

Lemma in_range_grow (c n : Z) : 0 <= n -> in_range c n -> in_range c (n + 1).
Proof. unfold in_range. lia. Qed.

Lemma len_app_one {A} (l : list A) (x : A) : ui.len (l ++ [x]) = ui.len l + 1.
Proof. unfold ui.len. rewrite length_app. cbn. lia. Qed.

Lemma NewModel_cursors (w : ui.World) (cfg : config.Config) :
  cursors_ok (ui.NewModel w cfg).
Proof.
  split; cbn; unfold in_range.
  - pose proof (len_nonneg (config.Profiles cfg)). lia.
  - right. done.
Qed.

Lemma handleInputMode_cursors (w : ui.World) (m : ui.Model) (key : list ascii) :
  cursors_ok m -> cursors_ok (ui.handleInputMode w m key).1.
Proof.
  intros [Hp Hs]. unfold ui.handleInputMode, ui.typeKey, ui.complete.
  repeat match goal with
         | |- context [if ?b then _ else _] => destruct b
         | |- context [match ui.inputMode m with _ => _ end] => destruct (ui.inputMode m)
         | |- context [match ui.UserHomeDir w with _ => _ end] => destruct (ui.UserHomeDir w)
         | |- context [match ui.Save w ?c with _ => _ end] => destruct (ui.Save w c)
         end; cbn; try (split; assumption).
  all: split; [| assumption]; unfold config.AddProfile; cbn;
    rewrite len_app_one; apply in_range_grow; [apply len_nonneg | assumption].
Qed.

Lemma handleEnter_cursors (m m' : ui.Model) (cmds : list ui.Cmd) :
  cursors_ok m -> ui.handleEnter m = Some (m', cmds) -> cursors_ok m'.
Proof.
  intros Hok. unfold ui.handleEnter.
  repeat first
    [ progress cbn -[ui.isProfileConnected]
    | match goal with
      | |- context [if ?b then _ else _] => destruct b
      | |- context [match ui.currentView ?x with _ => _ end] =>
          destruct (ui.currentView x)
      | |- context [ui.at_index ?l ?i] => destruct (ui.at_index l i)
      end ];
    intros H; simplify_eq; exact Hok.
Qed.

Lemma handleDelete_cursors (w : ui.World) (m m' : ui.Model) (cmds : list ui.Cmd) :
  cursors_ok m -> ui.handleDelete w m = Some (m', cmds) -> cursors_ok m'.
Proof.
  intros [Hp Hs]. unfold ui.handleDelete. cbn.
  destruct (ui.currentView m).
  - destruct (Z.ltb_spec 0 (ui.len (config.Profiles (ui.config m)))) as [Hpos | Hz].
    2:{ intros H. simplify_eq. by split. }
    destruct (ui.at_index _ _); cbn; [| done].
    pose proof (RemoveProfile_len (ui.config m) (ui.profileCursor m)
                  (in_range_nonempty _ _ Hp Hpos)) as Hlen.
    intros H. simplify_eq.
    assert (0 <= ui.profileCursor m) by (destruct Hp as [? | [_ ->]]; lia).
    pose proof (in_range_clamp (ui.profileCursor m)
                  (ui.len (config.Profiles (ui.config m)) - 1)
                  ltac:(lia) ltac:(lia)) as Hr.
    destruct (ui.Save w _); cbn -[config.RemoveProfile]; rewrite !Hlen;
      destruct (ui.len (config.Profiles (ui.config m)) - 1 <=? ui.profileCursor m);
      split; cbn -[config.RemoveProfile]; rewrite ?Hlen; done.
  - destruct (0 <? ui.len (ui.sessions m)); [| intros H; simplify_eq; by split].
    destruct (ui.at_index _ _); cbn; [| done].
    intros H. simplify_eq. by split.
Qed.

Lemma Update_cursors (w : ui.World) (m : ui.Model) (msg : ui.Msg)
    (m' : ui.Model) (cmds : list ui.Cmd) :
  cursors_ok m -> ui.Update w m msg = Some (m', cmds) -> cursors_ok m'.
Proof.
  intros Hok.
  destruct msg as [| key | | ss [e |] | st [e |] | [e |] | [e |] | |];
    cbn [ui.Update]; try (intros H; simplify_eq; exact Hok).
  - (* a key *)
    destruct (negb (bool_decide (ui.inputMode m = ui.InputNone))).
    { intros H. simplify_eq.
      pose proof (handleInputMode_cursors w m key Hok) as Hc.
      by rewrite H in Hc. }
    destruct (ui.key_is key "q" || ui.key_is key "ctrl+c");
      [intros H; simplify_eq; exact Hok |].
    destruct (ui.key_is key "tab").
    { intros H. simplify_eq. destruct Hok. by destruct (ui.currentView m). }
    destruct (ui.key_is key "up" || ui.key_is key "k").
    { intros H. simplify_eq. destruct Hok as [Hp Hs]. unfold ui.moveCursorUp.
      destruct (ui.currentView m).
      - destruct (Z.ltb_spec 0 (ui.profileCursor m)); split; cbn; try done.
        unfold in_range in *. lia.
      - destruct (Z.ltb_spec 0 (ui.sessionCursor m)); split; cbn; try done.
        unfold in_range in *. lia. }
    destruct (ui.key_is key "down" || ui.key_is key "j").
    { intros H. simplify_eq. destruct Hok as [Hp Hs]. unfold ui.moveCursorDown.
      destruct (ui.currentView m).
      - destruct (Z.ltb_spec (ui.profileCursor m) (ui.len (config.Profiles (ui.config m)) - 1));
          split; cbn; try done.
        unfold in_range in *. lia.
      - destruct (Z.ltb_spec (ui.sessionCursor m) (ui.len (ui.sessions m) - 1));
          split; cbn; try done.
        unfold in_range in *. lia. }
    destruct (ui.key_is key "enter"); [by apply handleEnter_cursors |].
    destruct (ui.key_is key "a").
    { destruct (ui.currentView m); intros H; unfold ui.startAddProfile in H;
        simplify_eq; exact Hok. }
    destruct (ui.key_is key "d" || ui.key_is key "delete");
      [by apply handleDelete_cursors |].
    destruct (ui.key_is key "r"); [intros H; simplify_eq; exact Hok |].
    destruct (ui.key_is key "s"); [| intros H; simplify_eq; exact Hok].
    destruct (ui.currentView m); [intros H; simplify_eq; exact Hok |].
    destruct (0 <? ui.len (ui.sessions m)); [| intros H; simplify_eq; exact Hok].
    destruct (ui.at_index _ _); cbn; [| done].
    intros H. simplify_eq. exact Hok.
  - (* sessions refreshed *)
    intros H. simplify_eq. destruct Hok as [Hp Hs]. cbn.
    assert (0 <= ui.sessionCursor m) by (destruct Hs as [? | [_ ->]]; lia).
    pose proof (in_range_clamp (ui.sessionCursor m) (ui.len ss) (len_nonneg ss) ltac:(lia)) as Hr.
    destruct (ui.len ss <=? ui.sessionCursor m); by split.
Qed.

(** The refresh handler alone: any session cursor that is not negative
    ends within the new list; the profile cursor and the profile list are
    not touched. *)
Lemma session_refresh_clamps (w : ui.World) (m : ui.Model)
    (ss : list openvpn.Session) :
  0 <= ui.sessionCursor m ->
  exists m',
    ui.Update w m (ui.sessionRefreshMsg ss None) = Some (m', [])
    /\ ui.sessions m' = ss
    /\ in_range (ui.sessionCursor m') (ui.len ss)
    /\ ui.profileCursor m' = ui.profileCursor m
    /\ ui.config m' = ui.config m.
Proof.
  intros Hc. eexists. split; [reflexivity |].
  cbn. pose proof (in_range_clamp (ui.sessionCursor m) (ui.len ss) (len_nonneg ss) Hc) as Hr.
  destruct (ui.len ss <=? ui.sessionCursor m); cbn; auto.
Qed.

(** ** The state machine: messages *)


Lemma handleEnter_messages (m : ui.Model) :
  cursors_ok m ->
  exists m' cmds,
    ui.handleEnter m = Some (m', cmds)
    /\ (ui.statusMsg m' = [] \/ ui.errorMsg m' = []).
Proof.
  intros [Hp Hs]. unfold ui.handleEnter. cbn.
  destruct (ui.currentView m).
  - destruct (Z.eqb_spec (ui.len (config.Profiles (ui.config m))) 0) as [Hz | Hnz].
    + eexists _, _. split; [reflexivity |]. cbn. by left.
    + destruct (ui.valid_at (ui.profileValid m) (ui.profileCursor m)); cbn.
      2:{ eexists _, _. split; [reflexivity |]. cbn. by left. }
      destruct (at_index_in_range (config.Profiles (ui.config m)) (ui.profileCursor m))
        as [p Hp'].
      { apply in_range_nonempty; [done |]. pose proof (len_nonneg (config.Profiles (ui.config m))). lia. }
      rewrite Hp'. cbn.
      match goal with |- context [if ?b then _ else _] => destruct b end;
        eexists _, _; (split; [reflexivity |]); cbn; auto.
  - destruct (Z.ltb_spec 0 (ui.len (ui.sessions m))) as [Hpos | Hz].
    + destruct (at_index_in_range (ui.sessions m) (ui.sessionCursor m)) as [x Hx].
      { by apply in_range_nonempty. }
      rewrite Hx. cbn. eexists _, _. split; [reflexivity |]. cbn. by left.
    + eexists _, _. split; [reflexivity |]. cbn. by left.
Qed.

Lemma handleDelete_messages (w : ui.World) (m : ui.Model) :
  cursors_ok m ->
  exists m' cmds,
    ui.handleDelete w m = Some (m', cmds)
    /\ (ui.statusMsg m' = [] \/ ui.errorMsg m' = []).
Proof.
  intros [Hp Hs]. unfold ui.handleDelete. cbn.
  destruct (ui.currentView m).
  - destruct (Z.ltb_spec 0 (ui.len (config.Profiles (ui.config m)))) as [Hpos | Hz].
    + destruct (at_index_in_range (config.Profiles (ui.config m)) (ui.profileCursor m))
        as [p Hp'].
      { by apply in_range_nonempty. }
      rewrite Hp'. cbn.
      eexists _, _. split; [reflexivity |].
      destruct (ui.Save w _); cbn;
        match goal with |- context [if ?b then _ else _] => destruct b end; cbn; auto.
    + eexists _, _. split; [reflexivity |]. cbn. by left.
  - destruct (Z.ltb_spec 0 (ui.len (ui.sessions m))) as [Hpos | Hz].
    + destruct (at_index_in_range (ui.sessions m) (ui.sessionCursor m)) as [x Hx].
      { by apply in_range_nonempty. }
      rewrite Hx. cbn. eexists _, _. split; [reflexivity |]. cbn. by right.
    + eexists _, _. split; [reflexivity |]. cbn. by left.
Qed.








(** ** The state machine: reachable states *)

Lemma Update_total (w : ui.World) (m : ui.Model) (msg : ui.Msg) :
  cursors_ok m -> is_Some (ui.Update w m msg).
Proof.
  intros Hok.
  assert (He : is_Some (ui.handleEnter m)).
  { destruct (handleEnter_messages m Hok) as (m' & cmds & -> & _). done. }
  assert (Hd : is_Some (ui.handleDelete w m)).
  { destruct (handleDelete_messages w m Hok) as (m' & cmds & -> & _). done. }
  destruct msg as [| key | | ss [e |] | st [e |] | [e |] | [e |] | |];
    cbn [ui.Update]; try done.
  repeat match goal with
         | |- is_Some (if ?b then _ else _) => destruct b eqn:?
         | |- is_Some (match ui.currentView m with _ => _ end) =>
             destruct (ui.currentView m)
         end; try done.
  destruct Hok as [_ Hs].
  destruct (at_index_in_range (ui.sessions m) (ui.sessionCursor m)) as [x ->];
    [| done].
  apply in_range_nonempty; [done |]. by apply Z.ltb_lt.
Qed.

Lemma run_cursors (events : list (ui.World * ui.Msg)) (m : ui.Model) :
  cursors_ok m -> exists m', ui.run m events = Some m' /\ cursors_ok m'.
Proof.
  revert m. induction events as [| [w msg] events IH]; intros m Hok; cbn.
  - by exists m.
  - destruct (Update_total w m msg Hok) as [[m1 cmds] HU].
    rewrite HU. cbn. apply IH. by eapply Update_cursors.
Qed.

(** In every state the machine reaches from its initial state both
    cursors are within their lists, and no event makes it panic. *)
Lemma reachable_cursors (w : ui.World) (cfg : config.Config)
    (events : list (ui.World * ui.Msg)) :
  exists m, ui.run (ui.NewModel w cfg) events = Some m /\ cursors_ok m.
Proof. apply run_cursors, NewModel_cursors. Qed.

(** C2: in every state the machine reaches from its initial state,
    whatever the cursors have become, a session-list refresh result that
    replaces the list with one of length [L] leaves the session cursor
    within [0 <= cursor < L] (at [0] when [L = 0]) and the profile cursor
    within its own list (at [0] when that is empty). *)
Theorem refresh_keeps_cursors_in_range
    (w0 : ui.World) (cfg : config.Config) (events : list (ui.World * ui.Msg))
    (m : ui.Model) (w : ui.World) (ss : list openvpn.Session) :
  ui.run (ui.NewModel w0 cfg) events = Some m ->
  exists m',
    ui.Update w m (ui.sessionRefreshMsg ss None) = Some (m', [])
    /\ ui.sessions m' = ss
    /\ in_range (ui.sessionCursor m') (ui.len ss)
    /\ in_range (ui.profileCursor m') (ui.len (config.Profiles (ui.config m'))).
Proof.
  intros Hrun.
  destruct (reachable_cursors w0 cfg events) as (m0 & Hrun0 & [Hp Hs]).
  rewrite Hrun in Hrun0. simplify_eq.
  destruct (session_refresh_clamps w m0 ss) as (m' & HU & Hss & Hr & Hpc & Hcfg).
  { destruct Hs as [? | [_ ->]]; lia. }
  exists m'. rewrite Hpc, Hcfg. auto.
Qed.

Lemma refresh_keeps_cursors_in_range_witness :
  exists m',
    ui.Update world_ok two_sessions_cursor_last
      (ui.sessionRefreshMsg [work_session] None) = Some (m', [])
    /\ ui.sessions m' = [work_session]
    /\ in_range (ui.sessionCursor m') (ui.len [work_session])
    /\ in_range (ui.profileCursor m') (ui.len (config.Profiles (ui.config m'))).
Proof.
  apply (refresh_keeps_cursors_in_range world_ok one_profile
           [ (world_ok, ui.sessionRefreshMsg [work_session; home_session] None);
             (world_ok, ui.KeyMsg (go "tab"));
             (world_ok, ui.KeyMsg (go "j")) ]
           two_sessions_cursor_last world_ok [work_session]).
  vm_compute. reflexivity.
Defined.

(** ** The state machine: task results and the enter key *)

(** C3: a connect result with an error leaves [loading = false], sets the
    error message and schedules nothing, so no session-list refresh; a
    connect result without error schedules the refresh, with [loading] set
    and the loading label "Refreshing sessions...". *)
Theorem connect_result_refresh_only_on_success (w : ui.World) (m : ui.Model) :
  (forall e : list ascii,
      exists m' cmds,
        ui.Update w m (ui.connectMsg (Some e)) = Some (m', cmds)
        /\ ui.loading m' = false
        /\ ui.errorMsg m' = (go "Connection failed: " ++ e)
        /\ ui.errorMsg m' <> []
        /\ (ui.refreshSessions ∉ cmds)
        /\ cmds = [])
  /\ (exists m' cmds,
        ui.Update w m (ui.connectMsg None) = Some (m', cmds)
        /\ (ui.refreshSessions ∈ cmds)
        /\ ui.loading m' = true
        /\ ui.loadingMsg m' = go "Refreshing sessions..."
        /\ ui.statusMsg m' = go "Connected successfully!"
        /\ ui.errorMsg m' = ui.errorMsg m).
Proof.
  split.
  - intros e. eexists _, _. split; [reflexivity |].
    cbn. repeat split; try done. by apply not_elem_of_nil.
  - eexists _, _. split; [reflexivity |].
    cbn. repeat split; try done. set_solver.
Qed.

(** C4 (amended): in normal mode and the Profiles view, enter on a profile
    marked invalid clears the status message, sets the error message
    "Config file not found", schedules no task and changes nothing else;
    enter on a valid profile whose path matches a session's config name
    sets the error "'<name>' is already connected" (the status message
    cleared) and schedules no task; otherwise it sets [loading], the status
    message and the loading label, and schedules the spinner tick and
    exactly one connect task, for the profile's path. *)
Theorem enter_on_profile (w : ui.World) (m : ui.Model) (profile : config.Profile) :
  ui.inputMode m = ui.InputNone ->
  ui.currentView m = ui.ViewProfiles ->
  ui.at_index (config.Profiles (ui.config m)) (ui.profileCursor m) = Some profile ->
  (ui.valid_at (ui.profileValid m) (ui.profileCursor m) = false ->
   ui.Update w m (ui.KeyMsg (go "enter"))
   = Some (ui.set_errorMsg (ui.set_statusMsg m []) (go "Config file not found"), []))
  /\ (ui.valid_at (ui.profileValid m) (ui.profileCursor m) = true ->
      connected_match (ui.sessions m) (config.Path profile) ->
      ui.Update w m (ui.KeyMsg (go "enter"))
      = Some (ui.set_errorMsg (ui.set_statusMsg m [])
                (go "'" ++ config.Name profile ++ go "' is already connected"),
              []))
  /\ (ui.valid_at (ui.profileValid m) (ui.profileCursor m) = true ->
      ~ connected_match (ui.sessions m) (config.Path profile) ->
      exists m',
        ui.Update w m (ui.KeyMsg (go "enter"))
        = Some (m', [ui.SpinnerTick; ui.connect (config.Path profile)])
        /\ ui.loading m' = true
        /\ m' = ui.set_loadingMsg
                  (ui.set_loading
                     (ui.set_statusMsg (ui.set_errorMsg m [])
                        (go "Connecting to " ++ config.Name profile ++ go "..."))
                     true)
                  (go "Connecting...")).
Proof.
  intros Hmode Hview Hat.
  assert (Hlen : (ui.len (config.Profiles (ui.config m)) =? 0) = false).
  { apply Z.eqb_neq. unfold ui.at_index, ui.len in *.
    destruct (ui.profileCursor m <? 0); [done |].
    apply lookup_lt_Some in Hat. lia. }
  assert (HU : ui.Update w m (ui.KeyMsg (go "enter")) = ui.handleEnter m).
  { cbn [ui.Update]. rewrite Hmode. reflexivity. }
  rewrite HU. unfold ui.handleEnter. cbn -[ui.isProfileConnected].
  rewrite Hview, Hlen.
  assert (HP : ui.isProfileConnected (ui.clearMessages m) (config.Path profile)
               = ui.isProfileConnected m (config.Path profile)) by reflexivity.
  split; [| split].
  - intros ->. reflexivity.
  - intros -> Hc. cbn -[ui.isProfileConnected]. rewrite Hat.
    cbn -[ui.isProfileConnected].
    apply isProfileConnected_iff in Hc. rewrite HP, Hc. reflexivity.
  - intros -> Hc. cbn -[ui.isProfileConnected]. rewrite Hat.
    cbn -[ui.isProfileConnected]. rewrite HP.
    destruct (ui.isProfileConnected m (config.Path profile)) eqn:E.
    { exfalso. apply Hc. by apply isProfileConnected_iff. }
    eexists. split; [reflexivity |]. split; reflexivity.
Qed.

Lemma enter_on_profile_witness :
  exists m',
    ui.Update world_ok (ui.NewModel world_ok one_profile) (ui.KeyMsg (go "enter"))
    = Some (m', [ui.SpinnerTick; ui.connect (go "/home/u/Work.ovpn")])
    /\ ui.loading m' = true.
Proof.
  destruct (enter_on_profile world_ok (ui.NewModel world_ok one_profile)
              work_profile eq_refl eq_refl eq_refl) as (_ & _ & H).
  destruct H as (m' & HU & HL & _).
  - reflexivity.
  - intros (s & _ & _ & Hs & _). cbn in Hs. by apply elem_of_nil in Hs.
  - exists m'. split; [exact HU | exact HL].
Defined.

(** C4 (as stated) fails on "changes nothing else": after a profile whose
    file does not exist is added, the status message is "Added profile:
    Work"; enter on that profile sets the error message and also empties
    the status message. *)
Lemma enter_on_invalid_clears_status :
  exists m m',
    ui.run (ui.NewModel world_missing no_profiles)
      [ (world_missing, ui.KeyMsg (go "a"));
        (world_missing, ui.KeyMsg (go "/etc/vpn/work.ovpn"));
        (world_missing, ui.KeyMsg (go "enter"));
        (world_missing, ui.KeyMsg (go "Work"));
        (world_missing, ui.KeyMsg (go "enter")) ] = Some m
    /\ ui.inputMode m = ui.InputNone
    /\ ui.currentView m = ui.ViewProfiles
    /\ ui.at_index (config.Profiles (ui.config m)) (ui.profileCursor m)
       = Some {| config.Name := go "Work"; config.Path := go "/etc/vpn/work.ovpn" |}
    /\ ui.valid_at (ui.profileValid m) (ui.profileCursor m) = false
    /\ ui.statusMsg m = go "Added profile: Work"
    /\ ui.Update world_missing m (ui.KeyMsg (go "enter")) = Some (m', [])
    /\ ui.errorMsg m' = go "Config file not found"
    /\ ui.statusMsg m' = []
    /\ ui.statusMsg m' <> ui.statusMsg m.
Proof.
  eexists _, _. split; [vm_compute; reflexivity |].
  repeat (split; [vm_compute; reflexivity |]).
  vm_compute. discriminate.
Qed.

(** ** The further embedding on concrete inputs *)

Example Fields_sample :
  strings.Fields (go "  a b" ++ map ascii_of_nat [9; 194; 160; 13]%nat ++ go "cd  e ")
  = [go "a"; go "b"; go "cd"; go "e"].
Proof. vm_compute. reflexivity. Qed.

Example parseSessionStats_sample :
  openvpn.parseSessionStats sample_stats
  = {| openvpn.BytesIn := go "5.80 KB";
       openvpn.BytesOut := go "1.92 KB";
       openvpn.PacketsIn := go "29";
       openvpn.PacketsOut := go "31";
       openvpn.TunnelIP := go "2.00 KB (TUN in)";
       openvpn.TunnelIPv6 := [];
       openvpn.Connected := [] |}.
Proof. vm_compute. reflexivity. Qed.

Example loadThemeFromFile_sample :
  ui.loadThemeFromFile (Some sample_theme)
  = {| ui.Accent := go "#00ff00";
       ui.Foreground := go "#d8dee9";
       ui.Background := go "#2e3440";
       ui.SelectionForeground := go "#FFFFFF";
       ui.SelectionBackground := go "#7C3AED";
       ui.Success := go "#a3be8c";
       ui.Warning := go "#ebcb8b";
       ui.Error := go "#bf616a";
       ui.Muted := go "#123456" |}.
Proof. vm_compute. reflexivity. Qed.

Example CompactPath_sample :
  map (ui.CompactPath world_ok) [go "/home/u/vpn/work.ovpn"; go "/etc/vpn/work.ovpn"]
  = [go "~/vpn/work.ovpn"; go "/etc/vpn/work.ovpn"].
Proof. vm_compute. reflexivity. Qed.

Example statusStyle_samples :
  map ui.statusStyle
    [go "Connection, Client connected"; go "Connection, Paused";
     go "Connection, Client reconnecting"; go "Disconnected"]
  = [Some ui.StyleConnected; Some ui.StylePaused; Some ui.StyleDisconnected;
     Some ui.StyleConnected].
Proof. vm_compute. reflexivity. Qed.

(** ** The scanner on whole lines *)

Lemma scanLines_line (l acc rest : list ascii) :
  ("010"%char ∉ l) ->
  openvpn.scanLines acc (l ++ newline ++ rest)
  = if openvpn.fits (rev l ++ acc)
    then openvpn.dropCR (rev l ++ acc) :: openvpn.scanLines [] rest
    else [].
Proof.
  revert acc. induction l as [| c l IH]; intros acc Hl; [done |].
  cbn [app openvpn.scanLines].
  destruct (Ascii.eqb_spec c "010") as [-> | _].
  { exfalso. apply Hl. apply elem_of_cons. auto. }
  rewrite IH by (intros H; apply Hl; apply elem_of_cons; auto).
  cbn [rev]. by rewrite <- app_assoc.
Qed.

Lemma scanLines_text (ls : list (list ascii)) (rest : list ascii) :
  Forall fits_scanner ls ->
  openvpn.scanLines [] (text_of ls ++ rest)
  = map scanned ls ++ openvpn.scanLines [] rest.
Proof.
  induction 1 as [| l ls [Hnl Hlen] _ IH]; [done |].
  unfold text_of in *. cbn [map concat]. rewrite <- !app_assoc.
  rewrite scanLines_line by done. rewrite app_nil_r.
  unfold openvpn.fits, openvpn.maxLine. rewrite length_rev.
  rewrite (proj2 (N.leb_le _ _)) by lia.
  cbn [map app]. by rewrite IH.
Qed.

Lemma scanLines_long (ls : list (list ascii)) (l rest : list ascii) :
  Forall fits_scanner ls ->
  ("010"%char ∉ l) -> (65535 < N.of_nat (length l))%N ->
  openvpn.scanLines [] (text_of ls ++ l ++ newline ++ rest) = map scanned ls.
Proof.
  intros Hls Hl Hlen. rewrite scanLines_text by done.
  rewrite scanLines_line by done.
  unfold openvpn.fits, openvpn.maxLine. rewrite app_nil_r, length_rev.
  rewrite (proj2 (N.leb_gt _ _)) by lia. apply app_nil_r.
Qed.

Lemma elem_of_rev_1 (x : ascii) (l : list ascii) : x ∈ rev l -> x ∈ l.
Proof. rewrite !list_elem_of_In. intros H. by apply in_rev. Qed.

Lemma TrimSpace_elem (x : ascii) (s : list ascii) :
  x ∈ strings.TrimSpace s -> x ∈ s.
Proof.
  unfold strings.TrimSpace. intros H.
  apply elem_of_rev_1 in H.
  destruct (dropSpaces_spec (map (@rev ascii) strings.spaceEncodings)
              (rev (strings.dropSpaces strings.spaceEncodings 0 s))) as [[k Hk] _].
  assert (x ∈ rev (strings.dropSpaces strings.spaceEncodings 0 s)) as H'.
  { rewrite Hk. apply elem_of_app. by right. }
  apply elem_of_rev_1 in H'.
  destruct (dropSpaces_spec strings.spaceEncodings s) as [[k' Hk'] _].
  rewrite Hk'. apply elem_of_app. by right.
Qed.

Lemma Index_absent (s : list ascii) (c : ascii) :
  c ∉ s -> strings.Index s [c] = None.
Proof.
  intros Hc. pose proof (Index_spec s [c]) as HI.
  destruct (strings.Index s [c]) as [i |]; [| done].
  destruct HI as [Hat _]. exfalso. apply Hc.
  apply HasPrefix_spec in Hat as [t Ht].
  rewrite <- (take_drop i s). apply elem_of_app. right.
  rewrite Ht. apply elem_of_cons. by left.
Qed.

Lemma scanLines_acc (l acc : list ascii) :
  ("010"%char ∉ l) ->
  openvpn.scanLines acc l = openvpn.scanLines (rev l ++ acc) [].
Proof.
  revert acc. induction l as [| c l IH]; intros acc Hl; [done |].
  cbn [openvpn.scanLines].
  destruct (Ascii.eqb_spec c "010") as [-> | _].
  { exfalso. apply Hl. apply elem_of_cons. auto. }
  rewrite IH by (intros H; apply Hl; apply elem_of_cons; auto).
  cbn [rev]. by rewrite <- app_assoc.
Qed.

Lemma scanLines_last (l : list ascii) :
  ("010"%char ∉ l) -> (N.of_nat (length l) <= 65535)%N ->
  openvpn.scanLines [] l = match l with [] => [] | _ => [scanned l] end.
Proof.
  intros Hnl Hlen. rewrite scanLines_acc by done. rewrite app_nil_r.
  destruct l as [| c l]; [done |].
  cbn [openvpn.scanLines]. unfold scanned.
  destruct (rev (c :: l)) as [| x r] eqn:E.
  { apply (f_equal length) in E. rewrite length_rev in E. done. }
  unfold openvpn.fits, openvpn.maxLine.
  rewrite <- E, length_rev, (proj2 (N.leb_le _ _)) by lia. done.
Qed.

(** ** The session-list parser: which lines count *)

Lemma parseLines_collected (lines : list (list ascii)) :
  openvpn.parseLines lines = collected (fold_left openvpn.parseLine lines ([], None)).
Proof.
  unfold openvpn.parseLines, collected.
  destruct (fold_left _ _ _) as [ss [cur |]]; cbn; [done | by rewrite app_nil_r].
Qed.

Lemma field_keeps_Path (line key : list ascii)
    (set : openvpn.Session -> list ascii -> openvpn.Session)
    (post : list ascii -> list ascii) (cur : openvpn.Session) :
  (forall s v, openvpn.Path (set s v) = openvpn.Path s) ->
  openvpn.Path (openvpn.field line key set post cur) = openvpn.Path cur.
Proof.
  intros H. unfold openvpn.field. destruct (strings.Contains line key); [apply H | done].
Qed.

Lemma parseLine_paths (st : list openvpn.Session * option openvpn.Session)
    (line : list ascii) :
  map openvpn.Path (collected (openvpn.parseLine st line))
  = map openvpn.Path (collected st)
    ++ (if startsSession line then [openvpn.extractValue line (go "Path:")] else []).
Proof.
  destruct st as [ss cur]. unfold openvpn.parseLine, startsSession, isSeparator.
  destruct (strings.HasPrefix _ _); cbn [negb andb]; [by rewrite app_nil_r |].
  destruct (strings.Contains line (go "Path:")).
  - unfold collected. cbn. destruct cur; cbn; rewrite !map_app; cbn;
      by rewrite ?app_nil_r.
  - rewrite app_nil_r. destruct cur as [cur |]; [| done].
    unfold collected. cbn [fst snd]. rewrite !map_app. cbn [map]. f_equal. f_equal.
    by rewrite !field_keeps_Path.
Qed.

Lemma fold_paths (lines : list (list ascii))
    (st : list openvpn.Session * option openvpn.Session) :
  map openvpn.Path (collected (fold_left openvpn.parseLine lines st))
  = map openvpn.Path (collected st)
    ++ map (fun l => openvpn.extractValue l (go "Path:")) (filter startsSession lines).
Proof.
  revert st. induction lines as [| l lines IH]; intros st; cbn [fold_left].
  - by rewrite app_nil_r.
  - rewrite IH, parseLine_paths, <- app_assoc. f_equal.
    rewrite filter_cons. by destruct (startsSession l).
Qed.

(** X1: the parser yields one session for every line of the listing that
    holds "Path:" and is no separator line, in the order of the lines, and
    the session's path is the value extracted from that line; so the
    number of sessions is the number of such lines. *)
Theorem session_per_path_line (output : list ascii) :
  map openvpn.Path (openvpn.parseSessionsList output)
  = map (fun l => openvpn.extractValue l (go "Path:"))
      (filter startsSession (openvpn.scanLines [] output))
  /\ length (openvpn.parseSessionsList output)
     = length (filter startsSession (openvpn.scanLines [] output)).
Proof.
  assert (H : map openvpn.Path (openvpn.parseSessionsList output)
              = map (fun l => openvpn.extractValue l (go "Path:"))
                  (filter startsSession (openvpn.scanLines [] output))).
  { unfold openvpn.parseSessionsList. rewrite parseLines_collected, fold_paths. done. }
  split; [exact H |].
  apply (f_equal length) in H. by rewrite !length_map in H.
Qed.

Lemma parseLine_skips (st : list openvpn.Session * option openvpn.Session)
    (line : list ascii) :
  isSeparator line = true -> openvpn.parseLine st line = st.
Proof.
  intros H. destruct st as [ss cur]. unfold openvpn.parseLine.
  unfold isSeparator in H. by rewrite H.
Qed.

Lemma parseLine_before_first (line : list ascii) :
  startsSession line = false -> openvpn.parseLine ([], None) line = ([], None).
Proof.
  unfold startsSession, isSeparator, openvpn.parseLine.
  destruct (strings.HasPrefix _ _); [done |]. cbn [negb andb]. by intros ->.
Qed.

Lemma parseLines_before_first (pre lines : list (list ascii)) :
  Forall (fun l => startsSession l = false) pre ->
  openvpn.parseLines (pre ++ lines) = openvpn.parseLines lines.
Proof.
  intros Hpre.
  assert (Hfold : fold_left openvpn.parseLine pre ([], None) = ([], None)).
  { induction Hpre as [| l pre Hl _ IH]; [done |].
    cbn [fold_left]. by rewrite parseLine_before_first. }
  unfold openvpn.parseLines. by rewrite fold_left_app, Hfold.
Qed.

Lemma parseLines_without_separators (ls lines : list (list ascii)) :
  openvpn.parseLines
    (map scanned (filter (fun l => negb (isSeparator (scanned l))) ls) ++ lines)
  = openvpn.parseLines (map scanned ls ++ lines).
Proof.
  unfold openvpn.parseLines. rewrite !fold_left_app.
  assert (Hsep : forall st,
             fold_left openvpn.parseLine
               (map scanned (filter (fun l => negb (isSeparator (scanned l))) ls)) st
             = fold_left openvpn.parseLine (map scanned ls) st).
  { induction ls as [| l ls IH]; intros st; [done |].
    rewrite filter_cons.
    destruct (isSeparator (scanned l)) eqn:Hl; cbn -[openvpn.parseLine].
    - by rewrite parseLine_skips.
    - apply IH. }
  by rewrite Hsep.
Qed.

Lemma fits_scanner_filter (P : list ascii -> bool) (ls : list (list ascii)) :
  Forall fits_scanner ls -> Forall fits_scanner (filter P ls).
Proof.
  induction 1 as [| l ls Hl _ IH]; [constructor |].
  rewrite filter_cons. destruct (decide (P l)); [by constructor | done].
Qed.

(** X2: in the bytes of a listing, newline-ended lines that fit the
    scanner's buffer (at most 65535 bytes each) and stand before the first
    line that opens a session block (a line that holds "Path:" and is no
    separator line, as the scanner hands it on) do not change the result of
    [parseSessionsList]; and dropping the separator lines from such a run
    of lines at the start of the listing, whatever follows it, does not
    change it either. *)
Theorem ignored_lines (pre ls : list (list ascii)) (rest : list ascii) :
  Forall fits_scanner pre ->
  Forall (fun l => startsSession (scanned l) = false) pre ->
  Forall fits_scanner ls ->
  openvpn.parseSessionsList (text_of pre ++ rest) = openvpn.parseSessionsList rest
  /\ openvpn.parseSessionsList
       (text_of (filter (fun l => negb (isSeparator (scanned l))) ls) ++ rest)
     = openvpn.parseSessionsList (text_of ls ++ rest).
Proof.
  intros Hfit Hpre Hls. unfold openvpn.parseSessionsList. split.
  - rewrite scanLines_text by done.
    apply parseLines_before_first.
    induction Hpre as [| l pre Hl _ IH]; [constructor |].
    cbn [map]. constructor; [exact Hl |]. apply IH. by inversion Hfit.
  - rewrite !scanLines_text by (try apply fits_scanner_filter; done).
    apply parseLines_without_separators.
Qed.

Lemma ignored_lines_witness :
  openvpn.parseSessionsList
    (text_of [go "Owner: root"; go "--------"] ++ go "Path: /s/2" ++ newline ++ go "Owner: bob")
  = openvpn.parseSessionsList (go "Path: /s/2" ++ newline ++ go "Owner: bob")
  /\ openvpn.parseSessionsList
       (text_of (filter (fun l => negb (isSeparator (scanned l)))
                   [go "Path: /s/1"; go "--------"; go "Owner: alice"])
        ++ go "Path: /s/2" ++ newline ++ go "Owner: bob")
     = openvpn.parseSessionsList
         (text_of [go "Path: /s/1"; go "--------"; go "Owner: alice"]
          ++ go "Path: /s/2" ++ newline ++ go "Owner: bob").
Proof.
  apply (ignored_lines [go "Owner: root"; go "--------"]
           [go "Path: /s/1"; go "--------"; go "Owner: alice"]
           (go "Path: /s/2" ++ newline ++ go "Owner: bob")).
  - repeat first [apply Forall_nil_2 | apply Forall_cons_2];
      (split; [by apply (bool_decide_unpack _); vm_compute | cbn; lia]).
  - repeat first [apply Forall_nil_2 | apply Forall_cons_2]; reflexivity.
  - repeat first [apply Forall_nil_2 | apply Forall_cons_2];
      (split; [by apply (bool_decide_unpack _); vm_compute | cbn; lia]).
Defined.

(** ** The session-list parser: config names *)

Lemma TrimSuffix_prefix (s suf : list ascii) : strings.TrimSuffix s suf `prefix_of` s.
Proof.
  unfold strings.TrimSuffix. destruct (strings.HasSuffix s suf); [| done].
  apply prefix_take.
Qed.

Lemma cleanConfigName_slash (raw : list ascii) :
  "/"%char ∉ openvpn.cleanConfigName raw.
Proof.
  unfold openvpn.cleanConfigName.
  set (body := match strings.Index raw _ with Some _ => _ | None => _ end).
  intros Hin.
  destruct (TrimSuffix_prefix (after_last_slash body) (go ".ovpn")) as [t Ht].
  assert (Hseg : "/"%char ∈ after_last_slash body).
  { rewrite Ht. apply elem_of_app. left. exact Hin. }
  pose proof (LastIndex_byte body "/") as Hl. unfold after_last_slash in Hseg.
  change (go "/") with ["/"%char] in Hseg.
  destruct (strings.LastIndex body ["/"%char]) as [i |].
  - destruct Hl as (pre & post & Hb & Hlen & Hno).
    rewrite Hb in Hseg. rewrite <- Hlen in Hseg.
    replace (length pre + 1)%nat with (length (pre ++ ["/"%char])) in Hseg
      by (rewrite length_app; cbn; lia).
    rewrite (cons_middle "/"%char pre post), app_assoc, drop_app_length in Hseg.
    done.
  - done.
Qed.

Lemma parseLine_names (st : list openvpn.Session * option openvpn.Session)
    (line : list ascii) :
  Forall (fun s => "/"%char ∉ openvpn.ConfigName s) (collected st) ->
  Forall (fun s => "/"%char ∉ openvpn.ConfigName s)
    (collected (openvpn.parseLine st line)).
Proof.
  destruct st as [ss cur]. unfold openvpn.parseLine.
  destruct (strings.HasPrefix _ _); [done |].
  destruct (strings.Contains line (go "Path:")).
  - intros H. unfold collected in *. cbn [fst snd] in *.
    apply Forall_app. split.
    + destruct cur; [done |]. by rewrite app_nil_r in H.
    + apply (proj2 (Forall_singleton _ _)). cbn. apply not_elem_of_nil.
  - destruct cur as [cur |]; [| done].
    unfold collected. cbn [fst snd]. intros H.
    apply Forall_app in H as [Hss Hcur]. apply Forall_app. split; [done |].
    apply (proj2 (Forall_singleton _ _)).
    apply (proj1 (Forall_singleton _ _)) in Hcur. cbn beta in *.
    rewrite !field_keeps_ConfigName by done.
    unfold openvpn.field at 1. destruct (strings.Contains line (go "Config name:")).
    + cbn. apply cleanConfigName_slash.
    + by rewrite !field_keeps_ConfigName by done.
Qed.

(** X3: no session the parser returns has a slash in its config name,
    whatever the listing holds. *)
Theorem config_names_have_no_slash (output : list ascii) :
  Forall (fun s => "/"%char ∉ openvpn.ConfigName s)
    (openvpn.parseSessionsList output).
Proof.
  unfold openvpn.parseSessionsList. rewrite parseLines_collected.
  assert (H : forall lines st,
             Forall (fun s => "/"%char ∉ openvpn.ConfigName s) (collected st) ->
             Forall (fun s => "/"%char ∉ openvpn.ConfigName s)
               (collected (fold_left openvpn.parseLine lines st))).
  { induction lines as [| l lines IH]; intros st Hst; [done |].
    cbn [fold_left]. apply IH. by apply parseLine_names. }
  apply H. unfold collected. cbn. constructor.
Qed.

(** X4: for a profile path in which "(Config not available)" does not
    occur, the name the connected-check derives from the path is the name
    the parser stores for that path as a config name; a session whose
    config name is the parser's name for the path makes the profile count
    as connected. *)
Theorem matcher_agrees_with_parser (m : ui.Model) (path : list ascii) :
  strings.Index path notAvailable = None ->
  ui.isProfileConnected m path
  = ui.anyConfigName (openvpn.cleanConfigName path) (ui.sessions m)
  /\ forall session,
       (session ∈ ui.sessions m) ->
       openvpn.ConfigName session = openvpn.cleanConfigName path ->
       ui.isProfileConnected m path = true.
Proof.
  intros Hidx.
  assert (H : ui.isProfileConnected m path
              = ui.anyConfigName (openvpn.cleanConfigName path) (ui.sessions m)).
  { unfold ui.isProfileConnected, openvpn.cleanConfigName.
    unfold notAvailable in Hidx. by rewrite Hidx. }
  split; [exact H |]. intros session Hin Hname.
  rewrite H. apply anyConfigName_spec. by exists session.
Qed.

Lemma matcher_agrees_with_parser_witness :
  ui.isProfileConnected two_sessions_cursor_last (go "/home/u/Home.ovpn")
  = ui.anyConfigName (openvpn.cleanConfigName (go "/home/u/Home.ovpn"))
      [work_session; home_session].
Proof.
  apply (matcher_agrees_with_parser two_sessions_cursor_last (go "/home/u/Home.ovpn")).
  vm_compute. reflexivity.
Defined.

(** ** The byte formatter: what it reads of its argument *)

Lemma takeDigits_app (ds : list ascii) (c : ascii) (rest : list ascii) :
  Forall (fun c => fmt.isDigit c = true) ds ->
  fmt.isDigit c = false ->
  fmt.takeDigits (ds ++ c :: rest) = ds.
Proof.
  intros Hd Hc. induction Hd as [| d ds Hdig _ IH]; cbn.
  - by rewrite Hc.
  - by rewrite Hdig, IH.
Qed.

(** X5: of an argument that begins with digits, [formatBytes] reads the
    digits only: what follows the first byte that is no digit is ignored,
    and so are a space or a plus sign in front. *)
Theorem formatBytes_reads_leading_integer (ds rest : list ascii) (c : ascii) :
  Forall (fun c => fmt.isDigit c = true) ds ->
  ds <> [] ->
  fmt.isDigit c = false ->
  openvpn.formatBytes (ds ++ c :: rest) = openvpn.formatBytes ds
  /\ openvpn.formatBytes (go " " ++ ds ++ c :: rest) = openvpn.formatBytes ds
  /\ openvpn.formatBytes (go "+" ++ ds) = openvpn.formatBytes ds.
Proof.
  intros Hd Hne Hc.
  assert (Hscan : forall tail, fmt.takeDigits (ds ++ tail) = ds ->
            fmt.SscanfInt64 (ds ++ tail) = fmt.SscanfInt64 ds
            /\ fmt.SscanfInt64 (go " " ++ ds ++ tail) = fmt.SscanfInt64 ds
            /\ fmt.SscanfInt64 (go "+" ++ ds ++ tail) = fmt.SscanfInt64 ds).
  { intros tail Htake. destruct ds as [| d ds]; [done |].
    assert (Hdig : fmt.isDigit d = true) by (by inversion Hd).
    unfold fmt.SscanfInt64.
    destruct (digit_not_space d (ds ++ tail) Hdig) as [Hs1 Ha1].
    destruct (digit_not_space d ds Hdig) as [Hs2 Ha2].
    assert (Hs3 : fmt.SkipSpace 0 (go " " ++ (d :: ds) ++ tail)
                  = Some ((d :: ds) ++ tail)).
    { cbn -[fmt.SkipSpace] in *. cbn. cbn in Hs1. exact Hs1. }
    cbn [app] in *. rewrite Hs3.
    change (fmt.SkipSpace 0 (go "+" ++ d :: ds ++ tail))
      with (Some ("+"%char :: d :: ds ++ tail)).
    change (fmt.acceptSign ("+"%char :: d :: ds ++ tail))
      with (false, d :: ds ++ tail).
    rewrite Hs1, Hs2, Ha1, Ha2. cbn [app] in Htake.
    replace (fmt.acceptSign ("+"%char :: d :: ds ++ tail))
      with (false, d :: ds ++ tail) by reflexivity.
    rewrite Htake.
    by rewrite (takeDigits_all (d :: ds)) by done. }
  unfold openvpn.formatBytes.
  destruct (Hscan (c :: rest)) as (-> & -> & _); [by apply takeDigits_app |].
  destruct (Hscan []) as (_ & _ & H3).
  { rewrite app_nil_r. by apply takeDigits_all. }
  rewrite app_nil_r in H3. by rewrite H3.
Qed.

Lemma formatBytes_reads_leading_integer_witness :
  openvpn.formatBytes (go "5942" ++ "."%char :: go "5 bytes")
  = openvpn.formatBytes (go "5942")
  /\ openvpn.formatBytes (go " " ++ go "5942" ++ "."%char :: go "5 bytes")
     = openvpn.formatBytes (go "5942")
  /\ openvpn.formatBytes (go "+" ++ go "5942") = openvpn.formatBytes (go "5942").
Proof.
  apply (formatBytes_reads_leading_integer (go "5942") (go "5 bytes") "."%char).
  - repeat constructor.
  - discriminate.
  - reflexivity.
Defined.

(** X6: a negative count down to [- 2 ^ 63] is never scaled: it is shown
    in bytes, with its sign, whatever its size. *)
Theorem formatBytes_negative (n : Z) :
  0 < n <= 2 ^ 63 ->
  openvpn.formatBytes ("-"%char :: fmt.Sprintf_d n)
  = "-"%char :: fmt.Sprintf_d n ++ go " B"
  /\ openvpn.formatBytes ("-"%char :: fmt.Sprintf_d n)
     = fmt.Sprintf_d (- n) ++ go " B".
Proof.
  intros Hn.
  assert (Hpos : fmt.Sprintf_d n = fmt.formatUint n).
  { unfold fmt.Sprintf_d. by rewrite (proj2 (Z.ltb_ge _ _)) by lia. }
  assert (Hneg : fmt.Sprintf_d (- n) = "-"%char :: fmt.formatUint n).
  { unfold fmt.Sprintf_d. rewrite (proj2 (Z.ltb_lt _ _)) by lia.
    by rewrite Z.opp_involutive. }
  destruct (formatUint_spec n) as (Hp & Hd & Hne); [lia |].
  assert (Hscan : fmt.SscanfInt64 ("-"%char :: fmt.formatUint n) = Some (- n)).
  { unfold fmt.SscanfInt64.
    change (fmt.SkipSpace 0 ("-"%char :: fmt.formatUint n))
      with (Some ("-"%char :: fmt.formatUint n)).
    cbn beta iota.
    change (fmt.acceptSign ("-"%char :: fmt.formatUint n))
      with (true, fmt.formatUint n).
    cbn beta iota. rewrite (takeDigits_all _ Hd).
    destruct (fmt.formatUint n); [done |]. rewrite Hp.
    unfold fmt.minInt64, fmt.maxInt64.
    rewrite (proj2 (Z.leb_le _ _)) by lia.
    by rewrite (proj2 (Z.leb_le _ _)) by lia. }
  assert (H : openvpn.formatBytes ("-"%char :: fmt.Sprintf_d n)
              = fmt.Sprintf_d (- n) ++ go " B").
  { unfold openvpn.formatBytes. rewrite Hpos, Hscan.
    unfold openvpn.GB, openvpn.MB, openvpn.KB.
    rewrite (proj2 (Z.leb_gt _ _)) by lia.
    rewrite (proj2 (Z.leb_gt _ _)) by lia.
    by rewrite (proj2 (Z.leb_gt _ _)) by lia. }
  split; [| exact H]. rewrite H, Hneg, Hpos. done.
Qed.

Lemma formatBytes_negative_witness :
  openvpn.formatBytes ("-"%char :: fmt.Sprintf_d 1048576)
  = "-"%char :: fmt.Sprintf_d 1048576 ++ go " B"
  /\ openvpn.formatBytes ("-"%char :: fmt.Sprintf_d 1048576)
     = fmt.Sprintf_d (- 1048576) ++ go " B".
Proof. apply (formatBytes_negative 1048576). lia. Defined.

(** ** The statistics parser *)

Lemma wordByte_plain (c : ascii) (t : list ascii) :
  wordByte c = true ->
  strings.spaceWidth strings.spaceEncodings (c :: t) = 0%nat
  /\ strings.spaceWidth (map (@rev ascii) strings.spaceEncodings) (c :: t) = 0%nat
  /\ c <> "."%char /\ c <> " "%char.
Proof.
  destruct c as [[] [] [] [] [] [] [] []]; intros H; try discriminate H;
    repeat split; try reflexivity; discriminate.
Qed.

Lemma dropSpaces_indent (k : nat) (s : list ascii) :
  strings.dropSpaces strings.spaceEncodings 0 (replicate k " "%char ++ s)
  = strings.dropSpaces strings.spaceEncodings 0 s.
Proof. induction k as [| k IH]; [done |]. cbn [replicate app]. exact IH. Qed.

Lemma TrimSpace_indent (k : nat) (c d : ascii) (body : list ascii) :
  wordByte c = true -> wordByte d = true ->
  strings.TrimSpace (replicate k " "%char ++ c :: body ++ [d]) = c :: body ++ [d].
Proof.
  intros Hc Hd. unfold strings.TrimSpace. rewrite dropSpaces_indent.
  rewrite (dropSpaces_id _ (c :: body ++ [d]))
    by apply (proj1 (wordByte_plain c _ Hc)).
  replace (rev (c :: body ++ [d])) with (d :: rev (c :: body))
    by (change (c :: body ++ [d]) with ((c :: body) ++ [d]);
        by rewrite rev_app_distr).
  rewrite dropSpaces_id by apply (proj1 (proj2 (wordByte_plain d _ Hd))).
  change (rev (d :: rev (c :: body))) with (rev (rev (c :: body)) ++ [d]).
  by rewrite rev_involutive.
Qed.

Lemma ReplaceAllByte_row (u v : list ascii) (n : nat) :
  Forall (fun c => wordByte c = true) u ->
  Forall (fun c => wordByte c = true) v ->
  strings.ReplaceAllByte (u ++ replicate n "."%char ++ v) "." " "
  = u ++ replicate n " "%char ++ v.
Proof.
  intros Hu Hv.
  assert (Hid : forall l, Forall (fun c => wordByte c = true) l ->
                  strings.ReplaceAllByte l "." " " = l).
  { induction 1 as [| c l Hc _ IH]; [done |].
    unfold strings.ReplaceAllByte in *. cbn [map]. rewrite IH. f_equal.
    destruct (Ascii.eqb_spec c "."); [| done].
    by destruct (wordByte_plain c [] Hc) as (_ & _ & ? & _). }
  unfold strings.ReplaceAllByte in *. rewrite !map_app, (Hid u Hu), (Hid v Hv).
  f_equal. f_equal. induction n as [| n IH]; [done |]. cbn. by rewrite IH.
Qed.

Lemma fieldsLoop_word (u t cur : list ascii) :
  Forall (fun c => wordByte c = true) u ->
  strings.fieldsLoop 0 cur (u ++ t) = strings.fieldsLoop 0 (rev u ++ cur) t.
Proof.
  intros Hu. revert cur. induction Hu as [| c u Hc _ IH]; intros cur; [done |].
  cbn [app strings.fieldsLoop].
  rewrite (proj1 (wordByte_plain c (u ++ t) Hc)).
  rewrite IH. cbn [rev]. by rewrite <- app_assoc.
Qed.

Lemma fieldsLoop_spaces (n : nat) (t cur : list ascii) :
  strings.fieldsLoop 0 cur (replicate (S n) " "%char ++ t)
  = strings.flush cur ++ strings.fieldsLoop 0 [] t.
Proof.
  revert cur. induction n as [| n IH]; intros cur.
  - cbn [replicate app]. destruct t; reflexivity.
  - change (replicate (S (S n)) " "%char ++ t)
      with (" "%char :: replicate (S n) " "%char ++ t).
    change (strings.fieldsLoop 0 cur (" "%char :: replicate (S n) " "%char ++ t))
      with (strings.flush cur
              ++ strings.fieldsLoop 0 [] (replicate (S n) " "%char ++ t)).
    by rewrite IH.
Qed.

Lemma Fields_row (u v : list ascii) (n : nat) :
  Forall (fun c => wordByte c = true) u -> u <> [] ->
  Forall (fun c => wordByte c = true) v -> v <> [] ->
  strings.Fields (u ++ replicate (S n) " "%char ++ v) = [u; v].
Proof.
  intros Hu Hune Hv Hvne. unfold strings.Fields.
  rewrite fieldsLoop_word, fieldsLoop_spaces by done.
  rewrite <- (app_nil_r v), fieldsLoop_word by done. cbn [strings.fieldsLoop].
  rewrite !app_nil_r.
  assert (Hflush : forall l : list ascii, l <> [] -> strings.flush (rev l) = [l]).
  { intros l Hl. unfold strings.flush. destruct (rev l) eqn:E.
    - apply (f_equal (@rev ascii)) in E. rewrite rev_involutive in E. done.
    - by rewrite <- E, rev_involutive. }
  by rewrite !Hflush.
Qed.

Lemma digit_word (value : list ascii) :
  Forall (fun c => fmt.isDigit c = true) value ->
  Forall (fun c => wordByte c = true) value.
Proof.
  intros H. eapply Forall_impl; [exact H |].
  intros c Hc. unfold wordByte. by rewrite Hc.
Qed.

Lemma statsLine_row (indent dots : nat) (key : string) (value : list ascii) :
  Forall (fun c => wordByte c = true) (go key) -> go key <> [] ->
  Forall (fun c => fmt.isDigit c = true) value -> value <> [] ->
  strings.Fields
    (strings.ReplaceAllByte
       (strings.TrimSpace (stats_row indent key (S dots) value)) "." " ")
  = [go key; value].
Proof.
  intros Hk Hkne Hv Hvne. apply digit_word in Hv. unfold stats_row.
  destruct (go key) as [| c u] eqn:Ek; [done |].
  destruct (exists_last Hvne) as (v' & d & ->).
  apply Forall_cons in Hk as [Hc Hu].
  pose proof Hv as Hv'. apply Forall_app in Hv' as [_ Hd].
  apply (proj1 (Forall_singleton _ _)) in Hd. cbn beta in Hd.
  replace (replicate indent " "%char ++ (c :: u) ++ replicate (S dots) "."%char ++ v' ++ [d])
    with (replicate indent " "%char
          ++ c :: (u ++ replicate (S dots) "."%char ++ v') ++ [d])
    by (f_equal; cbn [app]; f_equal; by rewrite <- !app_assoc).
  rewrite TrimSpace_indent by done.
  replace (c :: (u ++ replicate (S dots) "."%char ++ v') ++ [d])
    with ((c :: u) ++ replicate (S dots) "."%char ++ (v' ++ [d]))
    by (cbn [app]; f_equal; by rewrite <- !app_assoc).
  rewrite ReplaceAllByte_row by (by try constructor).
  apply Fields_row; try done. by constructor.
Qed.

(** X7: a row of the statistics listing (any indentation, the key, at least
    one dot, a count in digits) is stored under its key: BYTES_IN and
    BYTES_OUT as formatted byte counts, PACKETS_IN and PACKETS_OUT as
    they stand, TUN_BYTES_IN and TUN_BYTES_OUT as formatted byte counts
    tagged "(TUN in)" and "(TUN out)" in the two tunnel-address fields; a
    row with another key changes nothing. *)
Theorem stats_row_is_stored (stats : openvpn.SessionStats) (indent dots : nat)
    (value : list ascii) :
  Forall (fun c => fmt.isDigit c = true) value ->
  value <> [] ->
  openvpn.statsLine stats (stats_row indent "BYTES_IN" (S dots) value)
  = openvpn.setBytesIn stats (openvpn.formatBytes value)
  /\ openvpn.statsLine stats (stats_row indent "BYTES_OUT" (S dots) value)
     = openvpn.setBytesOut stats (openvpn.formatBytes value)
  /\ openvpn.statsLine stats (stats_row indent "PACKETS_IN" (S dots) value)
     = openvpn.setPacketsIn stats value
  /\ openvpn.statsLine stats (stats_row indent "PACKETS_OUT" (S dots) value)
     = openvpn.setPacketsOut stats value
  /\ openvpn.statsLine stats (stats_row indent "TUN_BYTES_IN" (S dots) value)
     = openvpn.setTunnelIP stats (openvpn.formatBytes value ++ go " (TUN in)")
  /\ openvpn.statsLine stats (stats_row indent "TUN_BYTES_OUT" (S dots) value)
     = openvpn.setTunnelIPv6 stats (openvpn.formatBytes value ++ go " (TUN out)")
  /\ openvpn.statsLine stats (stats_row indent "CONNECT_TIME" (S dots) value)
     = stats.
Proof.
  intros Hv Hne.
  assert (Hlast : forall k : list ascii, List.last [k; value] [] = value) by done.
  repeat split; unfold openvpn.statsLine;
    rewrite statsLine_row by (try done; repeat constructor);
    cbn [length Nat.ltb Nat.leb]; rewrite Hlast; reflexivity.
Qed.

Lemma stats_row_is_stored_witness :
  openvpn.statsLine openvpn.emptyStats (go "     BYTES_IN....................5942")
  = openvpn.setBytesIn openvpn.emptyStats (go "5.80 KB").
Proof.
  destruct (stats_row_is_stored openvpn.emptyStats 5 19 (go "5942")) as [H _].
  - repeat constructor.
  - discriminate.
  - exact H.
Defined.

Lemma statsLine_shape (stats : openvpn.SessionStats) (text : list ascii) :
  stats_shape stats -> stats_shape (openvpn.statsLine stats text).
Proof.
  intros (Hc & Hi & Ho & Hbi & Hbo). unfold openvpn.statsLine.
  destruct (_ <? _)%nat; [by repeat split |].
  destruct (strings.Fields _) as [| key fields]; [by repeat split |].
  set (value := List.last (key :: fields) []).
  repeat match goal with
         | |- context [bool_decide ?P] => destruct (bool_decide P)
         end;
    repeat split; cbn; try done; right; exists value; by rewrite ?app_nil_r.
Qed.

(** X8: whatever the listing holds, the statistics parser leaves the
    Connected field empty, and each tunnel-address field and each byte
    field is empty or a formatted byte count (with its tag); so the
    statistics text never has a "Connected:" line and ends with the
    "Packets Out:" line. *)
Theorem parsed_stats_shape (output : list ascii) :
  stats_shape (openvpn.parseSessionStats output)
  /\ ui.renderStats_text (openvpn.parseSessionStats output)
     = go "Tunnel IP:   " ++ openvpn.TunnelIP (openvpn.parseSessionStats output)
       ++ newline
       ++ (if bool_decide (openvpn.TunnelIPv6 (openvpn.parseSessionStats output) = [])
           then []
           else go "Tunnel IPv6: "
                ++ openvpn.TunnelIPv6 (openvpn.parseSessionStats output) ++ newline)
       ++ go "Bytes In:    " ++ openvpn.BytesIn (openvpn.parseSessionStats output)
       ++ newline
       ++ go "Bytes Out:   " ++ openvpn.BytesOut (openvpn.parseSessionStats output)
       ++ newline
       ++ go "Packets In:  " ++ openvpn.PacketsIn (openvpn.parseSessionStats output)
       ++ newline
       ++ go "Packets Out: " ++ openvpn.PacketsOut (openvpn.parseSessionStats output)
       ++ newline.
Proof.
  assert (H : forall lines stats,
             stats_shape stats ->
             stats_shape (fold_left openvpn.statsLine lines stats)).
  { induction lines as [| l lines IH]; intros stats Hs; [done |].
    cbn [fold_left]. apply IH. by apply statsLine_shape. }
  assert (Hshape : stats_shape (openvpn.parseSessionStats output)).
  { apply H. repeat split; unfold tagged; auto. }
  split; [exact Hshape |].
  destruct Hshape as (Hc & _). unfold ui.renderStats_text. rewrite Hc.
  rewrite (bool_decide_eq_true_2 (@nil ascii = [])) by done.
  unfold newline. by rewrite !app_nil_r.
Qed.

(** ** The profile store: adding *)

(** X9: [AddProfile] appends the profile: it stands at the index that was
    the length of the list, the entries before it are as they were, the
    list is one longer, and [RemoveProfile] at that index gives the
    config back. *)
Theorem AddProfile_RemoveProfile (c : config.Config) (name path : list ascii) :
  config.RemoveProfile (config.AddProfile c name path) (ui.len (config.Profiles c)) = c
  /\ ui.at_index (config.Profiles (config.AddProfile c name path))
       (ui.len (config.Profiles c))
     = Some {| config.Name := name; config.Path := path |}
  /\ (forall i, i < ui.len (config.Profiles c) ->
        ui.at_index (config.Profiles (config.AddProfile c name path)) i
        = ui.at_index (config.Profiles c) i)
  /\ ui.len (config.Profiles (config.AddProfile c name path))
     = ui.len (config.Profiles c) + 1.
Proof.
  destruct c as [ps]. unfold config.AddProfile, config.RemoveProfile, ui.at_index, ui.len.
  cbn [config.Profiles]. rewrite length_app. cbn [length].
  split; [| split; [| split]].
  - rewrite (proj2 (Z.leb_le _ _)) by lia.
    rewrite (proj2 (Z.ltb_lt _ _)) by lia. cbn [andb]. f_equal.
    rewrite Nat2Z.id, take_app_length.
    replace (Z.to_nat (Z.of_nat (length ps) + 1)) with (length (ps ++ [ {| config.Name := name; config.Path := path |} ]))
      by (rewrite length_app; cbn; lia).
    by rewrite drop_all, app_nil_r.
  - rewrite (proj2 (Z.ltb_ge _ _)) by lia.
    by rewrite Nat2Z.id, list_lookup_middle.
  - intros i Hi. destruct (Z.ltb_spec i 0); [done |].
    apply lookup_app_l. lia.
  - lia.
Qed.

(** ** The add-profile dialogue *)

Lemma input_mode_not_none (m : ui.Model) :
  ui.inputMode m <> ui.InputNone ->
  negb (bool_decide (ui.inputMode m = ui.InputNone)) = true.
Proof. intros H. by rewrite bool_decide_eq_false_2. Qed.

Lemma input_mode_none (m : ui.Model) :
  ui.inputMode m = ui.InputNone ->
  negb (bool_decide (ui.inputMode m = ui.InputNone)) = false.
Proof. intros H. by rewrite bool_decide_eq_true_2. Qed.

(** X10: while the add-profile dialogue is open, every key goes to the
    dialogue: the step never fails, leaves the view, both cursors, the
    session list, the statistics and the loading flag as they were, and
    schedules nothing but the text widget's own command; so no key quits,
    connects, disconnects or deletes. *)
Theorem input_mode_captures_keys (w : ui.World) (m : ui.Model) (key : list ascii) :
  ui.inputMode m <> ui.InputNone ->
  exists m' cmds,
    ui.Update w m (ui.KeyMsg key) = Some (m', cmds)
    /\ ui.currentView m' = ui.currentView m
    /\ ui.profileCursor m' = ui.profileCursor m
    /\ ui.sessionCursor m' = ui.sessionCursor m
    /\ ui.sessions m' = ui.sessions m
    /\ ui.selectedStats m' = ui.selectedStats m
    /\ ui.loading m' = ui.loading m
    /\ (cmds = [] \/ cmds = [ui.TextInputCmd]).
Proof.
  intros Hmode. cbn [ui.Update]. rewrite input_mode_not_none by done.
  destruct (ui.handleInputMode w m key) as [m' cmds] eqn:E.
  exists m', cmds. split; [done |].
  revert E. unfold ui.handleInputMode, ui.typeKey, ui.complete.
  repeat match goal with
         | |- context [if ?b then _ else _] => destruct b
         | |- context [match ui.inputMode m with _ => _ end] => destruct (ui.inputMode m)
         | |- context [match ui.UserHomeDir w with _ => _ end] => destruct (ui.UserHomeDir w)
         | |- context [match ui.Save w ?c with _ => _ end] => destruct (ui.Save w c)
         end; intros E; simplify_eq; cbn; auto 10.
Qed.

Lemma input_mode_captures_keys_witness :
  exists m',
    ui.Update world_ok typing_path (ui.KeyMsg (go "q")) = Some (m', [ui.TextInputCmd])
    /\ ui.currentView m' = ui.ViewProfiles.
Proof.
  destruct (input_mode_captures_keys world_ok typing_path (go "q"))
    as (m' & cmds & HU & Hv & _).
  - vm_compute. discriminate.
  - exists m'. split; [| exact Hv].
    rewrite HU. f_equal. f_equal.
    assert (Some cmds = Some [ui.TextInputCmd]) as Hc.
    { change (Some cmds) with (snd <$> Some (m', cmds)). rewrite <- HU.
      vm_compute. reflexivity. }
    by simplify_eq.
Defined.

(** X11: enter on a path that is not blank moves the dialogue to the name
    step without touching the config: the pending path is the trimmed
    input, with a leading [~] replaced by the home directory when that is
    known, and the suggestions are cleared. *)
Theorem enter_confirms_path (w : ui.World) (m : ui.Model) (value : list ascii) :
  ui.inputMode m = ui.InputProfilePath ->
  strings.TrimSpace (ui.Value (ui.textInput m)) = value ->
  value <> [] ->
  exists m',
    ui.Update w m (ui.KeyMsg (go "enter")) = Some (m', [])
    /\ ui.inputMode m' = ui.InputProfileName
    /\ ui.config m' = ui.config m
    /\ config.Name (ui.newProfile m') = config.Name (ui.newProfile m)
    /\ ui.suggestions (ui.completer m') = []
    /\ (forall home rest,
           ui.UserHomeDir w = Some home -> value = go "~" ++ rest ->
           config.Path (ui.newProfile m') = home ++ rest)
    /\ (ui.UserHomeDir w = None \/ strings.HasPrefix value (go "~") = false ->
        config.Path (ui.newProfile m') = value).
Proof.
  intros Hmode Hv Hne. cbn [ui.Update].
  rewrite input_mode_not_none by (rewrite Hmode; done).
  unfold ui.handleInputMode.
  change (ui.key_is (go "enter") "esc") with false.
  change (ui.key_is (go "enter") "tab") with false.
  change (ui.key_is (go "enter") "shift+tab") with false.
  change (ui.key_is (go "enter") "enter") with true.
  cbn match. rewrite Hv, Hmode.
  rewrite (bool_decide_eq_false_2 (value = [])) by done.
  eexists. split; [reflexivity |].
  cbn -[strings.HasPrefix]. repeat split; try done.
  - intros home rest -> ->. reflexivity.
  - intros [-> | ->]; [| done].
    by match goal with |- context [if ?b then _ else _] => destruct b end.
Qed.

Lemma enter_confirms_path_witness :
  exists m',
    ui.Update world_ok typing_path (ui.KeyMsg (go "enter")) = Some (m', [])
    /\ ui.inputMode m' = ui.InputProfileName
    /\ config.Path (ui.newProfile m') = go "/home/u/vpn/work.ovpn".
Proof.
  destruct (enter_confirms_path world_ok typing_path (go "~/vpn/work.ovpn"))
    as (m' & HU & Hm & _ & _ & _ & Hp & _).
  - reflexivity.
  - vm_compute. reflexivity.
  - discriminate.
  - exists m'. split; [exact HU |]. split; [exact Hm |].
    apply (Hp (go "/home/u") (go "/vpn/work.ovpn")); reflexivity.
Defined.

Ltac eval_keys :=
  repeat match goal with
         | |- context [ui.key_is (go ?k) ?s] =>
             let b := eval vm_compute in (ui.key_is (go k) s) in
             change (ui.key_is (go k) s) with b
         end.

Lemma run_app (m : ui.Model) (ev1 ev2 : list (ui.World * ui.Msg)) :
  ui.run m (ev1 ++ ev2) = ui.run m ev1 ≫= fun m1 => ui.run m1 ev2.
Proof.
  revert m. induction ev1 as [| [w msg] ev1 IH]; intros m; cbn; [done |].
  destruct (ui.Update w m msg) as [[m1 cmds] |]; cbn; [apply IH | done].
Qed.

Lemma typing_step (w : ui.World) (m : ui.Model) (key : list ascii) :
  ui.inputMode m <> ui.InputNone ->
  key <> go "enter" -> key <> go "esc" ->
  exists m' cmds,
    ui.Update w m (ui.KeyMsg key) = Some (m', cmds)
    /\ ui.inputMode m' = ui.inputMode m
    /\ same_data m m'.
Proof.
  intros Hmode Hent Hesc. cbn [ui.Update]. rewrite input_mode_not_none by done.
  unfold ui.handleInputMode, ui.key_is.
  rewrite (bool_decide_eq_false_2 (key = go "esc")) by done.
  rewrite (bool_decide_eq_false_2 (key = go "enter")) by done.
  unfold ui.typeKey, ui.complete.
  repeat match goal with
         | |- context [if ?b then _ else _] => destruct b
         end; eexists _, _; (split; [reflexivity |]); cbn; by repeat split.
Qed.

Lemma typing_run (typed : list (ui.World * list ascii)) (m : ui.Model) :
  ui.inputMode m <> ui.InputNone ->
  Forall (fun e => e.2 <> go "enter" /\ e.2 <> go "esc") typed ->
  exists m',
    ui.run m (keys typed) = Some m'
    /\ ui.inputMode m' = ui.inputMode m
    /\ same_data m m'.
Proof.
  revert m. induction typed as [| [w key] typed IH]; intros m Hmode Hall.
  - exists m. by repeat split.
  - apply Forall_cons in Hall as [[Hent Hesc] Hall]. cbn in Hent, Hesc.
    destruct (typing_step w m key Hmode Hent Hesc) as (m1 & cmds & HU & Hm1 & Hd1).
    destruct (IH m1) as (m' & Hrun & Hm' & Hd'); [by rewrite Hm1 | done |].
    exists m'. unfold keys in *. cbn [map ui.run fst snd]. rewrite HU.
    cbn [mbind option_bind]. split; [done |].
    split; [congruence |].
    unfold same_data in *. intuition congruence.
Qed.

(** X12: an add-profile dialogue opened with a in the Profiles view and
    left with esc, whatever keys other than enter and esc were pressed in
    between and whatever the outside world did: the machine is back in
    normal mode, no profile is pending, and the config, the validity map,
    the sessions, the view, both cursors, the statistics and the loading
    flag are as before. *)
Theorem cancelled_dialogue_changes_nothing
    (w0 w1 : ui.World) (m : ui.Model) (typed : list (ui.World * list ascii)) :
  ui.inputMode m = ui.InputNone ->
  ui.currentView m = ui.ViewProfiles ->
  Forall (fun e => e.2 <> go "enter" /\ e.2 <> go "esc") typed ->
  exists m',
    ui.run m ((w0, ui.KeyMsg (go "a")) :: keys typed ++ [(w1, ui.KeyMsg (go "esc"))])
    = Some m'
    /\ ui.inputMode m' = ui.InputNone
    /\ ui.newProfile m' = ui.emptyProfile
    /\ ui.suggestions (ui.completer m') = []
    /\ same_data m m'.
Proof.
  intros Hmode Hview Hall.
  cbn [ui.run ui.Update]. rewrite input_mode_none by done. eval_keys.
  cbn [orb]. rewrite Hview. cbn [mbind option_bind ui.startAddProfile].
  set (m0 := ui.clearMessages _).
  destruct (typing_run typed m0) as (m1 & Hrun & Hm1 & Hd1); [done | done |].
  rewrite run_app, Hrun. cbn [mbind option_bind ui.run ui.Update].
  rewrite input_mode_not_none by (rewrite Hm1; done).
  unfold ui.handleInputMode. eval_keys.
  eexists. split; [reflexivity |]. cbn.
  repeat split; try done; apply Hd1.
Qed.

Lemma cancelled_dialogue_changes_nothing_witness :
  exists m',
    ui.run start_state
      [ (world_ok, ui.KeyMsg (go "a")); (world_listing, ui.KeyMsg (go "/etc/"));
        (world_listing, ui.KeyMsg (go "tab")); (world_ok, ui.KeyMsg (go "esc")) ]
    = Some m'
    /\ ui.inputMode m' = ui.InputNone
    /\ ui.config m' = one_profile.
Proof.
  destruct (cancelled_dialogue_changes_nothing world_ok world_ok start_state
              [ (world_listing, go "/etc/"); (world_listing, go "tab") ])
    as (m' & Hrun & Hmode & _ & _ & Hc & _).
  - reflexivity.
  - reflexivity.
  - repeat constructor; discriminate.
  - exists m'. split; [exact Hrun |]. split; [exact Hmode |]. rewrite Hc. reflexivity.
Defined.

(** X13: enter at the name step with a name that is not blank appends the
    profile (the trimmed name, the pending path) to the list, revalidates
    the list and closes the dialogue, whether or not the config could be
    saved: when saving fails the error message says so and the profile
    stays in the list all the same, when it succeeds the status message
    names the profile. *)
Theorem enter_commits_profile (w : ui.World) (m : ui.Model) (name : list ascii) :
  ui.inputMode m = ui.InputProfileName ->
  strings.TrimSpace (ui.Value (ui.textInput m)) = name ->
  name <> [] ->
  exists m',
    ui.Update w m (ui.KeyMsg (go "enter")) = Some (m', [])
    /\ config.Profiles (ui.config m')
       = config.Profiles (ui.config m)
         ++ [ {| config.Name := name; config.Path := config.Path (ui.newProfile m) |} ]
    /\ ui.profileValid m' = config.ValidateProfiles (ui.Stat w) (ui.config m')
    /\ ui.inputMode m' = ui.InputNone
    /\ ui.newProfile m' = ui.emptyProfile
    /\ ui.profileCursor m' = ui.profileCursor m
    /\ match ui.Save w (ui.config m') with
       | None =>
           ui.statusMsg m' = go "Added profile: " ++ name
           /\ ui.errorMsg m' = ui.errorMsg m
       | Some e =>
           ui.errorMsg m' = go "Failed to save config: " ++ e
           /\ ui.statusMsg m' = ui.statusMsg m
       end.
Proof.
  intros Hmode Hv Hne. cbn [ui.Update].
  rewrite input_mode_not_none by (rewrite Hmode; done).
  unfold ui.handleInputMode. eval_keys.
  cbn match. rewrite Hv, Hmode.
  rewrite (bool_decide_eq_false_2 (name = [])) by done.
  eexists. split; [reflexivity |].
  cbn -[config.AddProfile].
  destruct (ui.Save w (config.AddProfile _ _ _)) eqn:ES;
    cbn -[config.AddProfile]; rewrite ES; by repeat split.
Qed.

Lemma enter_commits_profile_witness :
  exists m',
    ui.Update world_readonly typing_name (ui.KeyMsg (go "enter")) = Some (m', [])
    /\ config.Profiles (ui.config m')
       = [ work_profile;
           {| config.Name := go "Office"; config.Path := go "/home/u/vpn/work.ovpn" |} ]
    /\ ui.errorMsg m' = go "Failed to save config: permission denied".
Proof.
  destruct (enter_commits_profile world_readonly typing_name (go "Office"))
    as (m' & HU & Hp & _ & _ & _ & _ & Hs).
  - reflexivity.
  - vm_compute. reflexivity.
  - discriminate.
  - exists m'. split; [exact HU |]. split; [rewrite Hp; reflexivity |].
    cbn in Hs. apply Hs.
Defined.

(** ** Deleting and disconnecting *)

Lemma cursor_after_removal (pre post : list config.Profile) :
  ui.at_index (pre ++ post)
    (if ui.len (pre ++ post) <=? ui.len pre
     then Z.max 0 (ui.len (pre ++ post) - 1) else ui.len pre)
  = match post with
    | q :: _ => Some q
    | [] => last pre
    end.
Proof.
  unfold ui.at_index, ui.len. rewrite length_app.
  destruct post as [| q post].
  - cbn [length]. rewrite (proj2 (Z.leb_le _ _)) by lia.
    rewrite app_nil_r. destruct (decide (pre = [])) as [-> | Hne]; [done |].
    assert (0 < length pre)%nat by (destruct pre; cbn; [done | lia]).
    rewrite (proj2 (Z.ltb_ge _ _)) by lia.
    rewrite last_lookup. f_equal. lia.
  - cbn [length]. rewrite (proj2 (Z.leb_gt _ _)) by lia.
    rewrite (proj2 (Z.ltb_ge _ _)) by lia.
    rewrite Nat2Z.id. by rewrite list_lookup_middle.
Qed.

(** X14: d or delete in the Profiles view removes exactly the profile under
    the cursor and revalidates the list, whether or not the config could
    be saved; afterwards the cursor is on the profile that followed the
    removed one, or on the new last one when the last was removed.  The
    sessions are not touched. *)
Theorem delete_removes_selected_profile
    (w : ui.World) (m : ui.Model) (key : list ascii)
    (pre post : list config.Profile) (p : config.Profile) :
  ui.inputMode m = ui.InputNone ->
  ui.currentView m = ui.ViewProfiles ->
  key = go "d" \/ key = go "delete" ->
  config.Profiles (ui.config m) = pre ++ p :: post ->
  ui.profileCursor m = ui.len pre ->
  exists m',
    ui.Update w m (ui.KeyMsg key) = Some (m', [])
    /\ config.Profiles (ui.config m') = pre ++ post
    /\ ui.profileValid m' = config.ValidateProfiles (ui.Stat w) (ui.config m')
    /\ ui.at_index (pre ++ post) (ui.profileCursor m')
       = match post with
         | q :: _ => Some q
         | [] => last pre
         end
    /\ ui.sessions m' = ui.sessions m
    /\ match ui.Save w (ui.config m') with
       | None =>
           ui.statusMsg m' = go "Removed profile: " ++ config.Name p
           /\ ui.errorMsg m' = []
       | Some e =>
           ui.errorMsg m' = go "Failed to save config: " ++ e
           /\ ui.statusMsg m' = []
       end.
Proof.
  intros Hmode Hview Hkey Hps Hcur.
  assert (Hrm : config.RemoveProfile (ui.config m) (ui.len pre)
                = {| config.Profiles := pre ++ post |}).
  { unfold config.RemoveProfile. rewrite Hps. unfold ui.len.
    rewrite length_app. cbn [length].
    rewrite (proj2 (Z.leb_le _ _)) by lia.
    rewrite (proj2 (Z.ltb_lt _ _)) by lia. cbn [andb]. f_equal.
    replace (Z.to_nat (Z.of_nat (length pre) + 1)) with (S (length pre)) by lia.
    rewrite Nat2Z.id, take_app_length. f_equal.
    rewrite (cons_middle p pre post), app_assoc.
    apply drop_app_length'. rewrite length_app. cbn. lia. }
  assert (Hat : ui.at_index (pre ++ p :: post) (ui.len pre) = Some p).
  { unfold ui.at_index, ui.len. rewrite (proj2 (Z.ltb_ge _ _)) by lia.
    rewrite Nat2Z.id. by rewrite list_lookup_middle. }
  assert (Hpos : (0 <? ui.len (pre ++ p :: post)) = true).
  { apply Z.ltb_lt. unfold ui.len. rewrite length_app. cbn. lia. }
  assert (HU : ui.Update w m (ui.KeyMsg key) = ui.handleDelete w m).
  { cbn [ui.Update]. rewrite input_mode_none by done.
    destruct Hkey as [-> | ->]; eval_keys; reflexivity. }
  pose proof (cursor_after_removal pre post) as Hland.
  rewrite HU. unfold ui.handleDelete. cbn -[config.RemoveProfile].
  rewrite Hview, Hps, Hpos, Hcur, Hat. cbn -[config.RemoveProfile].
  rewrite Hrm.
  eexists. split; [reflexivity |].
  destruct (ui.Save w {| config.Profiles := pre ++ post |}) as [e |] eqn:ES;
    cbn; rewrite ?ES, !Hcur;
    destruct (ui.len (pre ++ post) <=? ui.len pre);
    cbn; rewrite ?ES, ?Hcur; by repeat split.
Qed.

Lemma delete_removes_selected_profile_witness :
  exists m',
    ui.Update world_readonly two_profiles_cursor_last (ui.KeyMsg (go "delete"))
    = Some (m', [])
    /\ config.Profiles (ui.config m') = [work_profile]
    /\ ui.at_index [work_profile] (ui.profileCursor m') = Some work_profile
    /\ ui.errorMsg m' = go "Failed to save config: permission denied".
Proof.
  destruct (delete_removes_selected_profile world_readonly two_profiles_cursor_last
              (go "delete") [work_profile] [] home_profile)
    as (m' & HU & Hp & _ & Hc & _ & Hs).
  - reflexivity.
  - reflexivity.
  - by right.
  - reflexivity.
  - reflexivity.
  - exists m'. split; [exact HU |]. split; [exact Hp |]. split; [exact Hc |].
    cbn in Hs. apply Hs.
Defined.

(** X15: a task result that carries an error (sessions, statistics, connect
    or disconnect) changes nothing but the error message, which ends with
    the error's text, and the loading flag, which is cleared: the data on
    screen, the status message and the dialogue stay, and nothing is
    scheduled. *)
Theorem failed_task_keeps_data (w : ui.World) (m : ui.Model) (msg : ui.Msg)
    (e : list ascii) :
  task_error msg = Some e ->
  exists m' pre,
    ui.Update w m msg = Some (m', [])
    /\ ui.errorMsg m' = pre ++ e
    /\ pre <> []
    /\ ui.loading m' = false
    /\ ui.statusMsg m' = ui.statusMsg m
    /\ ui.inputMode m' = ui.inputMode m
    /\ ui.config m' = ui.config m
    /\ ui.profileValid m' = ui.profileValid m
    /\ ui.sessions m' = ui.sessions m
    /\ ui.currentView m' = ui.currentView m
    /\ ui.profileCursor m' = ui.profileCursor m
    /\ ui.sessionCursor m' = ui.sessionCursor m
    /\ ui.selectedStats m' = ui.selectedStats m.
Proof.
  intros He.
  destruct msg as [| key | | ss err | st err | err | err | |]; try discriminate;
    cbn in He; subst err; cbn [ui.Update]; unfold ui.failed;
    [ eexists _, (go "Failed to fetch sessions: ")
    | eexists _, (go "Failed to fetch stats: ")
    | eexists _, (go "Connection failed: ")
    | eexists _, (go "Disconnect failed: ") ];
    (split; [reflexivity |]); cbn; by repeat split.
Qed.

Lemma failed_task_keeps_data_witness :
  exists m' pre,
    ui.Update world_ok two_sessions_cursor_last
      (ui.sessionRefreshMsg [] (Some (go "exit status 1"))) = Some (m', [])
    /\ ui.errorMsg m' = pre ++ go "exit status 1"
    /\ ui.sessions m' = [work_session; home_session].
Proof.
  destruct (failed_task_keeps_data world_ok two_sessions_cursor_last
              (ui.sessionRefreshMsg [] (Some (go "exit status 1")))
              (go "exit status 1"))
    as (m' & pre & HU & He & _ & _ & _ & _ & _ & _ & Hs & _).
  - reflexivity.
  - exists m', pre. split; [exact HU |]. split; [exact He |]. rewrite Hs. reflexivity.
Defined.

(** X16: d or delete on a session schedules one disconnect, for the path of
    the session under the cursor, and shows "Disconnecting..." without
    setting the loading flag.  If the disconnect fails, the sessions and
    the statistics stay and the error is shown beside that status.  If it
    succeeds, a refresh is scheduled, and once the refreshed list arrives
    the statistics are gone, the cursor is within the new list and the
    status says "Disconnected successfully!". *)
Theorem disconnect_flow (w1 w2 w3 : ui.World) (m : ui.Model)
    (session : openvpn.Session) (key : list ascii) :
  ui.inputMode m = ui.InputNone ->
  ui.currentView m = ui.ViewSessions ->
  ui.at_index (ui.sessions m) (ui.sessionCursor m) = Some session ->
  key = go "d" \/ key = go "delete" ->
  exists m1,
    ui.Update w1 m (ui.KeyMsg key)
    = Some (m1, [ui.disconnect (openvpn.Path session)])
    /\ ui.sessions m1 = ui.sessions m
    /\ ui.loading m1 = ui.loading m
    /\ ui.statusMsg m1 = go "Disconnecting..."
    /\ ui.errorMsg m1 = []
    /\ (forall e, exists m2,
          ui.Update w2 m1 (ui.disconnectMsg (Some e)) = Some (m2, [])
          /\ ui.sessions m2 = ui.sessions m
          /\ ui.selectedStats m2 = ui.selectedStats m
          /\ ui.statusMsg m2 = go "Disconnecting..."
          /\ ui.errorMsg m2 = go "Disconnect failed: " ++ e)
    /\ (forall ss, exists m2 m3,
          ui.Update w2 m1 (ui.disconnectMsg None)
          = Some (m2, [ui.SpinnerTick; ui.refreshSessions])
          /\ ui.sessions m2 = ui.sessions m
          /\ ui.loading m2 = true
          /\ ui.Update w3 m2 (ui.sessionRefreshMsg ss None) = Some (m3, [])
          /\ ui.sessions m3 = ss
          /\ in_range (ui.sessionCursor m3) (ui.len ss)
          /\ ui.selectedStats m3 = None
          /\ ui.loading m3 = false
          /\ ui.statusMsg m3 = go "Disconnected successfully!"
          /\ ui.errorMsg m3 = []).
Proof.
  intros Hmode Hview Hat Hkey.
  assert (Hc : 0 <= ui.sessionCursor m).
  { unfold ui.at_index in Hat. destruct (Z.ltb_spec (ui.sessionCursor m) 0); [done | lia]. }
  assert (Hpos : (0 <? ui.len (ui.sessions m)) = true).
  { apply Z.ltb_lt. unfold ui.at_index, ui.len in *.
    destruct (Z.ltb_spec (ui.sessionCursor m) 0); [done |].
    apply lookup_lt_Some in Hat. lia. }
  assert (HU : ui.Update w1 m (ui.KeyMsg key) = ui.handleDelete w1 m).
  { cbn [ui.Update]. rewrite input_mode_none by done.
    destruct Hkey as [-> | ->]; eval_keys; reflexivity. }
  rewrite HU. unfold ui.handleDelete. cbn. rewrite Hview, Hpos, Hat. cbn.
  eexists. split; [reflexivity |]. cbn.
  repeat split.
  - intros e. eexists. split; [reflexivity |]. cbn. by repeat split.
  - intros ss. eexists _, _. split; [reflexivity |]. cbn.
    do 3 (split; [reflexivity |]).
    pose proof (in_range_clamp (ui.sessionCursor m) (ui.len ss) (len_nonneg ss) Hc) as Hr.
    destruct (ui.len ss <=? ui.sessionCursor m); cbn; by repeat split.
Qed.

Lemma disconnect_flow_witness :
  exists m1,
    ui.Update world_ok two_sessions_cursor_last (ui.KeyMsg (go "d"))
    = Some (m1, [ui.disconnect (go "/net/openvpn/v3/sessions/2")])
    /\ ui.statusMsg m1 = go "Disconnecting...".
Proof.
  destruct (disconnect_flow world_ok world_ok world_ok two_sessions_cursor_last
              home_session (go "d"))
    as (m1 & HU & _ & _ & Hs & _).
  - reflexivity.
  - reflexivity.
  - reflexivity.
  - by left.
  - exists m1. split; [exact HU | exact Hs].
Defined.

(** ** Moving about *)

(** X17: in normal mode, with the cursor of the list on screen not on the
    last entry, down (or j) moves that cursor one entry on, and up (or k)
    after it gives the state before but for the statistics, which are
    cleared. *)
Theorem down_then_up (w1 w2 : ui.World) (m : ui.Model) (kd ku : list ascii) :
  ui.inputMode m = ui.InputNone ->
  0 <= activeCursor m < activeLen m - 1 ->
  kd = go "down" \/ kd = go "j" ->
  ku = go "up" \/ ku = go "k" ->
  exists m1,
    ui.Update w1 m (ui.KeyMsg kd) = Some (m1, [])
    /\ activeCursor m1 = activeCursor m + 1
    /\ ui.Update w2 m1 (ui.KeyMsg ku) = Some (ui.set_selectedStats m None, []).
Proof.
  intros Hmode Hc Hkd Hku.
  assert (Hd : ui.Update w1 m (ui.KeyMsg kd) = Some (ui.moveCursorDown m, [])).
  { cbn [ui.Update]. rewrite input_mode_none by done.
    destruct Hkd as [-> | ->]; eval_keys; reflexivity. }
  assert (Hu : forall m1, ui.inputMode m1 = ui.InputNone ->
                 ui.Update w2 m1 (ui.KeyMsg ku) = Some (ui.moveCursorUp m1, [])).
  { intros m1 Hm1. cbn [ui.Update]. rewrite input_mode_none by done.
    destruct Hku as [-> | ->]; eval_keys; reflexivity. }
  exists (ui.moveCursorDown m). split; [exact Hd |].
  unfold activeCursor, activeLen in *.
  rewrite Hu by (unfold ui.moveCursorDown;
                 destruct (ui.currentView m), (_ <? _); done).
  unfold ui.moveCursorDown, ui.moveCursorUp.
  destruct (ui.currentView m) eqn:Hv; cbn.
  - rewrite (proj2 (Z.ltb_lt _ _)) by lia. cbn. rewrite Hv.
    rewrite (proj2 (Z.ltb_lt 0 _)) by lia. cbn.
    split; [done |]. unfold ui.set_selectedStats. cbn.
    do 2 f_equal. rewrite Hv. f_equal. lia.
  - rewrite (proj2 (Z.ltb_lt _ _)) by lia. cbn. rewrite Hv.
    rewrite (proj2 (Z.ltb_lt 0 _)) by lia. cbn.
    split; [done |]. unfold ui.set_selectedStats. cbn.
    do 2 f_equal. rewrite Hv. f_equal. lia.
Qed.

Lemma down_then_up_witness :
  exists m1,
    ui.Update world_ok (ui.NewModel world_ok two_profiles) (ui.KeyMsg (go "j"))
    = Some (m1, [])
    /\ activeCursor m1 = activeCursor (ui.NewModel world_ok two_profiles) + 1
    /\ ui.Update world_ok m1 (ui.KeyMsg (go "k"))
       = Some (ui.set_selectedStats (ui.NewModel world_ok two_profiles) None, []).
Proof.
  apply (down_then_up world_ok world_ok (ui.NewModel world_ok two_profiles)
           (go "j") (go "k")).
  - reflexivity.
  - unfold activeCursor, activeLen, ui.len. simpl. lia.
  - by right.
  - by right.
Defined.

(** X18: in normal mode, switching the view twice gives the state before
    with both messages cleared. *)
Theorem tab_twice (w1 w2 : ui.World) (m : ui.Model) :
  ui.inputMode m = ui.InputNone ->
  ui.run m [ (w1, ui.KeyMsg (go "tab")); (w2, ui.KeyMsg (go "tab")) ]
  = Some (ui.clearMessages m).
Proof.
  intros Hmode. cbn [ui.run ui.Update].
  rewrite input_mode_none by done. eval_keys. cbn [orb mbind option_bind].
  rewrite input_mode_none by (by destruct (ui.currentView m)).
  eval_keys. cbn [orb mbind option_bind].
  unfold ui.clearMessages, ui.set_errorMsg, ui.set_statusMsg.
  destruct (ui.currentView m) eqn:Hv; cbn; rewrite <- Hv; reflexivity.
Qed.

Lemma tab_twice_witness :
  ui.run two_sessions_cursor_last
    [ (world_ok, ui.KeyMsg (go "tab")); (world_ok, ui.KeyMsg (go "tab")) ]
  = Some (ui.clearMessages two_sessions_cursor_last).
Proof. apply (tab_twice world_ok world_ok two_sessions_cursor_last). reflexivity. Defined.

(** X19: in the Sessions view enter is s on the state with both messages
    cleared: the same statistics request (or the same failure), the only
    difference being that s leaves the messages as they are. *)
Theorem enter_is_s_after_clearing (w : ui.World) (m : ui.Model) :
  ui.inputMode m = ui.InputNone ->
  ui.currentView m = ui.ViewSessions ->
  ui.Update w m (ui.KeyMsg (go "enter"))
  = ui.Update w (ui.clearMessages m) (ui.KeyMsg (go "s"))
  /\ ui.Update w m (ui.KeyMsg (go "enter"))
     = prod_map ui.clearMessages id <$> ui.Update w m (ui.KeyMsg (go "s")).
Proof.
  intros Hmode Hview. cbn [ui.Update].
  rewrite !input_mode_none by done. eval_keys. cbn [orb].
  unfold ui.handleEnter. cbn. rewrite Hview.
  destruct (0 <? ui.len (ui.sessions m)); [| done].
  destruct (ui.at_index (ui.sessions m) (ui.sessionCursor m)); done.
Qed.

Lemma enter_is_s_after_clearing_witness :
  ui.Update world_ok two_sessions_cursor_last (ui.KeyMsg (go "enter"))
  = ui.Update world_ok (ui.clearMessages two_sessions_cursor_last) (ui.KeyMsg (go "s"))
  /\ ui.Update world_ok two_sessions_cursor_last (ui.KeyMsg (go "enter"))
     = prod_map ui.clearMessages id
         <$> ui.Update world_ok two_sessions_cursor_last (ui.KeyMsg (go "s")).
Proof.
  apply (enter_is_s_after_clearing world_ok two_sessions_cursor_last); reflexivity.
Defined.

(** ** Further invariants of the reachable states *)

Lemma run_invariant (Q : ui.World -> Prop) (P : ui.Model -> Prop) :
  (forall w m msg m' cmds,
      Q w -> P m -> ui.Update w m msg = Some (m', cmds) -> P m') ->
  forall events m m',
    Forall (fun e => Q e.1) events -> P m -> ui.run m events = Some m' -> P m'.
Proof.
  intros Hstep events. induction events as [| [w msg] events IH];
    intros m m' Hall HP Hrun; cbn in Hrun.
  - by simplify_eq.
  - apply Forall_cons in Hall as [HQ Hall].
    destruct (ui.Update w m msg) as [[m1 cmds] |] eqn:HU; [| done].
    cbn in Hrun. eapply IH; [done | | done]. by eapply Hstep.
Qed.

Ltac split_once :=
  match goal with
  | |- context [if ?b then _ else _] => destruct b eqn:?
  | |- context [match ui.currentView ?m with _ => _ end] =>
      destruct (ui.currentView m) eqn:?
  | |- context [match ui.inputMode ?m with _ => _ end] =>
      destruct (ui.inputMode m) eqn:?
  | |- context [match ui.UserHomeDir ?w with _ => _ end] =>
      destruct (ui.UserHomeDir w)
  | |- context [match ui.Save ?w ?c with _ => _ end] =>
      destruct (ui.Save w c)
  | |- context [ui.at_index ?l ?i] => destruct (ui.at_index l i)
  | |- context [match ?e with Some _ => _ | None => _ end] =>
      is_var e; destruct e
  end.

Ltac split_step :=
  repeat first
    [ progress cbn -[ui.isProfileConnected config.RemoveProfile
                     config.ValidateProfiles config.AddProfile]
    | split_once ].

(** What a step outside the dialogue leaves alone. *)
Lemma Update_normal_frame (w : ui.World) (m : ui.Model) (msg : ui.Msg)
    (m' : ui.Model) (cmds : list ui.Cmd) :
  ui.inputMode m = ui.InputNone ->
  ui.Update w m msg = Some (m', cmds) ->
  ui.completer m' = ui.completer m
  /\ (ui.inputMode m' = ui.InputNone \/ ui.currentView m' = ui.ViewProfiles)
  /\ ((ui.config m' = ui.config m /\ ui.profileValid m' = ui.profileValid m)
      \/ ui.profileValid m' = config.ValidateProfiles (ui.Stat w) (ui.config m')).
Proof.
  intros Hmode.
  destruct msg as [| key | | ss err | st err | err | err | |];
    cbn [ui.Update]; rewrite ?input_mode_none by done;
    unfold ui.handleEnter, ui.handleDelete, ui.startAddProfile,
      ui.moveCursorUp, ui.moveCursorDown;
    split_step; intros H; simplify_eq; split_step; auto.
Qed.

(** What a step of the dialogue leaves alone. *)
Lemma handleInputMode_frame (w : ui.World) (m : ui.Model) (key : list ascii) :
  ui.currentView (ui.handleInputMode w m key).1 = ui.currentView m
  /\ ((ui.config (ui.handleInputMode w m key).1 = ui.config m
       /\ ui.profileValid (ui.handleInputMode w m key).1 = ui.profileValid m)
      \/ ui.profileValid (ui.handleInputMode w m key).1
         = config.ValidateProfiles (ui.Stat w)
             (ui.config (ui.handleInputMode w m key).1)).
Proof.
  unfold ui.handleInputMode, ui.typeKey, ui.complete.
  split_step; auto.
Qed.

Lemma Update_dialogue_view (w : ui.World) (m : ui.Model) (msg : ui.Msg)
    (m' : ui.Model) (cmds : list ui.Cmd) :
  (ui.inputMode m <> ui.InputNone -> ui.currentView m = ui.ViewProfiles) ->
  ui.Update w m msg = Some (m', cmds) ->
  ui.inputMode m' <> ui.InputNone -> ui.currentView m' = ui.ViewProfiles.
Proof.
  intros HP HU Hm'.
  destruct (decide (ui.inputMode m = ui.InputNone)) as [Hmode | Hmode].
  - destruct (Update_normal_frame w m msg m' cmds Hmode HU) as (_ & [? | ?] & _); done.
  - destruct msg as [| key | | ss [e |] | st [e |] | [e |] | [e |] | |];
      cbn [ui.Update] in HU; simplify_eq; cbn; auto.
    + rewrite input_mode_not_none in HU by done. injection HU as HU.
      pose proof (proj1 (handleInputMode_frame w m key)) as Hv.
      rewrite HU in Hv. cbn in Hv. rewrite Hv. auto.
    + destruct (ui.len ss <=? ui.sessionCursor m); cbn; auto.
Qed.

(** X20: in every state the machine reaches from its initial state, the
    add-profile dialogue is open only over the Profiles view. *)
Theorem dialogue_only_over_profiles
    (w0 : ui.World) (cfg : config.Config) (events : list (ui.World * ui.Msg))
    (m : ui.Model) :
  ui.run (ui.NewModel w0 cfg) events = Some m ->
  ui.inputMode m <> ui.InputNone ->
  ui.currentView m = ui.ViewProfiles.
Proof.
  intros Hrun Hmode.
  pose proof (run_invariant (fun _ => True)
                (fun m => ui.inputMode m <> ui.InputNone ->
                          ui.currentView m = ui.ViewProfiles)) as Hinv.
  eapply Hinv; [| | | exact Hrun | exact Hmode].
  - intros w m1 msg m2 cmds _. apply Update_dialogue_view.
  - by apply Forall_forall.
  - done.
Qed.

Lemma dialogue_only_over_profiles_witness :
  ui.currentView typing_name = ui.ViewProfiles.
Proof.
  apply (dialogue_only_over_profiles world_ok one_profile
           [ (world_ok, ui.KeyMsg (go "a"));
             (world_ok, ui.KeyMsg (go "~/vpn/work.ovpn"));
             (world_ok, ui.KeyMsg (go "enter"));
             (world_ok, ui.KeyMsg (go "Office")) ]).
  - vm_compute. reflexivity.
  - vm_compute. discriminate.
Defined.

(** ** The validity map *)

Lemma validateFrom_lookup (stat : list ascii -> bool) (ps : list config.Profile)
    (i k : Z) (valid : gmap Z bool) :
  config.validateFrom stat i ps valid !! k
  = if bool_decide (i <= k < i + ui.len ps)
    then (fun p => stat (config.Path p)) <$> ps !! Z.to_nat (k - i)
    else valid !! k.
Proof.
  revert i valid. induction ps as [| p ps IH]; intros i valid; cbn.
  - rewrite bool_decide_eq_false_2; [done |]. unfold ui.len. cbn. lia.
  - rewrite IH. unfold ui.len. cbn [length].
    destruct (decide (k = i)) as [-> | Hne].
    + rewrite (bool_decide_eq_false_2 (i + 1 <= i < _)) by lia.
      rewrite (bool_decide_eq_true_2 (i <= i < _)) by lia.
      rewrite lookup_insert_eq. by replace (i - i) with 0 by lia.
    + rewrite lookup_insert_ne by done.
      destruct (decide (i + 1 <= k < i + 1 + Z.of_nat (length ps))) as [Hin | Hout].
      * rewrite bool_decide_eq_true_2 by done.
        rewrite bool_decide_eq_true_2 by lia.
        replace (Z.to_nat (k - i)) with (S (Z.to_nat (k - (i + 1)))) by lia. done.
      * rewrite bool_decide_eq_false_2 by done.
        rewrite bool_decide_eq_false_2 by lia. done.
Qed.

Lemma valid_at_ValidateProfiles (stat : list ascii -> bool) (c : config.Config)
    (i : Z) :
  ui.valid_at (config.ValidateProfiles stat c) i
  = match ui.at_index (config.Profiles c) i with
    | Some p => stat (config.Path p)
    | None => false
    end.
Proof.
  unfold ui.valid_at, config.ValidateProfiles, ui.at_index.
  rewrite validateFrom_lookup. rewrite Z.sub_0_r.
  destruct (Z.ltb_spec i 0).
  - rewrite bool_decide_eq_false_2 by lia. done.
  - destruct (decide (i < ui.len (config.Profiles c))) as [Hlt | Hge].
    + rewrite bool_decide_eq_true_2 by lia.
      by destruct (config.Profiles c !! Z.to_nat i).
    + rewrite bool_decide_eq_false_2 by lia.
      rewrite lookup_ge_None_2; [done |]. unfold ui.len in Hge. lia.
Qed.

Lemma Update_validated (w : ui.World) (m : ui.Model) (msg : ui.Msg)
    (m' : ui.Model) (cmds : list ui.Cmd) :
  ui.Update w m msg = Some (m', cmds) ->
  (ui.config m' = ui.config m /\ ui.profileValid m' = ui.profileValid m)
  \/ ui.profileValid m' = config.ValidateProfiles (ui.Stat w) (ui.config m').
Proof.
  intros HU.
  destruct (decide (ui.inputMode m = ui.InputNone)) as [Hmode | Hmode].
  - by destruct (Update_normal_frame w m msg m' cmds Hmode HU) as (_ & _ & ?).
  - destruct msg as [| key | | ss [e |] | st [e |] | [e |] | [e |] | |];
      cbn [ui.Update] in HU; simplify_eq; cbn; auto.
    + rewrite input_mode_not_none in HU by done. injection HU as HU.
      pose proof (proj2 (handleInputMode_frame w m key)) as Hv.
      rewrite HU in Hv. exact Hv.
    + destruct (ui.len ss <=? ui.sessionCursor m); cbn; auto.
Qed.

Lemma run_validated (events : list (ui.World * ui.Msg)) (w0 : ui.World)
    (m m' : ui.Model) :
  ui.profileValid m = config.ValidateProfiles (ui.Stat w0) (ui.config m) ->
  ui.run m events = Some m' ->
  exists w,
    (w ∈ w0 :: map fst events)
    /\ ui.profileValid m' = config.ValidateProfiles (ui.Stat w) (ui.config m').
Proof.
  revert w0 m. induction events as [| [w msg] events IH]; intros w0 m Hm Hrun;
    cbn in Hrun.
  - simplify_eq. exists w0. split; [apply elem_of_cons; auto | done].
  - destruct (ui.Update w m msg) as [[m1 cmds] |] eqn:HU; [| done].
    cbn in Hrun.
    destruct (Update_validated w m msg m1 cmds HU) as [[Hc Hv] | Hv].
    + destruct (IH w0 m1) as (w' & Hin & Hw'); [congruence | done |].
      exists w'. split; [| done]. cbn.
      apply elem_of_cons in Hin as [-> | Hin];
        apply elem_of_cons; [auto | right; apply elem_of_cons; auto].
    + destruct (IH w m1) as (w' & Hin & Hw'); [done | done |].
      exists w'. split; [| done]. cbn. apply elem_of_cons. auto.
Qed.

(** X21: in every state the machine reaches from its initial state, the
    validity map is the validation of the current profile list in one of
    the worlds the machine has met: it has an entry for exactly the indices
    of the list, and an index reads as valid exactly when the file of the
    profile at that index existed in that world. *)
Theorem validity_map_is_a_validation
    (w0 : ui.World) (cfg : config.Config) (events : list (ui.World * ui.Msg))
    (m : ui.Model) :
  ui.run (ui.NewModel w0 cfg) events = Some m ->
  exists w,
    (w ∈ w0 :: map fst events)
    /\ ui.profileValid m = config.ValidateProfiles (ui.Stat w) (ui.config m)
    /\ covers_profiles m
    /\ forall i,
        ui.valid_at (ui.profileValid m) i
        = match ui.at_index (config.Profiles (ui.config m)) i with
          | Some p => ui.Stat w (config.Path p)
          | None => false
          end.
Proof.
  intros Hrun.
  destruct (run_validated events w0 (ui.NewModel w0 cfg) m) as (w & Hin & Hv);
    [done | done |].
  exists w. split; [done |]. split; [done |]. split.
  - intros i. rewrite Hv. unfold config.ValidateProfiles.
    rewrite validateFrom_lookup, Z.sub_0_r.
    destruct (decide (0 <= i < ui.len (config.Profiles (ui.config m)))) as [Hin' | Hout].
    + rewrite bool_decide_eq_true_2 by lia. split; [done | intros _].
      destruct (lookup_lt_is_Some_2 (config.Profiles (ui.config m)) (Z.to_nat i))
        as [p Hp]; [unfold ui.len in Hin'; lia |].
      rewrite Hp. done.
    + rewrite bool_decide_eq_false_2 by lia. rewrite lookup_empty.
      split; [by intros [? ?] | done].
  - intros i. rewrite Hv. apply valid_at_ValidateProfiles.
Qed.

Lemma validity_map_is_a_validation_witness :
  exists w,
    (w ∈ [world_ok; world_ok; world_missing])
    /\ ui.profileValid after_delete
       = config.ValidateProfiles (ui.Stat w) (ui.config after_delete)
    /\ covers_profiles after_delete.
Proof.
  destruct (validity_map_is_a_validation world_ok one_profile
              [ (world_ok, ui.KeyMsg (go "j")); (world_missing, ui.KeyMsg (go "d")) ]
              after_delete)
    as (w & Hin & Hv & Hc & _).
  - vm_compute. reflexivity.
  - exists w. split; [exact Hin |]. split; [exact Hv | exact Hc].
Defined.

(** ** The completer inside the state machine *)

Lemma at_index_elem {A} (l : list A) (i : Z) (x : A) :
  ui.at_index l i = Some x -> x ∈ l.
Proof.
  unfold ui.at_index. destruct (i <? 0); [done |]. apply list_elem_of_lookup_2.
Qed.

Lemma at_index_head {A} (x : A) (l : list A) : ui.at_index (x :: l) 0 = Some x.
Proof. reflexivity. Qed.

Lemma at_index_last {A} (l : list A) (x : A) :
  last l = Some x -> ui.at_index l (ui.len l - 1) = Some x.
Proof.
  intros Hl. unfold ui.at_index, ui.len.
  assert (0 < length l)%nat by (destruct l; cbn in *; [done | lia]).
  rewrite (proj2 (Z.ltb_ge _ _)) by lia.
  rewrite last_lookup in Hl. rewrite <- Hl. f_equal. lia.
Qed.

Lemma complete_from_idle (w : ui.World) (m : ui.Model) (s0 : list ascii)
    (rest : list (list ascii)) :
  ui.inputMode m = ui.InputProfilePath ->
  completer_idle (ui.completer m) ->
  ui.suggestions (ui.completer m) = s0 :: rest ->
  ui.complete w ui.SelectNext m
  = ui.set_completer (ui.set_textInput m (ui.SetValue w (ui.textInput m) s0))
      (ui.completer_Update w (ui.completer m) s0)
  /\ forall sl, last (s0 :: rest) = Some sl ->
       ui.complete w ui.SelectPrev m
       = ui.set_completer (ui.set_textInput m (ui.SetValue w (ui.textInput m) sl))
           (ui.completer_Update w (ui.completer m) sl).
Proof.
  intros Hmode [Hidx Hne] Hs.
  assert (Hlen : 0 < ui.len (s0 :: rest)) by (unfold ui.len; cbn; lia).
  assert (HN : ui.GetSelected (ui.SelectNext (ui.completer m)) = s0).
  { unfold ui.SelectNext, ui.GetSelected. rewrite Hs, Hidx.
    rewrite (proj2 (Z.eqb_neq _ _)) by lia. cbn -[ui.len ui.at_index].
    change (-1 + 1) with 0.
    rewrite (proj2 (Z.leb_gt (ui.len (s0 :: rest)) 0)) by lia.
    rewrite (proj2 (Z.ltb_lt 0 _)) by lia. done. }
  assert (HP : forall sl, last (s0 :: rest) = Some sl ->
                 ui.GetSelected (ui.SelectPrev (ui.completer m)) = sl).
  { intros sl Hl. unfold ui.SelectPrev, ui.GetSelected. rewrite Hs, Hidx.
    rewrite (proj2 (Z.eqb_neq _ _)) by lia. cbn -[ui.len ui.at_index].
    change (-1 - 1 <? 0) with true. cbn match.
    rewrite (proj2 (Z.leb_le 0 (ui.len (s0 :: rest) - 1))) by lia.
    rewrite (proj2 (Z.ltb_lt (ui.len (s0 :: rest) - 1) _)) by lia.
    cbn -[ui.len ui.at_index].
    by rewrite (at_index_last _ _ Hl). }
  unfold ui.complete, ui.HasSuggestions. rewrite Hs.
  rewrite (proj2 (Z.ltb_lt _ _)) by done.
  rewrite bool_decide_eq_true_2 by done. cbn [andb].
  split; [| intros sl Hl].
  - cbn [ui.completer ui.set_completer]. rewrite HN.
    rewrite bool_decide_eq_false_2;
      [unfold ui.completer_Update, ui.SelectNext; rewrite Hs;
       by rewrite (proj2 (Z.eqb_neq _ _)) by lia |].
    intros ->. apply Hne. rewrite Hs. apply elem_of_cons. auto.
  - cbn [ui.completer ui.set_completer]. rewrite (HP sl Hl).
    rewrite bool_decide_eq_false_2;
      [unfold ui.completer_Update, ui.SelectPrev; rewrite Hs;
       by rewrite (proj2 (Z.eqb_neq _ _)) by lia |].
    intros ->. apply Hne. rewrite Hs. by apply last_Some_elem_of.
Qed.

Lemma handleInputMode_idle (w : ui.World) (m : ui.Model) (key : list ascii) :
  offers_paths w ->
  completer_idle (ui.completer m) ->
  completer_idle (ui.completer (ui.handleInputMode w m key).1).
Proof.
  intros Hw Hidle.
  assert (Hclear : completer_idle (ui.Clear (ui.completer m))).
  { split; [done |]. cbn. apply not_elem_of_nil. }
  assert (Hupd : forall c input, completer_idle (ui.completer_Update w c input)).
  { intros c input. split; [done |]. apply Hw. }
  assert (Hcomp : forall sel, sel = ui.SelectNext \/ sel = ui.SelectPrev ->
                    completer_idle (ui.completer (ui.complete w sel m))).
  { intros sel Hsel.
    destruct (decide (ui.inputMode m = ui.InputProfilePath)) as [Hmode | Hmode].
    2:{ unfold ui.complete. by rewrite bool_decide_eq_false_2 by done. }
    destruct (ui.suggestions (ui.completer m)) as [| s0 rest] eqn:Hs.
    { unfold ui.complete, ui.HasSuggestions. rewrite Hs.
      by rewrite andb_false_r. }
    destruct (complete_from_idle w m s0 rest Hmode Hidle Hs) as [Hn Hp].
    destruct Hsel as [-> | ->].
    - rewrite Hn. apply Hupd.
    - destruct (last (s0 :: rest)) as [sl |] eqn:Hl.
      + rewrite (Hp sl) by done. apply Hupd.
      + by apply last_None in Hl. }
  unfold ui.handleInputMode, ui.typeKey.
  repeat match goal with
         | |- context [if ?b then _ else _] => destruct b
         | |- context [match ui.inputMode m with _ => _ end] => destruct (ui.inputMode m)
         end;
    cbn -[ui.complete ui.Clear ui.completer_Update];
    first [exact Hidle | exact Hclear | apply Hupd | apply Hcomp; auto].
Qed.

Lemma Update_idle (w : ui.World) (m : ui.Model) (msg : ui.Msg)
    (m' : ui.Model) (cmds : list ui.Cmd) :
  offers_paths w ->
  completer_idle (ui.completer m) ->
  ui.Update w m msg = Some (m', cmds) ->
  completer_idle (ui.completer m').
Proof.
  intros Hw Hidle HU.
  destruct (decide (ui.inputMode m = ui.InputNone)) as [Hmode | Hmode].
  - destruct (Update_normal_frame w m msg m' cmds Hmode HU) as (-> & _). done.
  - destruct msg as [| key | | ss [e |] | st [e |] | [e |] | [e |] | |];
      cbn [ui.Update] in HU; simplify_eq; cbn; auto.
    + rewrite input_mode_not_none in HU by done. injection HU as HU.
      pose proof (handleInputMode_idle w m key Hw Hidle) as Hv.
      by rewrite HU in Hv.
    + by destruct (ui.len ss <=? ui.sessionCursor m).
Qed.

(** X22: when the completer never offers the empty string, then in every
    state the machine reaches at the path step with suggestions at hand no
    suggestion is highlighted, tab puts the first suggestion into the text
    widget and shift+tab the last one, and the suggestions are recomputed
    for the chosen path. *)
Theorem tab_completes_first_suggestion
    (w0 : ui.World) (cfg : config.Config) (events : list (ui.World * ui.Msg))
    (m : ui.Model) (w : ui.World) (s0 : list ascii) (rest : list (list ascii)) :
  ui.run (ui.NewModel w0 cfg) events = Some m ->
  Forall (fun e => offers_paths e.1) events ->
  ui.inputMode m = ui.InputProfilePath ->
  ui.suggestions (ui.completer m) = s0 :: rest ->
  ui.selectedIndex (ui.completer m) = -1
  /\ ui.Update w m (ui.KeyMsg (go "tab"))
     = Some (ui.set_completer
               (ui.set_textInput m (ui.SetValue w (ui.textInput m) s0))
               {| ui.suggestions := ui.getSuggestions w s0;
                  ui.selectedIndex := -1;
                  ui.maxSuggestions := ui.maxSuggestions (ui.completer m) |}, [])
  /\ forall sl, last (s0 :: rest) = Some sl ->
       ui.Update w m (ui.KeyMsg (go "shift+tab"))
       = Some (ui.set_completer
                 (ui.set_textInput m (ui.SetValue w (ui.textInput m) sl))
                 {| ui.suggestions := ui.getSuggestions w sl;
                    ui.selectedIndex := -1;
                    ui.maxSuggestions := ui.maxSuggestions (ui.completer m) |}, []).
Proof.
  intros Hrun Hall Hmode Hs.
  assert (Hidle : completer_idle (ui.completer m)).
  { eapply (run_invariant offers_paths (fun m => completer_idle (ui.completer m)));
      [| exact Hall | | exact Hrun].
    - intros w1 m1 msg m2 cmds. apply Update_idle.
    - split; [done |]. cbn. apply not_elem_of_nil. }
  destruct (complete_from_idle w m s0 rest Hmode Hidle Hs) as [Hn Hp].
  split; [apply Hidle |]. cbn [ui.Update].
  rewrite input_mode_not_none by (rewrite Hmode; done).
  unfold ui.handleInputMode. eval_keys. cbn match.
  split; [by rewrite Hn |]. intros sl Hl. by rewrite (Hp sl Hl).
Qed.

Lemma tab_completes_first_suggestion_witness :
  ui.selectedIndex (ui.completer typing_listed) = -1
  /\ exists m',
      ui.Update world_listing typing_listed (ui.KeyMsg (go "tab")) = Some (m', [])
      /\ ui.Value (ui.textInput m') = go "/etc/vpn/"
      /\ ui.selectedIndex (ui.completer m') = -1.
Proof.
  destruct (tab_completes_first_suggestion world_ok one_profile
              [ (world_ok, ui.KeyMsg (go "a")); (world_listing, ui.KeyMsg (go "/etc/")) ]
              typing_listed world_listing (go "/etc/vpn/") [go "/etc/work.ovpn"])
    as (Hi & Ht & _).
  - vm_compute. reflexivity.
  - repeat constructor; intros input Hin; cbn in Hin;
      [apply not_elem_of_nil in Hin
      | apply elem_of_cons in Hin as [Hin | Hin];
        [| apply elem_of_cons in Hin as [Hin | Hin];
           [| by apply not_elem_of_nil in Hin]];
        apply (f_equal length) in Hin; rewrite length_app in Hin; cbn in Hin; lia];
      done.
  - reflexivity.
  - reflexivity.
  - split; [exact Hi |]. eexists. split; [exact Ht |]. split; reflexivity.
Defined.

(** ** The completer on its own *)

Lemma SelectNext_step (c : ui.PathCompleter) :
  0 <= ui.selectedIndex c < ui.len (ui.suggestions c) ->
  ui.SelectNext c
  = {| ui.suggestions := ui.suggestions c;
       ui.selectedIndex := (ui.selectedIndex c + 1) mod ui.len (ui.suggestions c);
       ui.maxSuggestions := ui.maxSuggestions c |}.
Proof.
  intros Hi. unfold ui.SelectNext.
  rewrite (proj2 (Z.eqb_neq _ _)) by lia. f_equal.
  destruct (Z.leb_spec (ui.len (ui.suggestions c)) (ui.selectedIndex c + 1)).
  - replace (ui.selectedIndex c + 1) with (ui.len (ui.suggestions c)) by lia.
    by rewrite Z_mod_same_full.
  - by rewrite Z.mod_small by lia.
Qed.

Lemma SelectNext_iter (k : nat) (c : ui.PathCompleter) :
  0 <= ui.selectedIndex c < ui.len (ui.suggestions c) ->
  Nat.iter k ui.SelectNext c
  = {| ui.suggestions := ui.suggestions c;
       ui.selectedIndex :=
         (ui.selectedIndex c + Z.of_nat k) mod ui.len (ui.suggestions c);
       ui.maxSuggestions := ui.maxSuggestions c |}.
Proof.
  intros Hi. induction k as [| k IH].
  - cbn. rewrite Z.add_0_r, Z.mod_small by done. by destruct c.
  - rewrite Nat.iter_succ, IH, SelectNext_step; cbn.
    + f_equal. rewrite Zplus_mod_idemp_l. f_equal. lia.
    + apply Z.mod_pos_bound. lia.
Qed.

(** X23: with a suggestion selected, [SelectNext] walks round the list:
    after [k] calls the index is the old one plus [k] modulo the number of
    suggestions and a suggestion of the list is selected, as many calls as
    there are suggestions give the completer back, and [SelectPrev] and
    [SelectNext] undo each other. *)
Theorem SelectNext_cycles (c : ui.PathCompleter) :
  0 <= ui.selectedIndex c < ui.len (ui.suggestions c) ->
  (forall k : nat,
      ui.suggestions (Nat.iter k ui.SelectNext c) = ui.suggestions c
      /\ ui.selectedIndex (Nat.iter k ui.SelectNext c)
         = (ui.selectedIndex c + Z.of_nat k) mod ui.len (ui.suggestions c)
      /\ (ui.GetSelected (Nat.iter k ui.SelectNext c) ∈ ui.suggestions c))
  /\ Nat.iter (length (ui.suggestions c)) ui.SelectNext c = c
  /\ ui.SelectPrev (ui.SelectNext c) = c
  /\ ui.SelectNext (ui.SelectPrev c) = c.
Proof.
  intros Hi. split; [| split; [| split]].
  - intros k. rewrite SelectNext_iter by done. cbn.
    split; [done |]. split; [done |].
    pose proof (Z.mod_pos_bound (ui.selectedIndex c + Z.of_nat k)
                  (ui.len (ui.suggestions c)) ltac:(lia)) as Hb.
    unfold ui.GetSelected. cbn.
    rewrite (proj2 (Z.leb_le 0 _)) by lia.
    rewrite (proj2 (Z.ltb_lt _ _)) by lia. cbn.
    destruct (at_index_in_range (ui.suggestions c) _ Hb) as [x Hx].
    rewrite Hx. cbn. by eapply at_index_elem.
  - rewrite SelectNext_iter by done. destruct c as [ss i mx]. cbn in *. f_equal.
    unfold ui.len in *.
    replace (i + Z.of_nat (length ss)) with (i + 1 * Z.of_nat (length ss)) by lia.
    rewrite Z_mod_plus_full. by rewrite Z.mod_small.
  - rewrite SelectNext_step by done. unfold ui.SelectPrev. cbn.
    rewrite (proj2 (Z.eqb_neq _ _)) by lia.
    destruct c as [ss i mx]. cbn in *. f_equal.
    destruct (decide (i + 1 = ui.len ss)) as [He | Hn].
    + rewrite He, Z_mod_same_full. change (0 - 1 <? 0) with true. cbn match. lia.
    + rewrite Z.mod_small by lia.
      rewrite (proj2 (Z.ltb_ge _ _)) by lia. lia.
  - unfold ui.SelectPrev. rewrite (proj2 (Z.eqb_neq _ _)) by lia.
    destruct c as [ss i mx]. cbn in *.
    destruct (Z.ltb_spec (i - 1) 0).
    + unfold ui.SelectNext. cbn. rewrite (proj2 (Z.eqb_neq _ _)) by lia.
      rewrite (proj2 (Z.leb_le _ _)) by lia. f_equal. lia.
    + unfold ui.SelectNext. cbn. rewrite (proj2 (Z.eqb_neq _ _)) by lia.
      rewrite (proj2 (Z.leb_gt _ _)) by lia. f_equal. lia.
Qed.

Lemma SelectNext_cycles_witness :
  Nat.iter 2 ui.SelectNext
    {| ui.suggestions := [go "/etc/vpn/"; go "/etc/work.ovpn"];
       ui.selectedIndex := 1; ui.maxSuggestions := 5 |}
  = {| ui.suggestions := [go "/etc/vpn/"; go "/etc/work.ovpn"];
       ui.selectedIndex := 1; ui.maxSuggestions := 5 |}.
Proof.
  apply (SelectNext_cycles
           {| ui.suggestions := [go "/etc/vpn/"; go "/etc/work.ovpn"];
              ui.selectedIndex := 1; ui.maxSuggestions := 5 |}).
  unfold ui.len. simpl. lia.
Defined.

Lemma TrimSpace_fixed (s : list ascii) :
  strings.TrimSpace s = s
  <-> strings.spaceWidth strings.spaceEncodings s = 0%nat
      /\ strings.spaceWidth (map (@rev ascii) strings.spaceEncodings) (rev s) = 0%nat.
Proof.
  unfold strings.TrimSpace.
  set (encs := strings.spaceEncodings). set (rencs := map (@rev ascii) encs).
  split.
  - intros Hs.
    destruct (dropSpaces_spec encs s) as [Hsuf Hw].
    set (r := strings.dropSpaces encs 0 s) in *.
    destruct (dropSpaces_spec rencs (rev r)) as [Hsuf' Hw'].
    set (t := strings.dropSpaces rencs 0 (rev r)) in *.
    assert (Ht : t = rev s).
    { rewrite <- (rev_involutive t). f_equal. exact Hs. }
    assert (Hr : r = s).
    { apply suffix_length_eq; [done |].
      apply suffix_length in Hsuf'. rewrite length_rev in Hsuf'.
      rewrite Ht, length_rev in Hsuf'. done. }
    rewrite Hr in Hw. split; [done |].
    by rewrite <- Ht.
  - intros [H1 H2]. rewrite (dropSpaces_id encs s) by done.
    rewrite (dropSpaces_id rencs (rev s)) by done. apply rev_involutive.
Qed.

Lemma prefix_before_last (e u : list ascii) (y : ascii) :
  e `prefix_of` (u ++ [y]) -> y ∉ e -> e `prefix_of` u.
Proof.
  intros [k Hk] Hy. destruct k as [| z k _] using rev_ind.
  - exfalso. apply Hy. rewrite app_nil_r in Hk. rewrite <- Hk.
    apply elem_of_app. right. apply elem_of_cons. by left.
  - rewrite app_assoc in Hk. apply app_inj_tail in Hk as [-> _].
    by exists k.
Qed.

Lemma reversed_encodings_no_tilde :
  Forall (fun e : list ascii => "~"%char ∉ e) (map (@rev ascii) strings.spaceEncodings).
Proof.
  unfold strings.spaceEncodings. cbn.
  repeat first [apply Forall_nil_2 | apply Forall_cons_2];
    by apply (bool_decide_unpack _); vm_compute.
Qed.

Lemma TrimSpace_CompactPath (w : ui.World) (path : list ascii) :
  strings.TrimSpace path = path ->
  strings.TrimSpace (ui.CompactPath w path) = ui.CompactPath w path.
Proof.
  intros Hp. unfold ui.CompactPath.
  destruct (ui.UserHomeDir w) as [home |]; [| done].
  destruct (strings.HasPrefix path home) eqn:Hh; [| done].
  apply HasPrefix_spec in Hh as [t ->]. rewrite drop_app_length.
  apply TrimSpace_fixed in Hp as [_ Hback]. apply TrimSpace_fixed.
  split; [reflexivity |].
  change (go "~" ++ t) with ("~"%char :: t). cbn [rev].
  set (rencs := map (@rev ascii) strings.spaceEncodings) in *.
  unfold strings.spaceWidth.
  destruct (find (strings.HasPrefix (rev t ++ ["~"%char])) rencs) as [e |] eqn:E;
    [| done].
  exfalso. apply find_some in E as [Hin He]. apply HasPrefix_spec in He.
  assert (Hno : "~"%char ∉ e).
  { pose proof reversed_encodings_no_tilde as Hall.
    rewrite Forall_forall in Hall. by apply Hall, list_elem_of_In. }
  apply prefix_before_last in He; [| done].
  assert (Hpre : strings.HasPrefix (rev (home ++ t)) e = true).
  { apply HasPrefix_spec. rewrite rev_app_distr. by apply prefix_app_r. }
  unfold strings.spaceWidth in Hback.
  destruct (find (strings.HasPrefix (rev (home ++ t))) rencs) as [e' |] eqn:E'.
  - apply find_some in E' as [Hin' _].
    assert (e' <> []) as Hne'.
    { apply in_map_iff in Hin' as (e0 & <- & Hin0).
      pose proof spaceEncodings_nonempty as Hall. rewrite Forall_forall in Hall.
      apply list_elem_of_In, Hall in Hin0. intros Hr. apply Hin0.
      by rewrite <- (rev_involutive e0), Hr. }
    by destruct e'.
  - eapply find_none in E'; [| exact Hin]. congruence.
Qed.

(** X24: the path step undoes [CompactPath]: for a path that does not
    begin with [~], is not empty and has no white space at its ends (the
    path step trims the text), confirming the compacted path as it stands
    stores the path itself as the pending profile's path, whether or not
    the home directory is known. *)
Theorem CompactPath_expands_back (w : ui.World) (m : ui.Model) (path : list ascii) :
  ui.inputMode m = ui.InputProfilePath ->
  strings.HasPrefix path (go "~") = false ->
  path <> [] ->
  strings.TrimSpace path = path ->
  ui.Value (ui.textInput m) = ui.CompactPath w path ->
  exists m',
    ui.Update w m (ui.KeyMsg (go "enter")) = Some (m', [])
    /\ ui.inputMode m' = ui.InputProfileName
    /\ config.Path (ui.newProfile m') = path.
Proof.
  intros Hmode Htilde Hne Htrim Hv. cbn [ui.Update].
  rewrite input_mode_not_none by (rewrite Hmode; done).
  unfold ui.handleInputMode. eval_keys. cbn match.
  rewrite Hv, (TrimSpace_CompactPath w path Htrim), Hmode.
  assert (Hc : ui.CompactPath w path <> []).
  { unfold ui.CompactPath. destruct (ui.UserHomeDir w); [| done].
    by destruct (strings.HasPrefix path l). }
  rewrite (bool_decide_eq_false_2 (ui.CompactPath w path = [])) by done.
  eexists. split; [reflexivity |]. cbn -[strings.HasPrefix ui.CompactPath go].
  split; [done |].
  unfold ui.CompactPath. destruct (ui.UserHomeDir w) as [home |] eqn:Hh.
  - destruct (strings.HasPrefix path home) eqn:Hp.
    + cbn. apply HasPrefix_spec in Hp as [t ->].
      by rewrite drop_app_length.
    + by rewrite Htilde.
  - by rewrite Htilde.
Qed.

Lemma CompactPath_expands_back_witness :
  ui.CompactPath world_ok (go "/home/u/vpn/work.ovpn") = go "~/vpn/work.ovpn"
  /\ exists m',
      ui.Update world_ok typing_path (ui.KeyMsg (go "enter")) = Some (m', [])
      /\ ui.inputMode m' = ui.InputProfileName
      /\ config.Path (ui.newProfile m') = go "/home/u/vpn/work.ovpn".
Proof.
  split; [reflexivity |].
  apply (CompactPath_expands_back world_ok typing_path (go "/home/u/vpn/work.ovpn")).
  - reflexivity.
  - reflexivity.
  - discriminate.
  - vm_compute. reflexivity.
  - vm_compute. reflexivity.
Defined.

(** ** The theme file *)

Lemma fold_themeLine_lookup (lines : list (list ascii))
    (colors : gmap (list ascii) (list ascii)) (k : list ascii) :
  fold_left ui.themeLine lines colors !! k
  = match last (filter (fun kv => kv.1 = k) (omap ui.themeSetting lines)) with
    | Some kv => Some kv.2
    | None => colors !! k
    end.
Proof.
  revert colors. induction lines as [| l lines IH]; intros colors; [done |].
  cbn [fold_left omap list_omap]. rewrite IH. unfold ui.themeLine.
  fold (omap ui.themeSetting lines).
  destruct (ui.themeSetting l) as [[k' v'] |]; [| done].
  rewrite filter_cons. cbn [fst].
  destruct (decide (k' = k)) as [-> | Hne].
  - rewrite last_cons.
    destruct (last (filter _ _)); [done |]. by rewrite lookup_insert_eq.
  - destruct (last (filter _ _)); [done |]. by rewrite lookup_insert_ne.
Qed.

Lemma themeSetting_without_equals (line : list ascii) :
  "="%char ∉ line -> ui.themeSetting line = None.
Proof.
  intros Hl. unfold ui.themeSetting, strings.SplitN2.
  change (go "=") with ["="%char].
  rewrite Index_absent by (intros H; by apply Hl, TrimSpace_elem).
  by destruct (_ || _).
Qed.

(** X25: every color of the loaded theme is the value of the last scanned
    line that sets its key, and the default color when no scanned line
    does.  In a file whose lines have at most 65535 bytes each, the scanned
    lines are all its lines, a last line without newline included when it
    is not empty; a longer line ends the scan, and only the lines before it
    are scanned.  A line without an equals sign, a comment and a blank line
    set nothing; a file whose scanned lines set nothing, or one that cannot
    be opened, gives the default theme. *)
Theorem theme_last_setting_wins :
  (forall content : list ascii,
      ui.loadThemeFromFile (Some content)
      = {| ui.Accent := last_setting "accent" (go "#7C3AED") (settings content);
           ui.Foreground := last_setting "foreground" (go "#d8dee9") (settings content);
           ui.Background := last_setting "background" (go "#2e3440") (settings content);
           ui.SelectionForeground :=
             last_setting "selection_foreground" (go "#FFFFFF") (settings content);
           ui.SelectionBackground :=
             last_setting "selection_background" (go "#7C3AED") (settings content);
           ui.Success := last_setting "success" (go "#a3be8c") (settings content);
           ui.Warning := last_setting "warning" (go "#ebcb8b") (settings content);
           ui.Error := last_setting "error" (go "#bf616a") (settings content);
           ui.Muted := last_setting "muted" (go "#6B7280") (settings content) |})
  /\ (forall (ls : list (list ascii)) (last_line : list ascii),
         Forall fits_scanner (ls ++ [last_line]) ->
         settings (text_of ls ++ last_line)
         = omap ui.themeSetting
             (map scanned ls ++ match last_line with [] => [] | _ => [scanned last_line] end))
  /\ (forall (ls : list (list ascii)) (l rest : list ascii),
         Forall fits_scanner ls ->
         "010"%char ∉ l -> (65535 < N.of_nat (length l))%N ->
         settings (text_of ls ++ l ++ newline ++ rest)
         = omap ui.themeSetting (map scanned ls))
  /\ (forall line : list ascii,
         "="%char ∉ line
         \/ strings.HasPrefix (strings.TrimSpace line) (go "#") = true
         \/ strings.TrimSpace line = [] ->
         ui.themeSetting line = None)
  /\ (forall content : list ascii,
         settings content = [] -> ui.loadThemeFromFile (Some content) = ui.DefaultTheme)
  /\ ui.loadThemeFromFile None = ui.DefaultTheme.
Proof.
  assert (H : forall content key field,
             ui.colorOr (fold_left ui.themeLine (openvpn.scanLines [] content) ∅)
               key field
             = last_setting key field (settings content)).
  { intros content key field. unfold ui.colorOr, last_setting, settings.
    rewrite fold_themeLine_lookup.
    destruct (last (filter _ _)); [done |]. by rewrite lookup_empty. }
  assert (Hl : forall content, ui.loadThemeFromFile (Some content)
               = {| ui.Accent := last_setting "accent" (go "#7C3AED") (settings content);
       ui.Foreground := last_setting "foreground" (go "#d8dee9") (settings content);
       ui.Background := last_setting "background" (go "#2e3440") (settings content);
       ui.SelectionForeground :=
         last_setting "selection_foreground" (go "#FFFFFF") (settings content);
       ui.SelectionBackground :=
         last_setting "selection_background" (go "#7C3AED") (settings content);
       ui.Success := last_setting "success" (go "#a3be8c") (settings content);
       ui.Warning := last_setting "warning" (go "#ebcb8b") (settings content);
       ui.Error := last_setting "error" (go "#bf616a") (settings content);
       ui.Muted := last_setting "muted" (go "#6B7280") (settings content) |}).
  { intros content. unfold ui.loadThemeFromFile. cbn zeta. by rewrite !H. }
  split; [exact Hl |]. split; [| split; [| split; [| split; [| done]]]].
  - intros ls last_line Hfit. apply Forall_app in Hfit as [Hls Hlast].
    apply Forall_singleton in Hlast as [Hnl Hlen].
    unfold settings. rewrite scanLines_text by done. f_equal. f_equal.
    apply scanLines_last; done.
  - intros ls l rest Hls Hnl Hlen. unfold settings.
    by rewrite scanLines_long.
  - intros line [Heq | [Hc | He]].
    + by apply themeSetting_without_equals.
    + unfold ui.themeSetting. rewrite Hc. by rewrite orb_true_r.
    + unfold ui.themeSetting. rewrite He. done.
  - intros content He. rewrite Hl, He. reflexivity.
Qed.

Lemma graphic_plain (c : ascii) (t : list ascii) :
  graphicByte c = true ->
  strings.spaceWidth strings.spaceEncodings (c :: t) = 0%nat
  /\ strings.spaceWidth (map (@rev ascii) strings.spaceEncodings) (c :: t) = 0%nat.
Proof.
  destruct c as [[] [] [] [] [] [] [] []]; intros H; try discriminate H;
    split; reflexivity.
Qed.

Lemma dropSpaces_trail (k : nat) (s : list ascii) :
  strings.dropSpaces (map (@rev ascii) strings.spaceEncodings) 0
    (replicate k " "%char ++ s)
  = strings.dropSpaces (map (@rev ascii) strings.spaceEncodings) 0 s.
Proof. induction k as [| k IH]; [done |]. cbn [replicate app]. exact IH. Qed.

Lemma rev_replicate {A} (n : nat) (x : A) : rev (replicate n x) = replicate n x.
Proof.
  induction n as [| n IH]; [done |]. cbn. rewrite IH.
  clear IH. induction n as [| n IH]; [done |]. cbn. by rewrite IH.
Qed.

Lemma TrimSpace_padded (k j : nat) (w : list ascii) (c d : ascii) :
  head w = Some c -> last w = Some d ->
  graphicByte c = true -> graphicByte d = true ->
  strings.TrimSpace (replicate k " "%char ++ w ++ replicate j " "%char) = w.
Proof.
  intros Hh Hl Hc Hd. unfold strings.TrimSpace. rewrite dropSpaces_indent.
  destruct w as [| c' w']; [done |]. cbn in Hh. simplify_eq.
  rewrite (dropSpaces_id _ ((c :: w') ++ replicate j " "%char))
    by apply (proj1 (graphic_plain c _ Hc)).
  rewrite rev_app_distr, rev_replicate, dropSpaces_trail.
  apply last_Some in Hl as [w'' Hw]. rewrite Hw, rev_app_distr. cbn [rev app].
  rewrite dropSpaces_id by apply (proj2 (graphic_plain d _ Hd)).
  cbn [rev]. by rewrite rev_involutive.
Qed.

Lemma TrimByte_quoted (value : list ascii) :
  quote ∉ value -> strings.TrimByte (quote :: value ++ [quote]) quote = value.
Proof.
  intros Hq.
  assert (Hleft : forall l t, l <> [] -> quote ∉ l ->
            strings.TrimLeftByte (l ++ t) quote = l ++ t).
  { intros [| x l] t Hne Hl; [done |]. cbn.
    destruct (Ascii.eqb_spec x quote) as [-> | _]; [| done].
    exfalso. apply Hl. apply elem_of_cons. auto. }
  destruct (decide (value = [])) as [-> | Hne]; [reflexivity |].
  unfold strings.TrimByte.
  change (quote :: value ++ [quote]) with ((quote :: value) ++ [quote]).
  rewrite rev_app_distr. cbn [rev app strings.TrimLeftByte].
  change (Ascii.eqb quote quote) with true. cbn match.
  rewrite Hleft.
  - rewrite rev_app_distr, rev_involutive. cbn [rev app strings.TrimLeftByte].
    change (Ascii.eqb quote quote) with true. cbn match.
    rewrite <- (app_nil_r value) at 1. rewrite Hleft by done. apply app_nil_r.
  - intros E. apply (f_equal (@rev ascii)) in E. by rewrite rev_involutive in E.
  - intros Hin. apply Hq. apply list_elem_of_In. apply in_rev.
    by apply list_elem_of_In.
Qed.

Lemma Index_after_key (key rest : list ascii) (a : nat) :
  "="%char ∉ key ->
  strings.Index (key ++ replicate a " "%char ++ "="%char :: rest) (go "=")
  = Some (length key + a)%nat.
Proof.
  intros Hk. apply first_occurrence_Index. split.
  - rewrite app_assoc.
    replace (length key + a)%nat with (length (key ++ replicate a " "%char))
      by (by rewrite length_app, length_replicate).
    rewrite drop_app_length. by exists rest.
  - intros j Hj Hp. apply HasPrefix_spec in Hp.
    change (go "=") with ["="%char] in Hp. apply HasPrefix_byte in Hp.
    rewrite app_assoc in Hp. rewrite lookup_app_l in Hp
      by (rewrite length_app, length_replicate; lia).
    apply list_elem_of_lookup_2 in Hp. apply elem_of_app in Hp as [Hp | Hp]; [done |].
    by apply elem_of_replicate in Hp as [? _].
Qed.

(** X26: a line of the theme file that holds a key (printable, without
    blanks or equals sign, not starting with a hash), an equals sign and a
    value between double quotes, with any blanks before, around the
    equals sign and after, sets that key to the value without the quotes. *)
Theorem theme_row_is_setting (indent a b trail : nat) (key value : list ascii) :
  Forall (fun c => graphicByte c = true) key ->
  key <> [] ->
  ("="%char ∉ key) ->
  strings.HasPrefix key (go "#") = false ->
  (quote ∉ value) ->
  ui.themeSetting (theme_row indent key a b value trail) = Some (key, value)
  /\ forall colors,
       ui.themeLine colors (theme_row indent key a b value trail)
       = <[key := value]> colors.
Proof.
  intros Hk Hne Heq Hhash Hq.
  assert (Hs : ui.themeSetting (theme_row indent key a b value trail)
               = Some (key, value)).
  2:{ split; [exact Hs |]. intros colors. unfold ui.themeLine. by rewrite Hs. }
  destruct key as [| c key'] eqn:Ek; [done |]. rewrite <- Ek in *.
  assert (Hc : graphicByte c = true) by (rewrite Ek in Hk; by inversion Hk).
  destruct (last key) as [d |] eqn:Hl; [| rewrite Ek in Hl; by apply last_None in Hl].
  assert (Hd : graphicByte d = true).
  { apply last_Some_elem_of in Hl. rewrite Forall_forall in Hk. by apply Hk. }
  set (body := key ++ replicate a " "%char ++ go "=" ++ replicate b " "%char
               ++ quote :: value ++ [quote]).
  assert (Htrim : strings.TrimSpace (theme_row indent key a b value trail) = body).
  { unfold theme_row.
    replace (key ++ replicate a " "%char ++ go "=" ++ replicate b " "%char
             ++ quote :: value ++ [quote] ++ replicate trail " "%char)
      with (body ++ replicate trail " "%char)
      by (unfold body; rewrite <- !app_assoc; cbn [app];
          by rewrite <- !app_assoc).
    apply (TrimSpace_padded indent trail body c quote); try done.
    - unfold body. by rewrite Ek.
    - unfold body. rewrite !app_assoc, app_comm_cons, app_assoc.
      apply last_snoc. }
  unfold ui.themeSetting. cbn zeta. rewrite Htrim.
  assert (Hbody : body = c :: key' ++ replicate a " "%char ++ go "="
                         ++ replicate b " "%char ++ quote :: value ++ [quote]).
  { unfold body. by rewrite Ek. }
  rewrite (bool_decide_eq_false_2 (body = [])) by (by rewrite Hbody).
  assert (Hp : strings.HasPrefix body (go "#") = false).
  { rewrite Hbody. rewrite Ek in Hhash. cbn in *.
    by destruct (Ascii.eqb c "#"). }
  rewrite Hp. cbn [orb]. unfold strings.SplitN2.
  unfold body at 1. change (go "=" ++ ?r) with ("="%char :: r).
  rewrite Index_after_key by done.
  assert (Htake : take (length key + a) body = key ++ replicate a " "%char).
  { unfold body. rewrite app_assoc.
    replace (length key + a)%nat with (length (key ++ replicate a " "%char))
      by (by rewrite length_app, length_replicate).
    by rewrite take_app_length. }
  assert (Hdrop : drop (length key + a + length (go "=")) body
                  = replicate b " "%char ++ (quote :: value ++ [quote])).
  { unfold body. rewrite (app_assoc key), (app_assoc (key ++ _)).
    replace (length key + a + length (go "="))%nat
      with (length ((key ++ replicate a " "%char) ++ go "="))
      by (rewrite !length_app, length_replicate; done).
    by rewrite drop_app_length. }
  rewrite Htake, Hdrop.
  rewrite <- (app_nil_l (key ++ replicate a " "%char)).
  change (@nil ascii) with (replicate 0 " "%char) at 1.
  rewrite (TrimSpace_padded 0 a key c d) by (try done; by rewrite Ek).
  rewrite <- (app_nil_r (quote :: value ++ [quote])).
  change (@nil ascii) with (replicate 0 " "%char) at 2.
  rewrite (TrimSpace_padded b 0 (quote :: value ++ [quote]) quote quote);
    [| done | | done | done].
  - by rewrite TrimByte_quoted.
  - rewrite app_comm_cons. apply last_snoc.
Qed.

Lemma theme_row_is_setting_witness :
  ui.themeSetting
    (go "  accent = " ++ quote :: go "#ff0000" ++ [quote] ++ go " ")
  = Some (go "accent", go "#ff0000").
Proof.
  destruct (theme_row_is_setting 2 1 1 1 (go "accent") (go "#ff0000")) as [H _].
  - repeat constructor.
  - discriminate.
  - intros Hin. repeat (apply elem_of_cons in Hin as [Hin | Hin]; [discriminate |]).
    by apply elem_of_nil in Hin.
  - reflexivity.
  - intros Hin. repeat (apply elem_of_cons in Hin as [Hin | Hin]; [discriminate |]).
    by apply elem_of_nil in Hin.
  - exact H.
Defined.

(** ** The style of a session's status *)

Lemma Contains_occurs (s sub : list ascii) :
  strings.Contains s sub = true <-> occurs sub s.
Proof.
  unfold strings.Contains, occurs. pose proof (Index_spec s sub) as H.
  destruct (strings.Index s sub) as [i |].
  - split; [intros _ | done]. exists i. apply HasPrefix_spec. apply H.
  - split; [done |]. intros [i Hi]. apply HasPrefix_spec in Hi.
    by rewrite H in Hi.
Qed.

Lemma occurs_inside (sub w a b : list ascii) :
  occurs sub w -> occurs sub (a ++ w ++ b).
Proof.
  intros [i [t Ht]]. exists (length (a ++ take i w)).
  assert (Hw : a ++ w ++ b = (a ++ take i w) ++ sub ++ (t ++ b)).
  { rewrite <- (take_drop i w) at 1. rewrite Ht. by rewrite <- !app_assoc. }
  rewrite Hw, drop_app_length. by exists (t ++ b).
Qed.

Lemma ToLower_app (a b : list ascii) :
  strings.ToLower (a ++ b)
  = la ← strings.ToLower a; lb ← strings.ToLower b; Some (la ++ lb).
Proof.
  unfold strings.ToLower. rewrite forallb_app.
  destruct (forallb strings.isASCII a); cbn; [| done].
  destruct (forallb strings.isASCII b); cbn; [| done].
  by rewrite map_app.
Qed.

(** X27: a status of ASCII bytes that holds a word whose small letters
    hold "connected" is rendered in the style for connected sessions,
    whatever stands around the word: so "Disconnected" and
    "Not connected" are; the style for disconnected sessions needs a
    status without "connected" and without "paused" in any casing. *)
Theorem status_with_connected_inside (pre word post lword : list ascii) :
  forallb strings.isASCII (pre ++ post) = true ->
  strings.ToLower word = Some lword ->
  strings.Contains lword (go "connected") = true ->
  ui.statusStyle (pre ++ word ++ post) = Some ui.StyleConnected
  /\ forall status lower,
       strings.ToLower status = Some lower ->
       (ui.statusStyle status = Some ui.StyleDisconnected
        <-> ~ occurs (go "connected") lower /\ ~ occurs (go "paused") lower).
Proof.
  intros Hascii Hword Hin. split.
  - unfold ui.statusStyle. rewrite !ToLower_app, Hword.
    rewrite forallb_app in Hascii. apply andb_true_iff in Hascii as [Ha Hb].
    unfold strings.ToLower at 1 2. rewrite Ha, Hb. cbn [mbind option_bind].
    rewrite (proj2 (Contains_occurs _ _)); [done |].
    apply occurs_inside. by apply Contains_occurs.
  - intros status lower Hl. unfold ui.statusStyle. rewrite Hl. cbn [mbind option_bind].
    rewrite <- !Contains_occurs.
    destruct (strings.Contains lower (go "connected")),
             (strings.Contains lower (go "paused")); split;
      try discriminate; try done; intros [H1 H2]; done.
Qed.

Lemma status_with_connected_inside_witness :
  ui.statusStyle (go "Connection, Client " ++ go "Disconnected" ++ [])
  = Some ui.StyleConnected.
Proof.
  destruct (status_with_connected_inside (go "Connection, Client ")
              (go "Disconnected") [] (go "disconnected")) as [H _].
  - reflexivity.
  - reflexivity.
  - reflexivity.
  - exact H.
Defined.
